(** * Financial-report metric extraction: a shallow embedding

    The development follows the Python modules of the repository:
    - [src/data/utils.py]: [safe_float] and [extract_important_metrics]
      (the table-driven extractor), and the list of metrics that
      [save_metrics_to_csv] builds with it;
    - [src/utils.py]: [prepare_input_text], [fallback_extraction] and
      [extract_metrics] (the structured path and its regex fallback),
      and [format_text_content];
    - [src/models/models.py]: the fields of [FinancialMetrics].

    Python values are modelled as follows.
    - A [str] is a Rocq [string].  The model is exact for ASCII text;
      a character above code 127 is kept as an opaque symbol that is
      neither a letter, a digit nor white space.
    - A [float] is an IEEE-754 binary64 value, [spec_float] with
      [prec = 53] and [emax = 1024]; [float(str)] rounds the decimal
      literal to nearest-even, as CPython does, and [str(float)] is
      CPython's [repr]: the shortest decimal that [float] reads back.
    - A [dict] used as a map is a [gmap]; a [dict] whose order is
      iterated is an association list.
    - An exception is a value of [exn]; code that may raise returns a
      [result]. *)

From Stdlib Require Import ZArith Ascii String List Bool Lia.
From Corelib Require Import SpecFloat.
From stdpp Require Import base option list gmap strings.

Set Warnings "-register-all".

Local Open Scope string_scope.
Local Open Scope Z_scope.
Local Open Scope list_scope.

(** ** Exceptions and results *)

Inductive exn : Type :=
  | ValueError
  | IndexError
  | KeyError
  | TypeError
  | AttributeError
  | ExternalError (msg : string).

Inductive result (A : Type) : Type :=
  | Ok (a : A)
  | Raise (e : exn).

Arguments Ok {A} a.
Arguments Raise {A} e.

Definition bind {A B : Type} (r : result A) (k : A -> result B) : result B :=
  match r with
  | Ok a => k a
  | Raise e => Raise e
  end.

Notation "x <- r ;; k" := (bind r (fun x => k))
  (at level 100, r at next level, right associativity).

(** [try: r except ValueError, IndexError: h] *)
Definition catch_value_index {A : Type} (r : result A) (h : A) : result A :=
  match r with
  | Ok a => Ok a
  | Raise ValueError => Ok h
  | Raise IndexError => Ok h
  | Raise e => Raise e
  end.

(** [try: r except Exception: h] *)
Definition catch_exception {A : Type} (r h : result A) : result A :=
  match r with
  | Ok a => Ok a
  | Raise _ => h
  end.

(** ** Python strings *)

Module PyStr.

Definition code (c : ascii) : Z := Z.of_N (N_of_ascii c).

Definition is_digit (c : ascii) : bool := (48 <=? code c) && (code c <=? 57).
Definition is_upper (c : ascii) : bool := (65 <=? code c) && (code c <=? 90).
Definition is_lower (c : ascii) : bool := (97 <=? code c) && (code c <=? 122).
Definition is_cased (c : ascii) : bool := is_upper c || is_lower c.

(** White space as [float] strips it: blank, tab, line feed, vertical
    tab, form feed, carriage return. *)
Definition is_space (c : ascii) : bool :=
  (code c =? 32) || ((9 <=? code c) && (code c <=? 13)).

Definition lower_char (c : ascii) : ascii :=
  if is_upper c then ascii_of_N (N_of_ascii c + 32) else c.

Definition upper_char (c : ascii) : ascii :=
  if is_lower c then ascii_of_N (N_of_ascii c - 32) else c.

Fixpoint map_chars (f : ascii -> ascii) (s : string) : string :=
  match s with
  | EmptyString => EmptyString
  | String c r => String (f c) (map_chars f r)
  end.

(** [s.lower()] *)
Definition lower (s : string) : string := map_chars lower_char s.

(** [needle in hay] *)
Fixpoint contains (needle hay : string) : bool :=
  if String.prefix needle hay then true
  else match hay with
       | EmptyString => false
       | String _ r => contains needle r
       end.

(** [s.split(sep)] for a one-character separator: the pieces between
    the separators, always at least one piece. *)
Fixpoint split (sep : ascii) (s : string) : list string :=
  match s with
  | EmptyString => [EmptyString]
  | String c r =>
      if Ascii.eqb c sep then EmptyString :: split sep r
      else match split sep r with
           | h :: t => String c h :: t
           | [] => [String c EmptyString]
           end
  end.

(** [s.replace(c, by)] for a one-character pattern *)
Fixpoint replace (c : ascii) (by_ : string) (s : string) : string :=
  match s with
  | EmptyString => EmptyString
  | String d r =>
      if Ascii.eqb c d then by_ +:+ replace c by_ r
      else String d (replace c by_ r)
  end.

(** [l[i]] on a list *)
Definition index {A : Type} (l : list A) (i : nat) : result A :=
  match l !! i with
  | Some a => Ok a
  | None => Raise IndexError
  end.

Fixpoint lstrip (s : string) : string :=
  match s with
  | String c r => if is_space c then lstrip r else s
  | EmptyString => EmptyString
  end.

Fixpoint rstrip (s : string) : string :=
  match s with
  | String c r =>
      match rstrip r with
      | EmptyString => if is_space c then EmptyString else String c EmptyString
      | r' => String c r'
      end
  | EmptyString => EmptyString
  end.

(** [s.strip()] for the white space of [is_space] *)
Definition strip (s : string) : string := rstrip (lstrip s).

(** [s.title()]: a cased character that follows a cased character is
    lower-cased, any other cased character is upper-cased. *)
Fixpoint title_aux (prev_cased : bool) (s : string) : string :=
  match s with
  | EmptyString => EmptyString
  | String c r =>
      String (if prev_cased then lower_char c else upper_char c)
             (title_aux (is_cased c) r)
  end.

Definition title (s : string) : string := title_aux false s.

End PyStr.

(** ** Python floats: [float(str)] *)

Module PyFloat.

Import PyStr.

Definition float : Type := spec_float.

Definition prec : Z := 53.
Definition emax : Z := 1024.

Definition inf (neg : bool) : float := S754_infinity neg.

(** [spec_float] has one NaN: the sign and the payload of a NaN are
    not modelled (Python keeps the sign bit of [float("-nan")], and
    [str] drops it).  Equality of floats as Python's [==] is [SFeqb],
    under which a NaN is equal to no float, itself included. *)
Definition nan : float := S754_nan.

(** The binary64 value nearest to [m * 10 ^ e10] (ties to even), for
    a mantissa [m >= 0]; a value too large rounds to infinity. *)
Definition of_decimal (neg : bool) (m e10 : Z) : float :=
  match m with
  | Zpos p =>
      if 0 <=? e10 then
        binary_round prec emax neg (Pos.mul p (Z.to_pos (10 ^ e10))) 0
      else
        let '(q, e', l) :=
          SFdiv_core_binary prec emax (Zpos p) 0 (10 ^ (- e10)) 0 in
        binary_round_aux prec emax neg q e' l
  | _ => S754_zero neg
  end.

(** The float of an integer. *)
Definition of_Z (z : Z) : float :=
  of_decimal (z <? 0) (Z.abs z) 0.

(** Underscores may only stand between two digits; they are checked
    on the raw text and then dropped. *)
Fixpoint underscores_ok (prev : option ascii) (s : string) : bool :=
  match s with
  | EmptyString =>
      match prev with
      | Some c => negb (Ascii.eqb c "_")
      | None => true
      end
  | String c r =>
      let prev_digit := match prev with Some p => is_digit p | None => false end in
      let prev_under := match prev with Some p => Ascii.eqb p "_" | None => false end in
      if Ascii.eqb c "_" then prev_digit && underscores_ok (Some c) r
      else (negb prev_under || is_digit c) && underscores_ok (Some c) r
  end.

(** A run of decimal digits: its value on top of [acc], how many
    digits were read, and the rest of the text. *)
Fixpoint read_digits (acc : Z) (n : Z) (s : string) : Z * Z * string :=
  match s with
  | String c r =>
      if is_digit c then read_digits (10 * acc + (code c - 48)) (n + 1) r
      else (acc, n, s)
  | EmptyString => (acc, n, s)
  end.

Definition read_sign (s : string) : bool * string :=
  match s with
  | String "-" r => (true, r)
  | String "+" r => (false, r)
  | _ => (false, s)
  end.

(** The exponent part is taken only when at least one digit follows
    the letter and the optional sign; otherwise nothing is consumed. *)
Definition read_exponent (s : string) : Z * string :=
  match s with
  | String c r =>
      if Ascii.eqb (lower_char c) "e" then
        let '(neg, r1) := read_sign r in
        let '(v, n, r2) := read_digits 0 0 r1 in
        if n =? 0 then (0, s) else ((if neg then - v else v), r2)
      else (0, s)
  | EmptyString => (0, s)
  end.

(** [number [exponent]] with nothing left over. *)
Definition read_number (neg : bool) (s : string) : option float :=
  let '(ip, ni, r1) := read_digits 0 0 s in
  let '(m, nf, r2) :=
    match r1 with
    | String "." r => let '(v, n, r') := read_digits ip 0 r in (v, n, r')
    | _ => (ip, 0, r1)
    end in
  if (ni + nf =? 0) then None
  else
    let '(e, r3) := read_exponent r2 in
    match r3 with
    | EmptyString => Some (of_decimal neg m (e - nf))
    | _ => None
    end.

(** [inf], [infinity] and [nan], in any letter case. *)
Definition read_special (neg : bool) (s : string) : option float :=
  let l := lower s in
  if String.eqb l "inf" || String.eqb l "infinity" then Some (inf neg)
  else if String.eqb l "nan" then Some nan
  else None.

Definition parse (s : string) : option float :=
  let '(neg, r) := read_sign s in
  match read_number neg r with
  | Some f => Some f
  | None => read_special neg r
  end.

(** [float(s)] for a [str] argument *)
Definition float_of_str (s : string) : result float :=
  if negb (underscores_ok None s) then Raise ValueError
  else
    match parse (strip (replace "_" "" s)) with
    | Some f => Ok f
    | None => Raise ValueError
    end.

End PyFloat.

(** ** Python floats: [str(float)] *)

Module PyRepr.

Import PyStr PyFloat.

Definition digit_char (d : Z) : ascii := ascii_of_N (Z.to_N (48 + d)).

(** The decimal digits of [z >= 0], most significant first, in front
    of [acc]. *)
Fixpoint decimal_fuel (fuel : nat) (z : Z) (acc : string) : string :=
  match fuel with
  | O => acc
  | S f =>
      let acc' := String (digit_char (z mod 10)) acc in
      if z <? 10 then acc' else decimal_fuel f (z / 10) acc'
  end.

Definition decimal (z : Z) : string :=
  decimal_fuel (S (Z.to_nat (Z.log2 z))) z "".

Fixpoint zeros (n : nat) : string :=
  match n with
  | O => ""
  | S k => String "0" (zeros k)
  end.

(** Equality of floats as values (bit for bit, not [==]). *)
Definition same_float (x y : float) : bool :=
  match x, y with
  | S754_zero s, S754_zero s' => Bool.eqb s s'
  | S754_infinity s, S754_infinity s' => Bool.eqb s s'
  | S754_nan, S754_nan => true
  | S754_finite s m e, S754_finite s' m' e' =>
      Bool.eqb s s' && Pos.eqb m m' && Z.eqb e e'
  | _, _ => false
  end.

Definition reads_back (x : float) (s : string) : bool :=
  match float_of_str s with
  | Ok y => same_float x y
  | Raise _ => false
  end.

(** [x < 10 ^ p] for [x = num / den]. *)
Definition below_pow10 (num den p : Z) : bool :=
  if 0 <=? p then num <? 10 ^ p * den else num * 10 ^ (- p) <? den.

(** The position of the decimal point: the least [p] from [start] on
    with [x < 10 ^ p]. *)
Fixpoint find_decpt (fuel : nat) (num den p : Z) : Z :=
  match fuel with
  | O => p
  | S f => if below_pow10 num den p then p else find_decpt f num den (p + 1)
  end.

(** The two decimals of [n] digits around [x], the nearer first (the
    even one on a tie), each as digits and exponent of ten. *)
Definition neighbours (num den decpt n : Z) : list (Z * Z) :=
  let k := decpt - n in
  let '(a, b) := if 0 <=? k then (num, den * 10 ^ k) else (num * 10 ^ (- k), den) in
  let lo := a / b in
  let r := a mod b in
  let hi := lo + 1 in
  if 2 * r <? b then [(lo, k); (hi, k)]
  else if b <? 2 * r then [(hi, k); (lo, k)]
  else if Z.even lo then [(lo, k); (hi, k)] else [(hi, k); (lo, k)].

(** Trailing zeros go from the digits to the exponent. *)
Fixpoint strip_zeros (fuel : nat) (d k : Z) : Z * Z :=
  match fuel with
  | O => (d, k)
  | S f => if (d mod 10 =? 0) && (0 <? d) then strip_zeros f (d / 10) (k + 1) else (d, k)
  end.

(** The text of [repr] for the digits [ds] with the decimal point
    [decpt] places after their start: positional when
    [-4 < decpt <= 16], else with an exponent of at least two digits. *)
Definition format_short (ds : string) (decpt : Z) : string :=
  let n := Z.of_nat (String.length ds) in
  if (-4 <? decpt) && (decpt <=? 16) then
    if decpt <=? 0 then "0." +:+ zeros (Z.to_nat (- decpt)) +:+ ds
    else if n <=? decpt then ds +:+ zeros (Z.to_nat (decpt - n)) +:+ ".0"
    else String.substring 0 (Z.to_nat decpt) ds +:+ "." +:+
         String.substring (Z.to_nat decpt) (Z.to_nat (n - decpt)) ds
  else
    let exp := decpt - 1 in
    let mant :=
      match ds with
      | String c EmptyString => ds
      | String c r => String c ("." +:+ r)
      | EmptyString => ds
      end in
    mant +:+ "e" +:+ (if exp <? 0 then "-" else "+") +:+
    (if Z.abs exp <? 10 then "0" else "") +:+ decimal (Z.abs exp).

Definition format_candidate (c : Z * Z) : string :=
  let '(d, k) := strip_zeros 20 (fst c) (snd c) in
  let ds := decimal d in
  format_short ds (k + Z.of_nat (String.length ds)).

(** The candidates of 1, 2, ... up to [n] digits. *)
Fixpoint candidates (fuel : nat) (num den decpt n : Z) : list string :=
  match fuel with
  | O => []
  | S f => map format_candidate (neighbours num den decpt n) ++
           candidates f num den decpt (n + 1)
  end.

(** The exact decimal value of [m * 2 ^ e], as digits and an exponent
    of ten. *)
Definition exact_text (m : positive) (e : Z) : string :=
  if 0 <=? e then decimal (Zpos m * 2 ^ e) +:+ "e0"
  else decimal (Zpos m * 5 ^ (- e)) +:+ "e-" +:+ decimal (- e).

(** The text of [repr] for a finite float: the shortest decimal, of
    at most 17 digits and nearest to the value, that [float] reads back
    as the value; 17 digits always do, and the exact decimal stands
    behind them. *)
Definition shortest_text (neg : bool) (m : positive) (e : Z) : string :=
  let x := S754_finite neg m e in
  let sign := if neg then "-" else "" in
  let num := if 0 <=? e then Zpos m * 2 ^ e else Zpos m in
  let den := if 0 <=? e then 1 else 2 ^ (- e) in
  let decpt := find_decpt 640 num den (-323) in
  match find (reads_back x)
             (map (String.append sign) (candidates 17 num den decpt 1)) with
  | Some s => s
  | None => sign +:+ exact_text m e
  end.

(** [repr(x)], which is [str(x)], of a float *)
Definition float_repr (x : float) : string :=
  match x with
  | S754_nan => "nan"
  | S754_infinity s => if s then "-inf" else "inf"
  | S754_zero s => if s then "-0.0" else "0.0"
  | S754_finite s m e => shortest_text s m e
  end.

(** The characters of the text of a finite float. *)
Definition plain_char (c : ascii) : bool :=
  is_digit c || Ascii.eqb c "." || Ascii.eqb c "e" || Ascii.eqb c "+" || Ascii.eqb c "-".

Fixpoint plain (s : string) : bool :=
  match s with
  | EmptyString => true
  | String c r => plain_char c && plain r
  end.

(** The exponent of the last place of a binary64 value of [z] digits
    in all. *)
Definition fexp64 (z : Z) : Z := fexp prec emax z.

End PyRepr.

(** ** [src/data/utils.py] *)

Module DataUtils.

Import PyStr PyFloat.

(** A table row is a sequence of cells, a table a sequence of rows;
    one loaded record binds a key to a sequence of tables. *)
Abbreviation row := (list string).
Abbreviation table := (list (list string)).
Abbreviation record := (gmap string (list (list (list string)))).

(** The metrics dictionary: canonical key to optional float. *)
Abbreviation MetricsMap := (gmap string (option float)).

(** The body of the [try] block of [safe_float]. *)
Definition safe_float_try (value : string) : result float :=
  if contains "&" value then
    seg <- index (split "&" value) 1 ;;
    float_of_str (replace "," "" seg)
  else
    float_of_str (replace "," "" value).

Definition safe_float (value : string) : result (option float) :=
  catch_value_index (f <- safe_float_try value ;; Ok (Some f)) None.

(** [d[k]] and [k in d] on a dictionary *)
Definition getitem {V : Type} (d : gmap string V) (k : string) : result V :=
  match d !! k with
  | Some v => Ok v
  | None => Raise KeyError
  end.

Definition has_key {V : Type} (d : gmap string V) (k : string) : bool :=
  match d !! k with
  | Some _ => true
  | None => false
  end.

(** [for x in l: body] over a state *)
Fixpoint for_each {A S : Type} (body : A -> S -> result S)
    (l : list A) (s : S) : result S :=
  match l with
  | [] => Ok s
  | x :: r => s' <- body x s ;; for_each body r s'
  end.

(** [needle in item[0].lower()] *)
Definition label_has (needle : string) (item : row) : result bool :=
  l <- index item 0 ;; Ok (contains needle (lower l)).

(** [metrics[key] = safe_float(item[2])] *)
Definition store (key : string) (item : row) (metrics : MetricsMap)
    : result MetricsMap :=
  v <- index item 2 ;;
  x <- safe_float v ;;
  Ok (<[key := x]> metrics).

Notation "'IF' c 'THEN' a 'ELSE' b" :=
  (bind c (fun t : bool => if t then a else b))
  (at level 10, c at level 10, a at level 10, b at level 200,
   format "'[v' 'IF'  c  'THEN' '/  ' a '/' 'ELSE'  b ']'").

Definition liquidity_row (item : row) (metrics : MetricsMap) : result MetricsMap :=
  IF label_has "total identifiable intangible assets" item
  THEN store "total_identifiable_intangible_assets" item metrics
  ELSE IF label_has "trade names" item
  THEN store "trade_names" item metrics
  ELSE IF label_has "developed technology" item
  THEN store "developed_technology" item metrics
  ELSE IF label_has "customer relationships" item
  THEN store "customer_relationships" item metrics
  ELSE Ok metrics.

Definition balance_sheet_row (item : row) (metrics : MetricsMap) : result MetricsMap :=
  IF label_has "total current assets" item
  THEN store "current_assets" item metrics
  ELSE IF label_has "total assets" item
  THEN store "total_assets" item metrics
  ELSE IF label_has "total current liabilities" item
  THEN store "current_liabilities" item metrics
  ELSE IF label_has "total liabilities" item
  THEN store "total_liabilities" item metrics
  ELSE IF label_has "total stockholders equity" item
  THEN store "total_stockholders_equity" item metrics
  ELSE IF label_has "cash and cash equivalents" item
  THEN store "cash_and_cash_equivalents" item metrics
  ELSE IF label_has "inventories" item
  THEN store "inventory" item metrics
  ELSE IF label_has "accounts receivable" item
  THEN store "accounts_receivable" item metrics
  ELSE IF label_has "accounts payable" item
  THEN store "accounts_payable" item metrics
  ELSE IF label_has "goodwill" item
  THEN store "goodwill" item metrics
  ELSE IF label_has "intangible assets net" item
  THEN store "intangible_assets" item metrics
  ELSE IF label_has "long-term debt net of current portion" item
  THEN store "long_term_debt" item metrics
  ELSE Ok metrics.

Definition income_statement_row (item : row) (metrics : MetricsMap) : result MetricsMap :=
  IF label_has "sales" item
  THEN store "sales" item metrics
  ELSE IF label_has "net earnings" item
  THEN store "net_earnings" item metrics
  ELSE IF label_has "basic net earnings per common share" item
  THEN store "basic_eps" item metrics
  ELSE IF label_has "diluted net earnings per common share" item
  THEN store "diluted_eps" item metrics
  ELSE IF label_has "operating earnings" item
  THEN store "operating_earnings" item metrics
  ELSE IF label_has "gross profit" item
  THEN store "gross_profit" item metrics
  ELSE IF label_has "depreciation depletion and amortization" item
  THEN store "depreciation_and_amortization" item metrics
  ELSE Ok metrics.

Definition cash_flow_row (item : row) (metrics : MetricsMap) : result MetricsMap :=
  IF label_has "net cash provided by operating activities" item
  THEN store "net_cash_operating_activities" item metrics
  ELSE IF label_has "net cash used in investing activities" item
  THEN store "net_cash_investing_activities" item metrics
  ELSE IF label_has "net cash provided by financing activities" item
  THEN store "net_cash_financing_activities" item metrics
  ELSE Ok metrics.

(** One guarded block of [extract_important_metrics]:
    [if key in data[0]: for item in data[0][key][i]: ...] *)
Definition guarded_table (data : list record) (key : string) (i : nat)
    (body : row -> MetricsMap -> result MetricsMap) (metrics : MetricsMap)
    : result MetricsMap :=
  d <- index data 0 ;;
  if has_key d key then
    d' <- index data 0 ;;
    tables <- getitem d' key ;;
    rows <- index tables i ;;
    for_each body rows metrics
  else Ok metrics.

Definition extract_important_metrics (data : list record) : result MetricsMap :=
  let metrics : MetricsMap := ∅ in
  metrics <- guarded_table data "mda_liquidity_tables" 0 liquidity_row metrics ;;
  metrics <- guarded_table data "after_mda_tables" 0 balance_sheet_row metrics ;;
  metrics <- guarded_table data "after_mda_tables" 1 income_statement_row metrics ;;
  metrics <- guarded_table data "after_mda_tables" 2 cash_flow_row metrics ;;
  Ok metrics.

End DataUtils.


(** ** Regular expressions, as far as [fallback_extraction] uses them *)

Module Re.

Import PyStr.

(** A set of characters. *)
Inductive cset : Type :=
  | CLit (c : ascii)          (* a literal, compared without case *)
  | CDigit                    (* \d *)
  | CSpace                    (* \s *)
  | CDot                      (* . : anything but a line feed *)
  | COneOf (l : list cset).   (* [...] *)

Inductive quant : Type :=
  | One                       (* x   *)
  | Opt                       (* x?  *)
  | Plus                      (* x+  *)
  | Star                      (* x*  *)
  | StarLazy.                 (* x*? *)

(** A pattern is a sequence of quantified character sets with the
    two ends of its one capture group. *)
Inductive node : Type :=
  | Atom (cs : cset) (q : quant)
  | GroupOpen
  | GroupClose.

Definition regex : Type := list node.

(** White space for [\s] on text: the six of [is_space] and the four
    separators 28 to 31. *)
Definition is_space_re (c : ascii) : bool :=
  is_space c || ((28 <=? code c) && (code c <=? 31)).

Fixpoint mem (cs : cset) (c : ascii) : bool :=
  match cs with
  | CLit d => Ascii.eqb (lower_char c) (lower_char d)
  | CDigit => is_digit c
  | CSpace => is_space_re c
  | CDot => negb (code c =? 10)
  | COneOf l => existsb (fun x => mem x c) l
  end.

(** The text still to read where the group opened and where it
    closed. *)
Definition marks : Type := (string * string)%type.

(** Backtracking match of [nodes] at the head of the text: the
    greedy quantifiers try the longest run first, the lazy one the
    shortest. *)
Fixpoint run (nodes : regex) : string -> marks -> option marks :=
  match nodes with
  | [] => fun _ mk => Some mk
  | GroupOpen :: r => fun s mk => run r s (s, snd mk)
  | GroupClose :: r => fun s mk => run r s (fst mk, s)
  | Atom cs One :: r => fun s mk =>
      match s with
      | String c t => if mem cs c then run r t mk else None
      | EmptyString => None
      end
  | Atom cs Opt :: r => fun s mk =>
      let skip := run r s mk in
      match s with
      | String c t =>
          if mem cs c then
            match run r t mk with
            | Some m => Some m
            | None => skip
            end
          else skip
      | EmptyString => skip
      end
  | Atom cs Star :: r =>
      fix star (s : string) (mk : marks) : option marks :=
        match s with
        | String c t =>
            if mem cs c then
              match star t mk with
              | Some m => Some m
              | None => run r s mk
              end
            else run r s mk
        | EmptyString => run r s mk
        end
  | Atom cs Plus :: r =>
      let star :=
        fix star (s : string) (mk : marks) : option marks :=
          match s with
          | String c t =>
              if mem cs c then
                match star t mk with
                | Some m => Some m
                | None => run r s mk
                end
              else run r s mk
          | EmptyString => run r s mk
          end in
      fun s mk =>
        match s with
        | String c t => if mem cs c then star t mk else None
        | EmptyString => None
        end
  | Atom cs StarLazy :: r =>
      fix lazy (s : string) (mk : marks) : option marks :=
        match run r s mk with
        | Some m => Some m
        | None =>
            match s with
            | String c t => if mem cs c then lazy t mk else None
            | EmptyString => None
            end
        end
  end.

(** The text between the two marks. *)
Definition group_text (mk : marks) : string :=
  String.substring 0 (String.length (fst mk) - String.length (snd mk)) (fst mk).

(** [re.search(pattern, text, re.IGNORECASE)] and [.group(1)] of the
    match: the leftmost start at which the pattern matches. *)
Fixpoint search (p : regex) (s : string) : option string :=
  match run p s (s, s) with
  | Some mk => Some (group_text mk)
  | None =>
      match s with
      | String _ t => search p t
      | EmptyString => None
      end
  end.

Fixpoint lits (s : string) : regex :=
  match s with
  | EmptyString => []
  | String c r => Atom (CLit c) One :: lits r
  end.

End Re.

(** ** Python values *)

Inductive pyval : Type :=
  | PNone
  | PBool (b : bool)
  | PInt (z : Z)
  | PFloat (f : PyFloat.float)
  | PStr (s : string)
  | PList (l : list pyval)
  | PDict (d : list (string * pyval)).

(** A dictionary with string keys, in insertion order. *)
Definition dict : Type := list (string * pyval).

Module PyDict.

Fixpoint lookup (d : dict) (k : string) : option pyval :=
  match d with
  | [] => None
  | (k', v) :: r => if String.eqb k k' then Some v else lookup r k
  end.

(** [d.get(k, default)] *)
Definition get (d : dict) (k : string) (default : pyval) : pyval :=
  match lookup d k with
  | Some v => v
  | None => default
  end.

(** [d[k] = v]: an old key keeps its place, a new one goes last. *)
Fixpoint set (d : dict) (k : string) (v : pyval) : dict :=
  match d with
  | [] => [(k, v)]
  | (k', v') :: r =>
      if String.eqb k k' then (k', v) :: r else (k', v') :: set r k v
  end.

Definition keys (d : dict) : list string := map fst d.

(** [x[k]] on any value *)
Definition getitem (x : pyval) (k : string) : result pyval :=
  match x with
  | PDict d =>
      match lookup d k with
      | Some v => Ok v
      | None => Raise KeyError
      end
  | _ => Raise TypeError
  end.

(** [x[k] = v] on any value *)
Definition setitem (x : pyval) (k : string) (v : pyval) : result pyval :=
  match x with
  | PDict d => Ok (PDict (set d k v))
  | _ => Raise TypeError
  end.

(** [x.items()] on any value *)
Definition items (x : pyval) : result (list (string * pyval)) :=
  match x with
  | PDict d => Ok d
  | _ => Raise AttributeError
  end.

End PyDict.

(** Truth value of a Python value, as [if x:] tests it. *)
Definition truthy (x : pyval) : bool :=
  match x with
  | PNone => false
  | PBool b => b
  | PInt z => negb (z =? 0)
  | PFloat (S754_zero _) => false
  | PFloat _ => true
  | PStr s => negb (String.eqb s "")
  | PList l => match l with [] => false | _ => true end
  | PDict d => match d with [] => false | _ => true end
  end.

Definition is_dict (x : pyval) : bool :=
  match x with PDict _ => true | _ => false end.

Definition is_str (x : pyval) : bool :=
  match x with PStr _ => true | _ => false end.

(** ** [src/utils.py] *)

Module Utils.

Import PyStr DataUtils.

Definition KEY_SHORT : string := "1. Task outcome (short version)".
Definition KEY_DETAILED : string := "2. Task outcome (extremely detailed version)".
Definition KEY_ADDITIONAL : string := "3. Additional context (if relevant)".

(** The [patterns] dictionary of [fallback_extraction], in its
    insertion order. *)
Definition number_dots : Re.cset := Re.COneOf [Re.CDigit; Re.CLit "."].

Definition patterns : list (string * Re.regex) :=
  [ ("Revenue",
      [Re.Atom (Re.CLit "$") Re.Opt; Re.GroupOpen;
       Re.Atom (Re.COneOf [Re.CDigit; Re.CLit ","; Re.CLit "."]) Re.Plus;
       Re.GroupClose; Re.Atom Re.CSpace Re.Star] ++ Re.lits "million");
    ("Gross Profit Margin",
      Re.lits "Gross Profit Margin" ++
      [Re.Atom Re.CDot Re.StarLazy; Re.GroupOpen;
       Re.Atom number_dots Re.Plus; Re.GroupClose; Re.Atom (Re.CLit "%") Re.One]);
    ("Net Profit Margin",
      Re.lits "Net Profit Margin" ++
      [Re.Atom Re.CDot Re.StarLazy; Re.GroupOpen;
       Re.Atom number_dots Re.Plus; Re.GroupClose; Re.Atom (Re.CLit "%") Re.One]);
    ("Debt To Equity Ratio",
      Re.lits "Debt to Equity Ratio" ++
      [Re.Atom Re.CDot Re.StarLazy; Re.GroupOpen;
       Re.Atom number_dots Re.Plus; Re.GroupClose]);
    ("Total Debt Ratio",
      Re.lits "Total Debt Ratio" ++
      [Re.Atom Re.CDot Re.StarLazy; Re.GroupOpen;
       Re.Atom number_dots Re.Plus; Re.GroupClose]) ].

(** [re.search(pattern, text, re.IGNORECASE)]: the text of group 1 of
    the match, if any; a [TypeError] when [text] is not a string. *)
Definition re_search (p : Re.regex) (text : pyval) : result (option string) :=
  match text with
  | PStr s => Ok (Re.search p s)
  | _ => Raise TypeError
  end.

(** [extracted_data["metrics"][metric] = v] *)
Definition set_metric (extracted_data : dict) (metric : string) (v : string)
    : result dict :=
  m <- PyDict.getitem (PDict extracted_data) "metrics" ;;
  m' <- PyDict.setitem m metric (PStr v) ;;
  Ok (PyDict.set extracted_data "metrics" m').

(** The body of the loop over [patterns.items()]. *)
Definition apply_pattern (financial_text : pyval) (mp : string * Re.regex)
    (extracted_data : dict) : result dict :=
  let '(metric, pattern) := mp in
  found <- re_search pattern financial_text ;;
  match found with
  | Some value =>
      if String.eqb metric "Revenue" then
        set_metric extracted_data metric ("$" +:+ value +:+ " million")
      else if contains "Margin" metric then
        set_metric extracted_data metric (value +:+ "%")
      else
        set_metric extracted_data metric value
  | None => Ok extracted_data
  end.

Definition fallback_extraction (response : dict) : result pyval :=
  let extracted_data : dict :=
    [ ("metrics", PDict []);
      ("context", PDict []);
      ("competitor", PStr "");
      ("contradictions", PStr "");
      ("additional_context", PStr "") ] in
  let detailed_outcome := PyDict.get response KEY_DETAILED (PDict []) in
  extracted_data <-
    match detailed_outcome with
    | PDict outcome =>
        let extracted_data := PyDict.set extracted_data "context" detailed_outcome in
        let financial_text := PyDict.get outcome "Financial Metrics" (PStr "") in
        extracted_data <-
          (if truthy financial_text then
             for_each (apply_pattern financial_text) patterns extracted_data
           else Ok extracted_data) ;;
        let extracted_data :=
          PyDict.set extracted_data "competitor"
            (PyDict.get outcome "Competitor Analysis" (PStr "")) in
        let extracted_data :=
          PyDict.set extracted_data "contradictions"
            (PyDict.get outcome "Contradictory Analysis" (PStr "")) in
        Ok extracted_data
    | _ => Ok extracted_data
    end ;;
  let extracted_data :=
    PyDict.set extracted_data "additional_context"
      (PyDict.get response KEY_ADDITIONAL (PStr "")) in
  Ok (PDict extracted_data).

(** [sep.join(parts)] *)
Fixpoint join (sep : string) (parts : list string) : string :=
  match parts with
  | [] => ""
  | [p] => p
  | p :: r => p +:+ sep +:+ join sep r
  end.

(** The dictionary comprehension of [extract_metrics]: every pair
    whose value is not [None], under the title-cased key. *)
Fixpoint format_metrics (items : list (string * pyval)) (acc : dict) : dict :=
  match items with
  | [] => acc
  | (k, v) :: r =>
      match v with
      | PNone => format_metrics r acc
      | _ => format_metrics r (PyDict.set acc (title (replace "_" " " k)) v)
      end
  end.

(** [formatted_result] from the decoded reply. *)
Definition format_result (extracted_data : pyval) : result pyval :=
  m <- PyDict.getitem extracted_data "metrics" ;;
  its <- PyDict.items m ;;
  match extracted_data with
  | PDict d =>
      Ok (PDict
            [ ("metrics", PDict (format_metrics its []));
              ("context", PyDict.get d "context" (PDict []));
              ("competitor", PyDict.get d "competitor" (PStr ""));
              ("contradictions", PyDict.get d "contradictions" (PStr ""));
              ("additional_context", PyDict.get d "additional_context" (PStr "")) ])
  | _ => Raise AttributeError
  end.

Section External.

(** What the module takes from outside the repository's sources:
    Python's [str()] on a value, the two prompt constants of
    [config/prompts.py] (the user prompt through its [format]), the
    [completion] call of the model client, giving the reply's
    [choices[0].message.content], and [json.loads]. *)
Variable py_str : pyval -> string.
Variable EXTRACTION_SYSTEM_PROMPT : string.
Variable format_user_prompt : string -> result string.
Variable completion : string -> list (string * string) -> result pyval.
Variable json_loads : string -> result pyval.

Definition prepare_input_text (response : dict) : string :=
  let text_parts : list string := [] in
  let short_version := PyDict.get response KEY_SHORT (PStr "") in
  let text_parts :=
    if truthy short_version
    then text_parts ++ ["SUMMARY: " +:+ py_str short_version]
    else text_parts in
  let detailed_outcome := PyDict.get response KEY_DETAILED (PDict []) in
  let text_parts :=
    if truthy detailed_outcome then
      let text_parts := text_parts ++ ["DETAILED ANALYSIS:"] in
      match detailed_outcome with
      | PDict outcome =>
          fold_left
            (fun parts kv => parts ++ [fst kv +:+ ": " +:+ py_str (snd kv)])
            outcome text_parts
      | _ => text_parts ++ [py_str detailed_outcome]
      end
    else text_parts in
  let additional_context := PyDict.get response KEY_ADDITIONAL (PStr "") in
  let text_parts :=
    if truthy additional_context
    then text_parts ++ ["ADDITIONAL CONTEXT: " +:+ py_str additional_context]
    else text_parts in
  join (String "010" (String "010" "")) text_parts.

(** The call of the model: the first statement of the [try] block. *)
Definition call_model (model : string) (input_text : string) : result pyval :=
  user <- format_user_prompt input_text ;;
  completion model [("system", EXTRACTION_SYSTEM_PROMPT); ("user", user)].

(** [json.loads(content)] *)
Definition decode (content : pyval) : result pyval :=
  match content with
  | PStr s => json_loads s
  | _ => Raise TypeError
  end.

(** The [try] block of [extract_metrics]. *)
Definition structured_extraction (model : string) (input_text : string)
    : result pyval :=
  content <- call_model model input_text ;;
  extracted_data <- decode content ;;
  format_result extracted_data.

(** [extract_metrics]; the [print] of the handler writes to the
    standard output only and is left out. *)
Definition extract_metrics (response : dict) (model : string) : result pyval :=
  let input_text := prepare_input_text response in
  catch_exception
    (structured_extraction model input_text)
    (fallback_extraction response).

End External.

End Utils.


(** ** The specification's vocabulary

    The definitions of this module follow the words of the
    specification; the theorems below compare them with the code. *)

Module Spec.

Import PyStr PyFloat DataUtils.

Definition to_option {A : Type} (r : result A) : option A :=
  match r with
  | Ok a => Some a
  | Raise _ => None
  end.

(** The text before the first [sep] (all of it when there is none). *)
Fixpoint until (sep : ascii) (s : string) : string :=
  match s with
  | EmptyString => EmptyString
  | String c r => if Ascii.eqb c sep then EmptyString else String c (until sep r)
  end.

(** "Split on the first ampersand; take the segment after it": all
    the text after the first [sep]. *)
Fixpoint after_first (sep : ascii) (s : string) : option string :=
  match s with
  | EmptyString => None
  | String c r => if Ascii.eqb c sep then Some r else after_first sep r
  end.

(** The numeric candidate as the code takes it: between the first
    ampersand and the next one (or the end); without an ampersand,
    the whole text. *)
Definition numeric_candidate (value : string) : string :=
  match after_first "&" value with
  | Some rest => until "&" rest
  | None => value
  end.

(** Commas stripped, then converted; "missing" on failure. *)
Definition normalize (candidate : string) : option float :=
  to_option (float_of_str (replace "," "" candidate)).

(** The ordered (substring, canonical key) rules of the four tables. *)
Definition liquidity_rules : list (string * string) :=
  [ ("total identifiable intangible assets", "total_identifiable_intangible_assets");
    ("trade names", "trade_names");
    ("developed technology", "developed_technology");
    ("customer relationships", "customer_relationships") ].

Definition balance_sheet_rules : list (string * string) :=
  [ ("total current assets", "current_assets");
    ("total assets", "total_assets");
    ("total current liabilities", "current_liabilities");
    ("total liabilities", "total_liabilities");
    ("total stockholders equity", "total_stockholders_equity");
    ("cash and cash equivalents", "cash_and_cash_equivalents");
    ("inventories", "inventory");
    ("accounts receivable", "accounts_receivable");
    ("accounts payable", "accounts_payable");
    ("goodwill", "goodwill");
    ("intangible assets net", "intangible_assets");
    ("long-term debt net of current portion", "long_term_debt") ].

Definition income_statement_rules : list (string * string) :=
  [ ("sales", "sales");
    ("net earnings", "net_earnings");
    ("basic net earnings per common share", "basic_eps");
    ("diluted net earnings per common share", "diluted_eps");
    ("operating earnings", "operating_earnings");
    ("gross profit", "gross_profit");
    ("depreciation depletion and amortization", "depreciation_and_amortization") ].

Definition cash_flow_rules : list (string * string) :=
  [ ("net cash provided by operating activities", "net_cash_operating_activities");
    ("net cash used in investing activities", "net_cash_investing_activities");
    ("net cash provided by financing activities", "net_cash_financing_activities") ].

(** The canonical key of the first rule, in declaration order, whose
    substring occurs in the lower-cased label. *)
Fixpoint first_match (rules : list (string * string)) (label : string)
    : option string :=
  match rules with
  | [] => None
  | (sub, key) :: r =>
      if contains sub (lower label) then Some key else first_match r label
  end.

(** One row under a rule list: the value cell, normalized, goes
    under the key of the first matching rule; a row matching no rule
    changes nothing. *)
Definition row_by_rules (rules : list (string * string)) (item : row)
    (metrics : gmap string (option float)) : result (gmap string (option float)) :=
  match item with
  | [] => Raise IndexError
  | label :: _ =>
      match first_match rules label with
      | None => Ok metrics
      | Some key =>
          match item !! 2%nat with
          | Some value =>
              Ok (<[key := normalize (numeric_candidate value)]> metrics)
          | None => Raise IndexError
          end
      end
  end.

(** The key a row is stored under, if any. *)
Definition row_key (rules : list (string * string)) (item : row) : option string :=
  match item with
  | [] => None
  | label :: _ => first_match rules label
  end.

(** What a row stores: the normalized value cell. *)
Definition row_value (item : row) : option float :=
  match item !! 2%nat with
  | Some value => normalize (numeric_candidate value)
  | None => None
  end.

(** The value of the last row of the table stored under [k]. *)
Fixpoint last_value (rules : list (string * string)) (rows : table) (k : string)
    : option (option float) :=
  match rows with
  | [] => None
  | r :: rest =>
      match last_value rules rest k with
      | Some v => Some v
      | None =>
          if bool_decide (row_key rules r = Some k) then Some (row_value r)
          else None
      end
  end.

(** The four logical tables and where a record keeps them. *)
Inductive table_id : Type :=
  | Liquidity
  | BalanceSheet
  | IncomeStatement
  | CashFlow.

#[global] Instance table_id_eq_dec : EqDecision table_id.
Proof. solve_decision. Defined.

Definition rules_of (t : table_id) : list (string * string) :=
  match t with
  | Liquidity => liquidity_rules
  | BalanceSheet => balance_sheet_rules
  | IncomeStatement => income_statement_rules
  | CashFlow => cash_flow_rules
  end.

Definition source_key (t : table_id) : string :=
  match t with
  | Liquidity => "mda_liquidity_tables"
  | _ => "after_mda_tables"
  end.

Definition position (t : table_id) : nat :=
  match t with
  | Liquidity => 0
  | BalanceSheet => 0
  | IncomeStatement => 1
  | CashFlow => 2
  end.

Definition table_at (d : record) (t : table_id) : option table :=
  match d !! source_key t with
  | Some tables => tables !! position t
  | None => None
  end.

(** The scan of one logical table: skipped when its key is absent. *)
Definition scan (t : table_id) (d : record) (metrics : gmap string (option float))
    : result (gmap string (option float)) :=
  match d !! source_key t with
  | None => Ok metrics
  | Some tables =>
      match tables !! position t with
      | Some rows => for_each (row_by_rules (rules_of t)) rows metrics
      | None => Raise IndexError
      end
  end.

(** The value the table [t] of the record leaves under [k]. *)
Definition table_value (t : table_id) (d : record) (k : string)
    : option (option float) :=
  match table_at d t with
  | Some rows => last_value (rules_of t) rows k
  | None => None
  end.

Definition keys_of (t : table_id) : list string := map snd (rules_of t).

(** The code that handles one row of the table [t]. *)
Definition row_function (t : table_id)
    : list string -> gmap string (option float) -> result (gmap string (option float)) :=
  match t with
  | Liquidity => liquidity_row
  | BalanceSheet => balance_sheet_row
  | IncomeStatement => income_statement_row
  | CashFlow => cash_flow_row
  end.

(** A row with a label cell and a value cell. *)
Definition well_formed_row (item : row) : bool :=
  bool_decide (3 <= length item)%nat.

(** Every key that is present holds the tables read from it, with
    well-formed rows. *)
Definition tables_present (d : record) (t : table_id) : bool :=
  match d !! source_key t with
  | None => true
  | Some tables =>
      match tables !! position t with
      | Some rows => forallb well_formed_row rows
      | None => false
      end
  end.

Definition well_formed_record (d : record) : bool :=
  tables_present d Liquidity && tables_present d BalanceSheet &&
  tables_present d IncomeStatement && tables_present d CashFlow.

(** The five keys of an extraction result, in order. *)
Definition RESULT_KEYS : list string :=
  ["metrics"; "context"; "competitor"; "contradictions"; "additional_context"].

(** A mapping with exactly the five keys. *)
Definition has_result_keys (x : pyval) : bool :=
  match x with
  | PDict d => bool_decide (PyDict.keys d = RESULT_KEYS)
  | _ => false
  end.

(** The value of a field of a result. *)
Definition field (x : pyval) (k : string) : pyval :=
  match x with
  | PDict d => PyDict.get d k PNone
  | _ => PNone
  end.

(** A mapping all of whose values are strings. *)
Definition str_values (x : pyval) : bool :=
  match x with
  | PDict d => forallb (fun kv => is_str (snd kv)) d
  | _ => false
  end.

(** The shape the two paths are said to share: the five keys, two
    mappings and three strings. *)
Definition claimed_shape (x : pyval) : bool :=
  has_result_keys x &&
  is_dict (field x "metrics") && is_dict (field x "context") &&
  is_str (field x "competitor") && is_str (field x "contradictions") &&
  is_str (field x "additional_context").

(** The detailed-outcome section of a record, when it is a mapping. *)
Definition outcome_of (response : dict) : option dict :=
  match PyDict.get response Utils.KEY_DETAILED (PDict []) with
  | PDict outcome => Some outcome
  | _ => None
  end.

(** A subsection of the detailed outcome. *)
Definition outcome_field (response : dict) (k : string) : option pyval :=
  match outcome_of response with
  | Some outcome => PyDict.lookup outcome k
  | None => None
  end.

(** What the fallback passes through for a subsection: its value, or
    the empty string when it is absent. *)
Definition outcome_text (response : dict) (k : string) : pyval :=
  match outcome_field response k with
  | Some v => v
  | None => PStr ""
  end.

(** The context of the fallback: the detailed outcome when it is a
    mapping, else the empty mapping. *)
Definition outcome_context (response : dict) : pyval :=
  match outcome_of response with
  | Some outcome => PDict outcome
  | None => PDict []
  end.

(** A field of the decoded reply, or a default. *)
Definition reply_field (reply : pyval) (k : string) (default : pyval) : pyval :=
  match reply with
  | PDict d => PyDict.get d k default
  | _ => default
  end.

(** The "Financial Metrics" subsection is text, or empty, or absent. *)
Definition financial_text_usable (response : dict) : bool :=
  match outcome_field response "Financial Metrics" with
  | Some v => is_str v || negb (truthy v)
  | None => true
  end.

End Spec.

(** ** [src/data/utils.py], continued *)

Module MetricsExport.

Import PyStr PyFloat DataUtils.

(** [[f(x) for x in l]]: the first exception ends the comprehension. *)
Fixpoint comprehension {A B : Type} (f : A -> result B) (l : list A) : result (list B) :=
  match l with
  | [] => Ok []
  | x :: r => y <- f x ;; ys <- comprehension f r ;; Ok (y :: ys)
  end.

(** The first statement of [save_metrics_to_csv]:
    [metrics_list = [extract_important_metrics([data]) for data in text_data]];
    the data frame built from it and the file written are left to
    pandas. *)
Definition metrics_list (text_data : list record) : result (list MetricsMap) :=
  comprehension (fun data => extract_important_metrics [data]) text_data.

End MetricsExport.

(** ** Python strings as text: [str.strip()], [str.splitlines()] *)

Module PyText.

Import PyStr.

(** White space for [str.strip()]: the characters [str.isspace()]
    accepts, which are those of [\s]. *)
Definition is_text_space (c : ascii) : bool := Re.is_space_re c.

Fixpoint lstrip_text (s : string) : string :=
  match s with
  | String c r => if is_text_space c then lstrip_text r else s
  | EmptyString => EmptyString
  end.

Fixpoint rstrip_text (s : string) : string :=
  match s with
  | String c r =>
      match rstrip_text r with
      | EmptyString => if is_text_space c then EmptyString else String c EmptyString
      | r' => String c r'
      end
  | EmptyString => EmptyString
  end.

(** [s.strip()] *)
Definition strip_text (s : string) : string := rstrip_text (lstrip_text s).

(** The line boundaries of [str.splitlines()]: line feed, vertical
    tab, form feed, carriage return and the separators 28 to 30. *)
Definition is_break (c : ascii) : bool :=
  ((10 <=? code c) && (code c <=? 13)) || ((28 <=? code c) && (code c <=? 30)).

(** [s.splitlines()]: a carriage return followed by a line feed is one
    boundary; a boundary at the very end opens no further line. *)
Fixpoint splitlines (s : string) : list string :=
  match s with
  | EmptyString => []
  | String c r =>
      if is_break c then
        EmptyString ::
        (if code c =? 13 then
           match r with
           | String c2 r2 => if code c2 =? 10 then splitlines r2 else splitlines r
           | EmptyString => splitlines r
           end
         else splitlines r)
      else
        match splitlines r with
        | [] => [String c EmptyString]
        | h :: t => String c h :: t
        end
  end.

(** [s[n:]] *)
Fixpoint slice_from (n : nat) (s : string) : string :=
  match n, s with
  | O, _ => s
  | S k, String _ r => slice_from k r
  | S _, EmptyString => EmptyString
  end.

(** [s.find(c)] for a one-character needle: the first index, or -1. *)
Fixpoint find_char (c : ascii) (s : string) : Z :=
  match s with
  | EmptyString => -1
  | String d r =>
      if Ascii.eqb d c then 0
      else match find_char c r with
           | Zneg _ => -1
           | i => i + 1
           end
  end.

(** [re.match(pattern, s)] as a truth value *)
Definition re_match (p : Re.regex) (s : string) : bool :=
  match Re.run p s (s, s) with
  | Some _ => true
  | None => false
  end.

End PyText.

(** ** [src/utils.py], continued: [format_text_content] *)

Module UtilsText.

Import PyStr PyText.

Definition dquote : string := String "034" EmptyString.

Definition UL_OPEN : string := "<ul class=" +:+ dquote +:+ "context-list" +:+ dquote +:+ ">".
Definition OL_OPEN : string := "<ol class=" +:+ dquote +:+ "context-list" +:+ dquote +:+ ">".

(** The state of the loop: [html_parts], [in_ul], [in_ol]. *)
Definition loop_state : Type := (list string * bool * bool)%type.

(** What a blank line and the end of the text do: close the open
    lists, [</ul>] first. *)
Definition close_lists (st : loop_state) : loop_state :=
  let '(html_parts, in_ul, in_ol) := st in
  let '(html_parts, in_ul) :=
    if in_ul then (html_parts ++ ["</ul>"], false) else (html_parts, in_ul) in
  let '(html_parts, in_ol) :=
    if in_ol then (html_parts ++ ["</ol>"], false) else (html_parts, in_ol) in
  (html_parts, in_ul, in_ol).

(** The body of the loop over the lines.  The two patterns of
    [re.match] hold no letter, so that the comparison of [Re.CLit],
    which ignores case, is the exact one on them. *)
Definition format_line (st : loop_state) (line0 : string) : loop_state :=
  let '(html_parts, in_ul, in_ol) := st in
  let line := strip_text line0 in
  if String.eqb line "" then close_lists st
  else if String.prefix "### " line then
    (html_parts ++ ["<h4>" +:+ strip_text (slice_from 4 line) +:+ "</h4>"], in_ul, in_ol)
  else if String.prefix "#### " line then
    (html_parts ++ ["<h5>" +:+ strip_text (slice_from 5 line) +:+ "</h5>"], in_ul, in_ol)
  else if re_match (Re.lits "- ") line then
    let '(html_parts, in_ul) :=
      if negb in_ul then (html_parts ++ [UL_OPEN], true) else (html_parts, in_ul) in
    (html_parts ++ ["<li>" +:+ strip_text (slice_from 2 line) +:+ "</li>"], in_ul, in_ol)
  else if re_match [Re.Atom Re.CDigit Re.Plus; Re.Atom (Re.CLit ".") Re.One] line then
    let '(html_parts, in_ol) :=
      if negb in_ol then (html_parts ++ [OL_OPEN], true) else (html_parts, in_ol) in
    (html_parts ++
       ["<li>" +:+ strip_text (slice_from (Z.to_nat (find_char "." line + 1)) line) +:+ "</li>"],
     in_ul, in_ol)
  else
    (html_parts ++ ["<p>" +:+ line +:+ "</p>"], in_ul, in_ol).

(** [html_parts] when the function returns. *)
Definition format_text_parts (text : string) : list string :=
  let lines := splitlines (strip_text text) in
  let st := fold_left format_line lines ([], false, false) in
  fst (fst (close_lists st)).

Definition format_text_content (text : string) : string :=
  if String.eqb text "" then "<p>No content available.</p>"
  else Utils.join (String "010" EmptyString) (format_text_parts text).

End UtilsText.

(** ** [src/models/models.py] *)

Module Models.

(** The fields of [FinancialMetrics], in declaration order. *)
Definition FinancialMetrics_fields : list string :=
  [ "revenue"; "gross_profit_margin"; "net_profit_margin"; "debt_to_equity_ratio";
    "total_debt_ratio"; "current_ratio"; "return_on_equity"; "return_on_assets" ].

End Models.

(** ** More of the specification's vocabulary *)

Module SpecX.

Import PyStr PyFloat DataUtils Spec.

(** A row the extractor handles without an exception: it has a label,
    and a value cell when its label matches a rule. *)
Definition row_accepted (rules : list (string * string)) (item : row) : bool :=
  match item with
  | [] => false
  | label :: _ =>
      match first_match rules label with
      | None => true
      | Some _ => bool_decide (3 <= length item)%nat
      end
  end.

Definition table_accepted (d : record) (t : table_id) : bool :=
  match d !! source_key t with
  | None => true
  | Some tables =>
      match tables !! position t with
      | Some rows => forallb (row_accepted (rules_of t)) rows
      | None => false
      end
  end.

Definition record_accepted (d : record) : bool :=
  table_accepted d Liquidity && table_accepted d BalanceSheet &&
  table_accepted d IncomeStatement && table_accepted d CashFlow.

(** The label under which the success path stores a field of the
    reply. *)
Definition display_label (k : string) : string := title (replace "_" " " k).

Definition is_none (v : pyval) : bool :=
  match v with PNone => true | _ => false end.

(** The value shown under a label: that of the last item of the reply
    with this label whose value is not [None]. *)
Fixpoint shown (label : string) (its : list (string * pyval)) : option pyval :=
  match its with
  | [] => None
  | (k, v) :: r =>
      match shown label r with
      | Some x => Some x
      | None =>
          if negb (is_none v) && String.eqb (display_label k) label then Some v else None
      end
  end.

(** Every character of a text is in a set. *)
Definition all_in (cs : Re.cset) (s : string) : bool :=
  forallb (Re.mem cs) (list_ascii_of_string s).

(** A piece of a pattern outside its group. *)
Definition no_group (p : Re.regex) : bool :=
  forallb (fun n => match n with Re.Atom _ _ => true | _ => false end) p.

(** The characters of a revenue figure: digits, commas and dots. *)
Definition revenue_chars : Re.cset := Re.COneOf [Re.CDigit; Re.CLit ","; Re.CLit "."].

(** A text of ASCII characters only. *)
Definition ascii_text (s : string) : bool :=
  forallb (fun c => code c <? 128) (list_ascii_of_string s).

(** A text of white space only. *)
Definition blank (s : string) : bool :=
  forallb PyText.is_text_space (list_ascii_of_string s).

(** A text without a line boundary. *)
Definition one_line (s : string) : bool :=
  forallb (fun c => negb (PyText.is_break c)) (list_ascii_of_string s).

(** An entry of the fallback's metrics read from a text: a non-empty
    run of digits and dots (and commas, for the revenue) of the text,
    as a dollar amount in millions, a percentage or a bare ratio. *)
Definition fallback_entry (text k : string) (v : pyval) : Prop :=
  exists g : string,
    g <> "" /\ contains g text = true /\
    ((k = "Revenue" /\ all_in revenue_chars g = true /\
      v = PStr ("$" +:+ g +:+ " million")) \/
     ((k = "Gross Profit Margin" \/ k = "Net Profit Margin") /\
      all_in Utils.number_dots g = true /\ v = PStr (g +:+ "%")) \/
     ((k = "Debt To Equity Ratio" \/ k = "Total Debt Ratio") /\
      all_in Utils.number_dots g = true /\ v = PStr g)).

(** A first character that starts neither a heading nor a list item
    and is not white space. *)
Definition plain_start (c : ascii) : bool :=
  negb (PyText.is_text_space c) && negb (Ascii.eqb c "#") && negb (Ascii.eqb c "-") &&
  negb (is_digit c).

(** A state of the loop in which the list tags written so far
    balance, up to the lists that are open. *)
Definition balanced (st : UtilsText.loop_state) : Prop :=
  let '(html_parts, in_ul, in_ol) := st in
  count_occ string_dec html_parts UtilsText.UL_OPEN =
    (count_occ string_dec html_parts "</ul>" + (if in_ul then 1 else 0))%nat /\
  count_occ string_dec html_parts UtilsText.OL_OPEN =
    (count_occ string_dec html_parts "</ol>" + (if in_ol then 1 else 0))%nat.

End SpecX.

Import PyStr PyFloat PyRepr DataUtils Utils Spec.

(** * Properties of [safe_float] *)

Section SafeFloat.

Lemma float_of_str_raises (s : string) (e : exn) :
  float_of_str s = Raise e -> e = ValueError.
Proof.
  unfold float_of_str.
  destruct (negb (underscores_ok None s)); [congruence|].
  destruct (parse _); congruence.
Qed.

Lemma prefix_char (c : ascii) (s : string) :
  String.prefix (String c "") s =
  match s with String d _ => Ascii.eqb d c | EmptyString => false end.
Proof.
  destruct s as [|d r]; simpl; [reflexivity|].
  destruct (ascii_dec c d) as [->|Hne].
  - rewrite Ascii.eqb_refl. destruct r; reflexivity.
  - symmetry. apply Ascii.eqb_neq. congruence.
Qed.

Lemma contains_char (c : ascii) (s : string) :
  contains (String c "") s = bool_decide (is_Some (after_first c s)).
Proof.
  induction s as [|d r IH].
  - reflexivity.
  - cbn [contains after_first]. rewrite prefix_char.
    destruct (Ascii.eqb d c); [reflexivity | apply IH].
Qed.

Lemma split_head (sep : ascii) (s : string) :
  split sep s !! 0%nat = Some (until sep s).
Proof.
  induction s as [|c r IH]; simpl; [reflexivity|].
  destruct (Ascii.eqb c sep); [reflexivity|].
  destruct (split sep r) as [|h t]; [discriminate|].
  simpl in *. congruence.
Qed.

Lemma split_second (sep : ascii) (s : string) :
  split sep s !! 1%nat = until sep <$> after_first sep s.
Proof.
  induction s as [|c r IH]; simpl; [reflexivity|].
  destruct (Ascii.eqb c sep).
  - simpl. apply split_head.
  - pose proof (split_head sep r) as Hh.
    destruct (split sep r) as [|h t]; [discriminate|].
    simpl in *. exact IH.
Qed.

(** [safe_float] is the normalizer of the numeric candidate. *)
Lemma safe_float_spec (value : string) :
  safe_float value = Ok (normalize (numeric_candidate value)).
Proof.
  unfold safe_float, safe_float_try, numeric_candidate, normalize.
  rewrite contains_char.
  destruct (after_first "&" value) as [rest|] eqn:Ha.
  - rewrite bool_decide_eq_true_2 by eauto.
    unfold index. rewrite split_second, Ha. simpl.
    destruct (float_of_str _) as [f|e] eqn:Hf; simpl; [reflexivity|].
    apply float_of_str_raises in Hf. subst e. reflexivity.
  - rewrite bool_decide_eq_false_2 by (intros [x Hx]; discriminate).
    destruct (float_of_str _) as [f|e] eqn:Hf; simpl; [reflexivity|].
    apply float_of_str_raises in Hf. subst e. reflexivity.
Qed.

End SafeFloat.

(** The integers of the examples are exact binary64 values:
    mantissa times two to the exponent gives the integer back. *)
Lemma of_Z_exact_examples :
  of_Z 5000 = S754_finite false 5497558138880000 (-40) /\
  5497558138880000 = 5000 * 2 ^ 40 /\
  of_Z 1000000 = S754_finite false 8589934592000000 (-33) /\
  8589934592000000 = 1000000 * 2 ^ 33.
Proof. repeat split; vm_compute; reflexivity. Qed.

(** C2: on every string [safe_float] returns and never raises: it
    gives the float of the numeric candidate exactly when the candidate
    (commas stripped) converts, and the missing marker [None] exactly
    when the conversion fails; no default value stands in for a failed
    conversion.  The text "N/A" gives the missing marker. *)
Theorem safe_float_total_no_default (value : string) :
  (exists r : option float,
     safe_float value = Ok r /\
     (forall f, r = Some f <->
        float_of_str (replace "," "" (numeric_candidate value)) = Ok f) /\
     (r = None <->
        float_of_str (replace "," "" (numeric_candidate value)) = Raise ValueError)) /\
  safe_float "N/A" = Ok None.
Proof.
  split; [|vm_compute; reflexivity].
  exists (normalize (numeric_candidate value)).
  split; [apply safe_float_spec|].
  unfold normalize.
  destruct (float_of_str _) as [f|e] eqn:Hf; simpl.
  - split; [intros g; split; congruence|split; congruence].
  - apply float_of_str_raises in Hf. subst e.
    split; [intros g; split; congruence|split; congruence].
Qed.

(** C3, as stated, fails: with two ampersands the text after the first
    one is not the candidate.  On "Q1 & 5,000 & Q2" the code returns
    5000.0, while all the text after the first ampersand does not
    convert. *)
Lemma safe_float_after_first_ampersand_counterexample :
  after_first "&" "Q1 & 5,000 & Q2" = Some " 5,000 & Q2" /\
  normalize " 5,000 & Q2" = None /\
  safe_float "Q1 & 5,000 & Q2" = Ok (Some (of_Z 5000)) /\
  safe_float "Q1 & 5,000 & Q2" <> Ok (normalize " 5,000 & Q2").
Proof.
  repeat split; try (vm_compute; reflexivity).
  vm_compute. discriminate.
Qed.

(** C3, amended: when the text contains an ampersand, the numeric
    candidate is the segment between the first ampersand and the next
    one (or the end of the text); commas are stripped from it and it is
    converted.  "Level 2 & 5,000" gives 5000.0 and "Level 2 &" gives
    the missing marker. *)
Theorem safe_float_ampersand_segment :
  (forall value rest : string,
     after_first "&" value = Some rest ->
     contains "&" value = true /\
     safe_float value = Ok (normalize (until "&" rest))) /\
  safe_float "Level 2 & 5,000" = Ok (Some (of_Z 5000)) /\
  safe_float "Level 2 &" = Ok None.
Proof.
  split; [|split; vm_compute; reflexivity].
  intros value rest Ha. split.
  - rewrite contains_char, Ha. reflexivity.
  - rewrite safe_float_spec. unfold numeric_candidate. rewrite Ha. reflexivity.
Qed.

Lemma safe_float_ampersand_segment_witness :
  after_first "&" "Level 2 & 1,234.5 & x" = Some " 1,234.5 & x" /\
  contains "&" "Level 2 & 1,234.5 & x" = true /\
  safe_float "Level 2 & 1,234.5 & x" = Ok (normalize (until "&" " 1,234.5 & x")).
Proof.
  split; [reflexivity|].
  apply (proj1 safe_float_ampersand_segment "Level 2 & 1,234.5 & x" " 1,234.5 & x").
  reflexivity.
Defined.

(** * Properties of the table scan *)

Section TableScan.

Implicit Types (m : gmap string (option float)) (item : row) (rows : table).

Lemma store_spec (key : string) item m :
  store key item m =
  match item !! 2%nat with
  | Some value => Ok (<[key := normalize (numeric_candidate value)]> m)
  | None => Raise IndexError
  end.
Proof.
  unfold store, index. destruct (item !! 2%nat) as [v|]; [|reflexivity].
  cbn [bind]. rewrite safe_float_spec. reflexivity.
Qed.

Lemma label_has_cons (needle label : string) item :
  label_has needle (label :: item) = Ok (contains needle (lower label)).
Proof. reflexivity. Qed.

Ltac by_rules :=
  intros [|label rest] m; [reflexivity|];
  cbv [liquidity_row balance_sheet_row income_statement_row cash_flow_row
       liquidity_rules balance_sheet_rules income_statement_rules
       cash_flow_rules row_by_rules first_match];
  rewrite ?label_has_cons; cbn [bind];
  repeat
    (let c := fresh "c" in
     match goal with
     | |- context [contains ?sub (lower label)] =>
         destruct (contains sub (lower label)) eqn:c;
         [rewrite store_spec; reflexivity|]
     end;
     rewrite ?label_has_cons; cbn [bind]);
  reflexivity.

Lemma liquidity_row_spec item m :
  liquidity_row item m = row_by_rules liquidity_rules item m.
Proof. revert item m. by_rules. Qed.

Lemma balance_sheet_row_spec item m :
  balance_sheet_row item m = row_by_rules balance_sheet_rules item m.
Proof. revert item m. by_rules. Qed.

Lemma income_statement_row_spec item m :
  income_statement_row item m = row_by_rules income_statement_rules item m.
Proof. revert item m. by_rules. Qed.

Lemma cash_flow_row_spec item m :
  cash_flow_row item m = row_by_rules cash_flow_rules item m.
Proof. revert item m. by_rules. Qed.

Lemma for_each_ext {A S : Type} (f g : A -> S -> result S) (l : list A) (s : S) :
  (forall x s', f x s' = g x s') -> for_each f l s = for_each g l s.
Proof.
  intros Hfg. revert s. induction l as [|x l IH]; intros s; simpl; [reflexivity|].
  rewrite Hfg. destruct (g x s); simpl; [apply IH|reflexivity].
Qed.

(** What one row does to the map. *)
Lemma row_by_rules_ok rules item m m' :
  row_by_rules rules item m = Ok m' ->
  m' = match row_key rules item with
       | Some key => <[key := row_value item]> m
       | None => m
       end.
Proof.
  unfold row_by_rules, row_key, row_value.
  destruct item as [|label rest]; [discriminate|].
  destruct (first_match rules label) as [key|]; [|congruence].
  destruct (_ !! 2%nat); congruence.
Qed.

Lemma row_by_rules_well_formed rules item m :
  well_formed_row item = true -> exists m', row_by_rules rules item m = Ok m'.
Proof.
  unfold well_formed_row. intros Hwf. apply bool_decide_eq_true in Hwf.
  destruct item as [|label [|c1 [|value rest]]]; simpl in Hwf; try lia.
  unfold row_by_rules. destruct (first_match rules label); simpl; eauto.
Qed.

(** After a scan, a key holds the value of the last row stored under
    it, and its old value when no row is stored under it. *)
Lemma scan_lookup rules rows m0 m :
  for_each (row_by_rules rules) rows m0 = Ok m ->
  forall k, m !! k = match last_value rules rows k with
                     | Some v => Some v
                     | None => m0 !! k
                     end.
Proof.
  revert m0. induction rows as [|r rows IH]; intros m0 Hscan k; simpl in *.
  - congruence.
  - destruct (row_by_rules rules r m0) as [m1|e] eqn:Hr; simpl in Hscan; [|discriminate].
    rewrite (IH _ Hscan k).
    destruct (last_value rules rows k); [reflexivity|].
    apply row_by_rules_ok in Hr. subst m1.
    destruct (row_key rules r) as [key|] eqn:Hk.
    + case_bool_decide as Heq.
      * inversion Heq; subst. apply lookup_insert_eq.
      * apply lookup_insert_ne. congruence.
    + rewrite bool_decide_eq_false_2 by congruence. reflexivity.
Qed.

Lemma scan_well_formed rules rows m0 :
  forallb well_formed_row rows = true ->
  exists m, for_each (row_by_rules rules) rows m0 = Ok m.
Proof.
  revert m0. induction rows as [|r rows IH]; intros m0 Hwf; simpl in *; [eauto|].
  apply andb_prop in Hwf as [Hr Hrows].
  destruct (row_by_rules_well_formed rules r m0 Hr) as [m1 ->]. simpl.
  apply IH, Hrows.
Qed.

Lemma first_match_key rules label k :
  first_match rules label = Some k -> In k (map snd rules).
Proof.
  induction rules as [|[sub key] rules IH]; simpl; [discriminate|].
  destruct (contains sub (lower label)); [intros [= ->]; auto|auto].
Qed.

Lemma last_value_key rules rows k v :
  last_value rules rows k = Some v -> In k (map snd rules).
Proof.
  induction rows as [|r rows IH]; simpl; [discriminate|].
  destruct (last_value rules rows k); [auto|].
  case_bool_decide as Hk; [|discriminate].
  intros _. destruct r as [|label rest]; simpl in Hk; [discriminate|].
  eapply first_match_key, Hk.
Qed.

Lemma last_value_app rules rows1 rows2 k :
  last_value rules (rows1 ++ rows2) k =
  match last_value rules rows2 k with
  | Some v => Some v
  | None => last_value rules rows1 k
  end.
Proof.
  induction rows1 as [|r rows1 IH]; simpl.
  - destruct (last_value rules rows2 k); reflexivity.
  - rewrite IH. destruct (last_value rules rows2 k); reflexivity.
Qed.

Lemma last_value_none rules rows k :
  Forall (fun r => row_key rules r <> Some k) rows ->
  last_value rules rows k = None.
Proof.
  induction 1 as [|r rows Hr _ IH]; simpl; [reflexivity|].
  rewrite IH. rewrite bool_decide_eq_false_2 by assumption. reflexivity.
Qed.

(** The last row stored under [k] decides the value. *)
Lemma last_value_last rules pre r post k :
  row_key rules r = Some k ->
  Forall (fun r' => row_key rules r' <> Some k) post ->
  last_value rules (pre ++ r :: post) k = Some (row_value r).
Proof.
  intros Hr Hpost. rewrite last_value_app. simpl.
  rewrite (last_value_none _ _ _ Hpost).
  rewrite bool_decide_eq_true_2 by assumption. reflexivity.
Qed.

Lemma guarded_table_spec (d : record) (rest : list record) (key : string) (i : nat)
    (body : row -> gmap string (option float) -> result (gmap string (option float))) m :
  guarded_table (d :: rest) key i body m =
  match d !! key with
  | None => Ok m
  | Some tables =>
      match tables !! i with
      | Some rows => for_each body rows m
      | None => Raise IndexError
      end
  end.
Proof.
  unfold guarded_table, index, has_key, getitem. simpl.
  destruct (d !! key) as [tables|]; simpl; [|reflexivity].
  destruct (tables !! i); reflexivity.
Qed.

Lemma guarded_scan (t : table_id)
    (body : row -> gmap string (option float) -> result (gmap string (option float)))
    (d : record) (rest : list record) m :
  (forall item m', body item m' = row_by_rules (rules_of t) item m') ->
  guarded_table (d :: rest) (source_key t) (position t) body m = scan t d m.
Proof.
  intros Hbody. rewrite guarded_table_spec. unfold scan.
  destruct (d !! source_key t) as [tables|]; [|reflexivity].
  destruct (tables !! position t); [|reflexivity].
  apply for_each_ext, Hbody.
Qed.

(** [extract_important_metrics] is the four scans in a row. *)
Lemma extract_spec (d : record) (rest : list record) :
  extract_important_metrics (d :: rest) =
  (m1 <- scan Liquidity d ∅ ;;
   m2 <- scan BalanceSheet d m1 ;;
   m3 <- scan IncomeStatement d m2 ;;
   scan CashFlow d m3).
Proof.
  unfold extract_important_metrics.
  pose proof (fun m => guarded_scan Liquidity liquidity_row d rest m liquidity_row_spec) as H1.
  pose proof (fun m => guarded_scan BalanceSheet balance_sheet_row d rest m balance_sheet_row_spec) as H2.
  pose proof (fun m => guarded_scan IncomeStatement income_statement_row d rest m income_statement_row_spec) as H3.
  pose proof (fun m => guarded_scan CashFlow cash_flow_row d rest m cash_flow_row_spec) as H4.
  cbn [source_key position] in H1, H2, H3, H4.
  rewrite H1. destruct (scan Liquidity d ∅) as [m1|]; cbn [bind]; [|reflexivity].
  rewrite H2. destruct (scan BalanceSheet d m1) as [m2|]; cbn [bind]; [|reflexivity].
  rewrite H3. destruct (scan IncomeStatement d m2) as [m3|]; cbn [bind]; [|reflexivity].
  rewrite H4. destruct (scan CashFlow d m3) as [m4|]; reflexivity.
Qed.

Lemma scan_table_lookup (t : table_id) (d : record) m0 m :
  scan t d m0 = Ok m ->
  forall k, m !! k = match table_value t d k with
                     | Some v => Some v
                     | None => m0 !! k
                     end.
Proof.
  unfold scan, table_value, table_at. intros Hscan k.
  destruct (d !! source_key t) as [tables|]; [|congruence].
  destruct (tables !! position t) as [rows|]; [|discriminate].
  apply scan_lookup with (k := k) in Hscan. exact Hscan.
Qed.

Lemma table_value_key (t : table_id) (d : record) (k : string) v :
  table_value t d k = Some v -> In k (keys_of t).
Proof.
  unfold table_value. destruct (table_at d t); [|discriminate].
  apply last_value_key.
Qed.

(** No canonical key belongs to two tables. *)
Lemma keys_disjoint (t t' : table_id) (k : string) :
  In k (keys_of t) -> In k (keys_of t') -> t = t'.
Proof.
  intros Hk Hk'.
  destruct t; cbv [keys_of rules_of map snd liquidity_rules balance_sheet_rules
                   income_statement_rules cash_flow_rules In] in Hk;
    repeat (destruct Hk as [Hk|Hk]; [subst k|]); try contradiction;
    destruct t'; try reflexivity; exfalso;
    cbv [keys_of rules_of map snd liquidity_rules balance_sheet_rules
         income_statement_rules cash_flow_rules In] in Hk';
    repeat (destruct Hk' as [Hk'|Hk']; [discriminate Hk'|]); contradiction.
Qed.

Lemma table_value_other (t t' : table_id) (d : record) (k : string) :
  In k (keys_of t) -> t' <> t -> table_value t' d k = None.
Proof.
  intros Hk Hne. destruct (table_value t' d k) as [v|] eqn:Hv; [|reflexivity].
  apply table_value_key in Hv. elim Hne. eapply keys_disjoint; eassumption.
Qed.

(** In the result, a key of table [t] holds what the scan of [t]
    left under it. *)
Lemma extract_lookup (d : record) (rest : list record) m (t : table_id) (k : string) :
  extract_important_metrics (d :: rest) = Ok m ->
  In k (keys_of t) ->
  m !! k = table_value t d k.
Proof.
  rewrite extract_spec. intros Hex Hk.
  destruct (scan Liquidity d ∅) as [m1|] eqn:H1; cbn [bind] in Hex; [|discriminate].
  destruct (scan BalanceSheet d m1) as [m2|] eqn:H2; cbn [bind] in Hex; [|discriminate].
  destruct (scan IncomeStatement d m2) as [m3|] eqn:H3; cbn [bind] in Hex; [|discriminate].
  rewrite (scan_table_lookup _ _ _ _ Hex k), (scan_table_lookup _ _ _ _ H3 k),
    (scan_table_lookup _ _ _ _ H2 k), (scan_table_lookup _ _ _ _ H1 k), lookup_empty.
  destruct t.
  - rewrite (table_value_other Liquidity CashFlow), (table_value_other Liquidity IncomeStatement),
      (table_value_other Liquidity BalanceSheet) by (assumption || discriminate).
    destruct (table_value Liquidity d k); reflexivity.
  - rewrite (table_value_other BalanceSheet CashFlow), (table_value_other BalanceSheet IncomeStatement)
      by (assumption || discriminate).
    destruct (table_value BalanceSheet d k); [reflexivity|].
    rewrite (table_value_other BalanceSheet Liquidity) by (assumption || discriminate). reflexivity.
  - rewrite (table_value_other IncomeStatement CashFlow) by (assumption || discriminate).
    destruct (table_value IncomeStatement d k); [reflexivity|].
    rewrite (table_value_other IncomeStatement BalanceSheet),
      (table_value_other IncomeStatement Liquidity) by (assumption || discriminate). reflexivity.
  - destruct (table_value CashFlow d k); [reflexivity|].
    rewrite (table_value_other CashFlow IncomeStatement), (table_value_other CashFlow BalanceSheet),
      (table_value_other CashFlow Liquidity) by (assumption || discriminate). reflexivity.
Qed.

Lemma scan_present (t : table_id) (d : record) m0 :
  tables_present d t = true -> exists m, scan t d m0 = Ok m.
Proof.
  unfold tables_present, scan.
  destruct (d !! source_key t) as [tables|]; [|eauto].
  destruct (tables !! position t) as [rows|]; [|discriminate].
  apply scan_well_formed.
Qed.

(** A well-formed record is extracted without an exception. *)
Lemma extract_well_formed (d : record) (rest : list record) :
  well_formed_record d = true ->
  exists m, extract_important_metrics (d :: rest) = Ok m.
Proof.
  unfold well_formed_record. intros Hwf.
  apply andb_prop in Hwf as [Hwf H4]. apply andb_prop in Hwf as [Hwf H3].
  apply andb_prop in Hwf as [H1 H2].
  rewrite extract_spec.
  destruct (scan_present Liquidity d ∅ H1) as [m1 ->]. cbn [bind].
  destruct (scan_present BalanceSheet d m1 H2) as [m2 ->]. cbn [bind].
  destruct (scan_present IncomeStatement d m2 H3) as [m3 ->]. cbn [bind].
  apply scan_present, H4.
Qed.

End TableScan.

(** * The claims about [extract_important_metrics] *)

(** C1, as stated, fails: the currency sign is not stripped, so the
    cell "$1,000,000" does not convert and [total_assets] is bound to
    the missing marker, not to 1000000.0. *)
Lemma total_assets_dollar_counterexample :
  bind (extract_important_metrics
          [ {[ "after_mda_tables" :=
                 [ [ ["Total Assets"; ""; "$1,000,000"] ]; []; [] ] ]} ])
       (fun m => Ok (m !! "total_assets")) = Ok (Some None) /\
  Some (@None float) <> Some (Some (of_Z 1000000)).
Proof. split; [vm_compute; reflexivity|discriminate]. Qed.

(** C1, amended: when the balance sheet contains the row
    ["Total Assets", "", "$1,000,000"] and no later row is stored under
    [total_assets], a returning [extract_important_metrics] binds
    [total_assets] to the missing marker [None]; with the value cell
    "1,000,000" (no currency sign) it binds it to 1000000.0. *)
Theorem total_assets_row (d : record) (rest : list record)
    (pre post : table) (m : gmap string (option float)) :
  extract_important_metrics (d :: rest) = Ok m ->
  Forall (fun r => row_key balance_sheet_rules r <> Some "total_assets") post ->
  (table_at d BalanceSheet = Some (pre ++ ["Total Assets"; ""; "$1,000,000"] :: post) ->
   m !! "total_assets" = Some None) /\
  (table_at d BalanceSheet = Some (pre ++ ["Total Assets"; ""; "1,000,000"] :: post) ->
   m !! "total_assets" = Some (Some (of_Z 1000000))).
Proof.
  intros Hex Hpost.
  assert (Hk : In "total_assets" (keys_of BalanceSheet)) by (cbv; tauto).
  pose proof (extract_lookup d rest m BalanceSheet _ Hex Hk) as Hm.
  unfold table_value in Hm.
  split; intros Ht; rewrite Ht in Hm; rewrite Hm;
    (rewrite last_value_last; [|vm_compute; reflexivity|exact Hpost]);
    vm_compute; reflexivity.
Qed.

Lemma total_assets_row_witness :
  exists m,
    extract_important_metrics
      [ {[ "after_mda_tables" :=
             [ [ ["Goodwill"; ""; "7"]; ["Total Assets"; ""; "1,000,000"]; ["Footnote 3"] ];
               []; [] ] ]} ] = Ok m /\
    m !! "total_assets" = Some (Some (of_Z 1000000)).
Proof.
  destruct (extract_important_metrics
              [ {[ "after_mda_tables" :=
                     [ [ ["Goodwill"; ""; "7"]; ["Total Assets"; ""; "1,000,000"]; ["Footnote 3"] ];
                       []; [] ] ]} ]) as [m|e] eqn:Hex; [|vm_compute in Hex; discriminate].
  exists m. split; [reflexivity|].
  apply (total_assets_row
           {[ "after_mda_tables" :=
                [ [ ["Goodwill"; ""; "7"]; ["Total Assets"; ""; "1,000,000"]; ["Footnote 3"] ];
                  []; [] ] ]} [] [ ["Goodwill"; ""; "7"] ] [ ["Footnote 3"] ] m Hex).
  - repeat constructor. vm_compute. discriminate.
  - vm_compute; reflexivity.
Defined.

(** The four if/elif chains, row by row: the value cell, normalized by
    [safe_float], goes under the key of the first rule of the table
    that matches the lower-cased label; a row whose label matches no
    rule leaves the map as it is and raises nothing, as the label
    "Footnote 3" shows in every table. *)
Lemma row_function_first_match (t : table_id) (m : gmap string (option float)) :
  (forall item, row_function t item m = row_by_rules (rules_of t) item m) /\
  (forall label c1 value rest,
     row_function t (label :: c1 :: value :: rest) m =
     match first_match (rules_of t) label with
     | Some key => x <- safe_float value ;; Ok (<[key := x]> m)
     | None => Ok m
     end) /\
  (forall label rest,
     match first_match (rules_of t) label with
     | Some _ => True
     | None => row_function t (label :: rest) m = Ok m
     end) /\
  (forall rest, row_function t ("Footnote 3" :: rest) m = Ok m).
Proof.
  assert (Hspec : forall item, row_function t item m = row_by_rules (rules_of t) item m).
  { intros item. destruct t; simpl.
    - apply liquidity_row_spec.
    - apply balance_sheet_row_spec.
    - apply income_statement_row_spec.
    - apply cash_flow_row_spec. }
  split; [exact Hspec|]. split; [|split].
  - intros label c1 value rest. rewrite Hspec. unfold row_by_rules.
    destruct (first_match (rules_of t) label); [|reflexivity].
    simpl. rewrite safe_float_spec. reflexivity.
  - intros label rest. destruct (first_match (rules_of t) label) eqn:Hf; [exact I|].
    rewrite Hspec. unfold row_by_rules. rewrite Hf. reflexivity.
  - intros rest. rewrite Hspec. destruct t; reflexivity.
Qed.

(** C8, as stated, fails: a table absent from the sequence under a
    present key is not skipped.  With the balance sheet alone under
    [after_mda_tables] (no income statement, no cash flow) the
    extractor raises [IndexError]; so it does with one or two tables,
    and with an empty sequence under [mda_liquidity_tables]. *)
Lemma absent_table_counterexample :
  extract_important_metrics [ {[ "after_mda_tables" := [ [ ["Goodwill"; ""; "7"] ] ] ]} ]
    = Raise IndexError /\
  extract_important_metrics [ {[ "after_mda_tables" := [ []; [] ] ]} ] = Raise IndexError /\
  extract_important_metrics [ {[ "after_mda_tables" := [] ]} ] = Raise IndexError /\
  extract_important_metrics [ {[ "mda_liquidity_tables" := [] ]} ] = Raise IndexError.
Proof. repeat split; vm_compute; reflexivity. Qed.

(** C8, amended: when the key [mda_liquidity_tables] or the key
    [after_mda_tables] is absent, the tables of the absent key are
    skipped: provided every present key holds the tables read from it
    (one under [mda_liquidity_tables], three under [after_mda_tables])
    with well-formed rows, [extract_important_metrics] returns a map
    without raising, and the keys of a skipped table stay unbound. *)
Theorem absent_key_skipped (d : record) (rest : list record) :
  well_formed_record d = true ->
  exists m,
    extract_important_metrics (d :: rest) = Ok m /\
    (d !! "mda_liquidity_tables" = None ->
     forall k, In k (keys_of Liquidity) -> m !! k = None) /\
    (d !! "after_mda_tables" = None ->
     forall t k, t <> Liquidity -> In k (keys_of t) -> m !! k = None) /\
    (d !! "mda_liquidity_tables" = None -> d !! "after_mda_tables" = None -> m = ∅).
Proof.
  intros Hwf. destruct (extract_well_formed d rest Hwf) as [m Hm].
  exists m. split; [exact Hm|].
  assert (Hliq : d !! "mda_liquidity_tables" = None ->
                 forall k, In k (keys_of Liquidity) -> m !! k = None).
  { intros Hd k Hk. rewrite (extract_lookup d rest m Liquidity k Hm Hk).
    unfold table_value, table_at. simpl. rewrite Hd. reflexivity. }
  assert (Hafter : d !! "after_mda_tables" = None ->
                   forall t k, t <> Liquidity -> In k (keys_of t) -> m !! k = None).
  { intros Hd t k Ht Hk. rewrite (extract_lookup d rest m t k Hm Hk).
    unfold table_value, table_at. destruct t; [congruence| | |]; simpl; rewrite Hd; reflexivity. }
  split; [exact Hliq|]. split; [exact Hafter|].
  intros Hd1 Hd2. rewrite extract_spec in Hm. unfold scan in Hm. simpl in Hm.
  rewrite Hd1, Hd2 in Hm. simpl in Hm. congruence.
Qed.

Lemma absent_key_skipped_witness :
  exists m,
    extract_important_metrics
      [ {[ "after_mda_tables" :=
             [ [ ["Goodwill"; ""; "7"] ]; [ ["Sales"; ""; "1,5"] ]; [] ] ]} ] = Ok m /\
    (forall k, In k (keys_of Liquidity) -> m !! k = None).
Proof.
  destruct (absent_key_skipped
              {[ "after_mda_tables" :=
                   [ [ ["Goodwill"; ""; "7"] ]; [ ["Sales"; ""; "1,5"] ]; [] ] ]} [])
    as [m [Hm [Hliq _]]].
  - vm_compute; reflexivity.
  - exists m. split; [exact Hm|]. apply Hliq. vm_compute; reflexivity.
Defined.

(** * Rows stored under the same key *)

Section Overwrite.

Implicit Types (m : gmap string (option float)) (item : row) (rows : table).

(** Whether a row is handled without an exception does not depend on
    the map. *)
Lemma row_by_rules_ok_indep rules item m1 m2 :
  (exists m', row_by_rules rules item m1 = Ok m') ->
  exists m', row_by_rules rules item m2 = Ok m'.
Proof.
  unfold row_by_rules. destruct item as [|label rest]; [intros [? ?]; discriminate|].
  destruct (first_match rules label); [|eauto].
  destruct (_ !! 2%nat); [eauto|intros [? ?]; discriminate].
Qed.

Lemma scan_app rules rows1 rows2 m0 :
  for_each (row_by_rules rules) (rows1 ++ rows2) m0 =
  (m1 <- for_each (row_by_rules rules) rows1 m0 ;;
   for_each (row_by_rules rules) rows2 m1).
Proof.
  revert m0. induction rows1 as [|r rows1 IH]; intros m0; simpl; [reflexivity|].
  destruct (row_by_rules rules r m0); simpl; [apply IH|reflexivity].
Qed.

Lemma scan_ok_indep rules rows m1 m2 :
  (exists m', for_each (row_by_rules rules) rows m1 = Ok m') ->
  exists m', for_each (row_by_rules rules) rows m2 = Ok m'.
Proof.
  revert m1 m2. induction rows as [|r rows IH]; intros m1 m2; simpl; [eauto|].
  intros [m' Hm'].
  destruct (row_by_rules rules r m1) as [n1|] eqn:Hr; simpl in Hm'; [|discriminate].
  destruct (row_by_rules_ok_indep rules r m1 m2) as [n2 Hn2]; [exists n1; exact Hr|].
  rewrite Hn2. simpl. apply (IH n1 n2). exists m'. exact Hm'.
Qed.

(** Dropping a row from a scan that returns leaves a scan that
    returns. *)
Lemma scan_drop_ok rules pre r post m0 m :
  for_each (row_by_rules rules) (pre ++ r :: post) m0 = Ok m ->
  exists m', for_each (row_by_rules rules) (pre ++ post) m0 = Ok m'.
Proof.
  rewrite !scan_app. intros Hscan.
  destruct (for_each (row_by_rules rules) pre m0) as [m1|]; simpl in *; [|discriminate].
  destruct (row_by_rules rules r m1) as [m2|]; simpl in *; [|discriminate].
  apply (scan_ok_indep rules post m2 m1). exists m. exact Hscan.
Qed.

Lemma last_value_stored rules rows r post k :
  row_key rules r = Some k ->
  is_Some (last_value rules (rows ++ r :: post) k).
Proof.
  intros Hr. rewrite last_value_app. simpl.
  destruct (last_value rules post k); [eauto|].
  rewrite bool_decide_eq_true_2 by assumption. eauto.
Qed.

(** An earlier row stored under the key of a later row leaves no
    trace in the values the scan stores. *)
Lemma last_value_drop_earlier rules pre r1 mid r2 post k k' :
  row_key rules r1 = Some k ->
  row_key rules r2 = Some k ->
  last_value rules (pre ++ r1 :: mid ++ r2 :: post) k' =
  last_value rules (pre ++ mid ++ r2 :: post) k'.
Proof.
  intros H1 H2. rewrite !(last_value_app rules pre). simpl.
  destruct (last_value rules (mid ++ r2 :: post) k') as [v|] eqn:Hl; [reflexivity|].
  case_bool_decide as Hk; [|reflexivity].
  assert (k' = k) by congruence. subst k'.
  destruct (last_value_stored rules mid r2 post k H2) as [v Hv]. congruence.
Qed.

Lemma scan_drop_earlier rules pre r1 mid r2 post k m0 m :
  row_key rules r1 = Some k ->
  row_key rules r2 = Some k ->
  for_each (row_by_rules rules) (pre ++ r1 :: mid ++ r2 :: post) m0 = Ok m ->
  for_each (row_by_rules rules) (pre ++ mid ++ r2 :: post) m0 = Ok m.
Proof.
  intros H1 H2 Hscan.
  destruct (scan_drop_ok _ _ _ _ _ _ Hscan) as [m' Hm'].
  rewrite Hm'. f_equal. apply map_eq. intros k'.
  rewrite (scan_lookup _ _ _ _ Hm' k'), (scan_lookup _ _ _ _ Hscan k').
  rewrite (last_value_drop_earlier rules pre r1 mid r2 post k k' H1 H2). reflexivity.
Qed.

(** The scan of a table after another table of the record was
    replaced, and the scan of the replaced table itself. *)
Lemma scan_replace (t t' : table_id) (d : record) (tables : list table) rows' m0 :
  d !! source_key t = Some tables ->
  (position t < length tables)%nat ->
  scan t' (<[source_key t := <[position t := rows']> tables]> d) m0 =
  if decide (t' = t) then for_each (row_by_rules (rules_of t)) rows' m0
  else scan t' d m0.
Proof.
  intros Hd Hlen. unfold scan.
  destruct (decide (t' = t)) as [->|Hne].
  - rewrite lookup_insert_eq, list_lookup_insert_eq by assumption. reflexivity.
  - destruct (decide (source_key t' = source_key t)) as [Hk|Hk].
    + rewrite Hk, lookup_insert_eq, Hd.
      rewrite list_lookup_insert_ne; [reflexivity|].
      destruct t, t'; simpl in *; congruence.
    + rewrite lookup_insert_ne by congruence. reflexivity.
Qed.

End Overwrite.

(** C10: when two rows of one table are stored under the same
    canonical key, a returning [extract_important_metrics] binds the
    key to the normalized value cell of the last such row, the value
    [safe_float] gives for that cell; the earlier row leaves no trace:
    the result is the one obtained from the record with the earlier
    row taken out. *)
Theorem last_matching_row_wins (d : record) (rest : list record) (t : table_id)
    (tables : list table) (pre mid post : table) (r1 r2 : row) (k : string)
    (m : gmap string (option float)) :
  extract_important_metrics (d :: rest) = Ok m ->
  d !! source_key t = Some tables ->
  tables !! position t = Some (pre ++ r1 :: mid ++ r2 :: post) ->
  row_key (rules_of t) r1 = Some k ->
  row_key (rules_of t) r2 = Some k ->
  Forall (fun r => row_key (rules_of t) r <> Some k) post ->
  m !! k = Some (row_value r2) /\
  (exists value, r2 !! 2%nat = Some value /\ safe_float value = Ok (row_value r2)) /\
  extract_important_metrics
    (<[source_key t := <[position t := pre ++ mid ++ r2 :: post]> tables]> d :: rest) = Ok m.
Proof.
  intros Hex Hd Ht H1 H2 Hpost.
  assert (Hk : In k (keys_of t)).
  { destruct r2 as [|label tl]; [discriminate|]. eapply first_match_key, H2. }
  assert (Hlen : (position t < length tables)%nat) by (eapply lookup_lt_Some, Ht).
  pose proof Hex as Hscans. rewrite extract_spec in Hscans.
  split; [|split].
  - rewrite (extract_lookup d rest m t k Hex Hk).
    unfold table_value, table_at. rewrite Hd, Ht.
    change (pre ++ r1 :: mid ++ r2 :: post) with (pre ++ (r1 :: mid) ++ r2 :: post).
    rewrite app_assoc. apply last_value_last; assumption.
  - assert (Hrow : exists m0 m', row_by_rules (rules_of t) r2 m0 = Ok m').
    { assert (Hs : exists m0 m', scan t d m0 = Ok m').
      { destruct (scan Liquidity d ∅) as [m1|] eqn:E1; cbn [bind] in Hscans; [|discriminate].
        destruct (scan BalanceSheet d m1) as [m2|] eqn:E2; cbn [bind] in Hscans; [|discriminate].
        destruct (scan IncomeStatement d m2) as [m3|] eqn:E3; cbn [bind] in Hscans; [|discriminate].
        destruct t; eauto. }
      destruct Hs as (m0 & m' & Hs). unfold scan in Hs. rewrite Hd, Ht in Hs.
      change (pre ++ r1 :: mid ++ r2 :: post) with (pre ++ (r1 :: mid) ++ r2 :: post) in Hs.
      rewrite app_assoc, scan_app in Hs.
      destruct (for_each _ (pre ++ r1 :: mid) m0) as [n|]; simpl in Hs; [|discriminate].
      destruct (row_by_rules (rules_of t) r2 n) as [n'|] eqn:Hr; [eauto|discriminate]. }
    destruct Hrow as (m0 & m' & Hrow). unfold row_by_rules in Hrow.
    unfold row_value. destruct r2 as [|label tl]; [discriminate|].
    simpl in H2. rewrite H2 in Hrow.
    destruct ((label :: tl) !! 2%nat) as [value|]; [|discriminate].
    exists value. split; [reflexivity|apply safe_float_spec].
  - assert (Hstep : forall t' m0 m',
              scan t' d m0 = Ok m' ->
              scan t' (<[source_key t := <[position t := pre ++ mid ++ r2 :: post]> tables]> d) m0
              = Ok m').
    { intros t' m0 m' Hs. rewrite (scan_replace t t' d tables _ _ Hd Hlen).
      case_decide as Heq; [subst t'|exact Hs].
      unfold scan in Hs. rewrite Hd, Ht in Hs.
      apply (scan_drop_earlier _ pre r1 mid r2 post k); assumption. }
    rewrite extract_spec.
    destruct (scan Liquidity d ∅) as [m1|] eqn:E1; cbn [bind] in Hscans; [|discriminate].
    destruct (scan BalanceSheet d m1) as [m2|] eqn:E2; cbn [bind] in Hscans; [|discriminate].
    destruct (scan IncomeStatement d m2) as [m3|] eqn:E3; cbn [bind] in Hscans; [|discriminate].
    rewrite (Hstep _ _ _ E1). cbn [bind].
    rewrite (Hstep _ _ _ E2). cbn [bind].
    rewrite (Hstep _ _ _ E3). cbn [bind].
    apply Hstep, Hscans.
Qed.

Lemma last_matching_row_wins_witness :
  exists m,
    extract_important_metrics
      [ {[ "after_mda_tables" :=
             [ [ ["Goodwill"; ""; "1"]; ["Footnote 3"]; ["Goodwill (restated)"; ""; "2"] ];
               []; [] ] ]} ] = Ok m /\
    m !! "goodwill" = Some (Some (of_Z 2)).
Proof.
  destruct (extract_important_metrics
              [ {[ "after_mda_tables" :=
                     [ [ ["Goodwill"; ""; "1"]; ["Footnote 3"]; ["Goodwill (restated)"; ""; "2"] ];
                       []; [] ] ]} ]) as [m|e] eqn:Hex; [|vm_compute in Hex; discriminate].
  exists m. split; [reflexivity|].
  apply (last_matching_row_wins
           {[ "after_mda_tables" :=
                [ [ ["Goodwill"; ""; "1"]; ["Footnote 3"]; ["Goodwill (restated)"; ""; "2"] ];
                  []; [] ] ]} [] BalanceSheet
           [ [ ["Goodwill"; ""; "1"]; ["Footnote 3"]; ["Goodwill (restated)"; ""; "2"] ]; []; [] ]
           [] [ ["Footnote 3"] ] [] ["Goodwill"; ""; "1"] ["Goodwill (restated)"; ""; "2"]
           "goodwill" m Hex).
  - vm_compute; reflexivity.
  - reflexivity.
  - vm_compute; reflexivity.
  - vm_compute; reflexivity.
  - constructor.
Defined.

(** * One row among the others *)

Section OneRow.

Implicit Types (m : gmap string (option float)) (item : row) (rows : table).

(** Whether a scan returns does not depend on the map it starts
    from. *)
Lemma scan_indep (t : table_id) (d : record) m1 m2 :
  (exists m', scan t d m1 = Ok m') -> exists m', scan t d m2 = Ok m'.
Proof.
  unfold scan. destruct (d !! source_key t) as [tables|]; [|eauto].
  destruct (tables !! position t) as [rows|]; [|intros [? ?]; discriminate].
  apply scan_ok_indep.
Qed.

(** The value under a key after the four scans. *)
Lemma extract_lookup_any (d : record) (rest : list record) m (k : string) :
  extract_important_metrics (d :: rest) = Ok m ->
  m !! k =
    match table_value CashFlow d k with
    | Some v => Some v
    | None =>
        match table_value IncomeStatement d k with
        | Some v => Some v
        | None =>
            match table_value BalanceSheet d k with
            | Some v => Some v
            | None => table_value Liquidity d k
            end
        end
    end.
Proof.
  rewrite extract_spec. intros Hex.
  destruct (scan Liquidity d ∅) as [m1|] eqn:H1; cbn [bind] in Hex; [|discriminate].
  destruct (scan BalanceSheet d m1) as [m2|] eqn:H2; cbn [bind] in Hex; [|discriminate].
  destruct (scan IncomeStatement d m2) as [m3|] eqn:H3; cbn [bind] in Hex; [|discriminate].
  rewrite (scan_table_lookup _ _ _ _ Hex k), (scan_table_lookup _ _ _ _ H3 k),
    (scan_table_lookup _ _ _ _ H2 k), (scan_table_lookup _ _ _ _ H1 k), lookup_empty.
  destruct (table_value Liquidity d k); reflexivity.
Qed.

(** The tables of the record in which one table is replaced. *)
Lemma table_at_replace (t t' : table_id) (d : record) (tables : list table) rows' :
  d !! source_key t = Some tables ->
  (position t < length tables)%nat ->
  table_at (<[source_key t := <[position t := rows']> tables]> d) t' =
  if decide (t' = t) then Some rows' else table_at d t'.
Proof.
  intros Hd Hlen. unfold table_at.
  destruct (decide (t' = t)) as [->|Hne].
  - rewrite lookup_insert_eq, list_lookup_insert_eq by assumption. reflexivity.
  - destruct (decide (source_key t' = source_key t)) as [Hk|Hk].
    + rewrite Hk, lookup_insert_eq, Hd.
      rewrite list_lookup_insert_ne; [reflexivity|].
      destruct t, t'; simpl in *; congruence.
    + rewrite lookup_insert_ne by congruence. reflexivity.
Qed.

(** Without one of its rows a table leaves the same values under the
    keys the row is not stored under. *)
Lemma last_value_drop_row rules pre item post k :
  row_key rules item <> Some k ->
  last_value rules (pre ++ item :: post) k = last_value rules (pre ++ post) k.
Proof.
  intros Hk. rewrite !last_value_app. cbn [last_value].
  rewrite bool_decide_eq_false_2 by exact Hk.
  destruct (last_value rules post k); reflexivity.
Qed.

(** A row that matches no rule can be taken out of the scan. *)
Lemma scan_drop_unmatched rules pre label cells post m0 :
  first_match rules label = None ->
  for_each (row_by_rules rules) (pre ++ (label :: cells) :: post) m0 =
  for_each (row_by_rules rules) (pre ++ post) m0.
Proof.
  intros Hf. rewrite !scan_app.
  destruct (for_each (row_by_rules rules) pre m0) as [m1|]; [|reflexivity].
  cbn [bind for_each]. unfold row_by_rules at 1. rewrite Hf. reflexivity.
Qed.

(** Without one of its rows a record is still extracted. *)
Lemma extract_drop_row_ok (d : record) (rest : list record) (t : table_id)
    (tables : list table) pre item post m :
  d !! source_key t = Some tables ->
  tables !! position t = Some (pre ++ item :: post) ->
  extract_important_metrics (d :: rest) = Ok m ->
  exists m',
    extract_important_metrics
      (<[source_key t := <[position t := pre ++ post]> tables]> d :: rest) = Ok m'.
Proof.
  intros Hd Ht. rewrite !extract_spec. intros Hex.
  assert (Hlen : (position t < length tables)%nat) by (eapply lookup_lt_Some, Ht).
  assert (Hstep : forall t' m0 m1,
            (exists m', scan t' d m0 = Ok m') ->
            exists m', scan t' (<[source_key t := <[position t := pre ++ post]> tables]> d) m1
                       = Ok m').
  { intros t' m0 m1 Hs. apply (scan_indep t' d m0 m1) in Hs as [m' Hs].
    rewrite (scan_replace t t' d tables _ _ Hd Hlen).
    case_decide as Heq; [subst t'|eauto].
    unfold scan in Hs. rewrite Hd, Ht in Hs. eapply scan_drop_ok, Hs. }
  destruct (scan Liquidity d ∅) as [m1|] eqn:E1; cbn [bind] in Hex; [|discriminate].
  destruct (scan BalanceSheet d m1) as [m2|] eqn:E2; cbn [bind] in Hex; [|discriminate].
  destruct (scan IncomeStatement d m2) as [m3|] eqn:E3; cbn [bind] in Hex; [|discriminate].
  destruct (Hstep Liquidity ∅ ∅) as [n1 ->]; [eauto|]. cbn [bind].
  destruct (Hstep BalanceSheet m1 n1) as [n2 ->]; [eauto|]. cbn [bind].
  destruct (Hstep IncomeStatement m2 n2) as [n3 ->]; [eauto|]. cbn [bind].
  apply (Hstep CashFlow m3 n3). eauto.
Qed.

End OneRow.

(** C7: a row of one of the four tables is tested against that
    table's rules in declaration order on its lower-cased label.  When
    a rule matches, a returning [extract_important_metrics] has read
    the row's value cell, holds its value as [safe_float] normalizes it
    under the key of the first matching rule (unless a later row of the
    table is stored under that key), and holds under every other key
    what it holds for the record without the row.  When no rule
    matches, the row contributes nothing and causes no error:
    [extract_important_metrics] does on the record what it does on the
    record without the row. *)
Theorem first_matching_rule_wins (d : record) (rest : list record) (t : table_id)
    (tables : list table) (pre post : table) (label : string) (cells : row) :
  d !! source_key t = Some tables ->
  tables !! position t = Some (pre ++ (label :: cells) :: post) ->
  let without := <[source_key t := <[position t := pre ++ post]> tables]> d in
  match first_match (rules_of t) label with
  | Some key =>
      forall m, extract_important_metrics (d :: rest) = Ok m ->
        exists value x m',
          cells !! 1%nat = Some value /\ safe_float value = Ok x /\
          extract_important_metrics (without :: rest) = Ok m' /\
          (forall k, k <> key -> m !! k = m' !! k) /\
          is_Some (m !! key) /\
          (Forall (fun r => row_key (rules_of t) r <> Some key) post -> m !! key = Some x)
  | None =>
      extract_important_metrics (d :: rest) = extract_important_metrics (without :: rest)
  end.
Proof.
  intros Hd Ht without.
  assert (Hlen : (position t < length tables)%nat) by (eapply lookup_lt_Some, Ht).
  destruct (first_match (rules_of t) label) as [key|] eqn:Hf.
  - intros m Hex.
    assert (Hkey : row_key (rules_of t) (label :: cells) = Some key) by exact Hf.
    assert (Hin : In key (keys_of t)) by (eapply first_match_key, Hf).
    assert (Hcell : exists value, cells !! 1%nat = Some value).
    { assert (Hs : exists m0 m', scan t d m0 = Ok m').
      { pose proof Hex as Hscans. rewrite extract_spec in Hscans.
        destruct (scan Liquidity d ∅) as [m1|] eqn:E1; cbn [bind] in Hscans; [|discriminate].
        destruct (scan BalanceSheet d m1) as [m2|] eqn:E2; cbn [bind] in Hscans; [|discriminate].
        destruct (scan IncomeStatement d m2) as [m3|] eqn:E3; cbn [bind] in Hscans;
          [|discriminate].
        destruct t; eauto. }
      destruct Hs as (m0 & m' & Hs). unfold scan in Hs. rewrite Hd, Ht, scan_app in Hs.
      destruct (for_each _ pre m0) as [n|]; cbn [bind for_each] in Hs; [|discriminate].
      unfold row_by_rules at 1 in Hs. rewrite Hf in Hs.
      change ((label :: cells) !! 2%nat) with (cells !! 1%nat) in Hs.
      destruct (cells !! 1%nat) as [value|]; [eauto|discriminate]. }
    destruct Hcell as [value Hvalue].
    destruct (extract_drop_row_ok d rest t tables pre (label :: cells) post m Hd Ht Hex)
      as [m' Hm'].
    exists value, (normalize (numeric_candidate value)), m'.
    split; [exact Hvalue|]. split; [apply safe_float_spec|]. split; [exact Hm'|].
    split; [|split].
    + intros k Hk.
      rewrite (extract_lookup_any d rest m k Hex), (extract_lookup_any _ rest m' k Hm').
      assert (Htv : forall t', table_value t' without k = table_value t' d k).
      { intros t'. unfold table_value, without.
        rewrite (table_at_replace t t' d tables _ Hd Hlen).
        case_decide as Heq; [subst t'|reflexivity].
        unfold table_at. rewrite Hd, Ht. symmetry. apply last_value_drop_row.
        rewrite Hkey. congruence. }
      rewrite !Htv. reflexivity.
    + rewrite (extract_lookup d rest m t key Hex Hin).
      unfold table_value, table_at. rewrite Hd, Ht. apply last_value_stored, Hkey.
    + intros Hpost. rewrite (extract_lookup d rest m t key Hex Hin).
      unfold table_value, table_at. rewrite Hd, Ht.
      rewrite (last_value_last _ pre (label :: cells) post key Hkey Hpost).
      unfold row_value.
      change ((label :: cells) !! 2%nat) with (cells !! 1%nat). rewrite Hvalue. reflexivity.
  - assert (Hstep : forall t' m0, scan t' without m0 = scan t' d m0).
    { intros t' m0. unfold without. rewrite (scan_replace t t' d tables _ _ Hd Hlen).
      case_decide as Heq; [subst t'|reflexivity].
      unfold scan. rewrite Hd, Ht. symmetry. apply scan_drop_unmatched, Hf. }
    rewrite !extract_spec. rewrite (Hstep Liquidity).
    destruct (scan Liquidity d ∅) as [m1|]; cbn [bind]; [|reflexivity].
    rewrite (Hstep BalanceSheet).
    destruct (scan BalanceSheet d m1) as [m2|]; cbn [bind]; [|reflexivity].
    rewrite (Hstep IncomeStatement).
    destruct (scan IncomeStatement d m2) as [m3|]; cbn [bind]; [|reflexivity].
    rewrite (Hstep CashFlow). reflexivity.
Qed.

Lemma first_matching_rule_wins_witness :
  exists m x,
    extract_important_metrics
      [ {[ "after_mda_tables" :=
             [ []; [ ["Basic net earnings per common share"; ""; "1.25"] ]; [] ] ]} ] = Ok m /\
    safe_float "1.25" = Ok x /\
    m !! "net_earnings" = Some x /\
    m !! "basic_eps" = None.
Proof.
  destruct (extract_important_metrics
              [ {[ "after_mda_tables" :=
                     [ []; [ ["Basic net earnings per common share"; ""; "1.25"] ]; [] ] ]} ])
    as [m|e] eqn:Hex; [|vm_compute in Hex; discriminate].
  pose proof (first_matching_rule_wins
                {[ "after_mda_tables" :=
                     [ []; [ ["Basic net earnings per common share"; ""; "1.25"] ]; [] ] ]}
                [] IncomeStatement
                [ []; [ ["Basic net earnings per common share"; ""; "1.25"] ]; [] ]
                [] [] "Basic net earnings per common share" [""; "1.25"]
                eq_refl eq_refl) as H.
  cbv zeta in H.
  change (first_match (rules_of IncomeStatement) "Basic net earnings per common share")
    with (Some "net_earnings") in H.
  destruct (H m Hex) as (value & x & m' & Hv & Hx & Hm' & Hother & _ & Hk).
  injection Hv as <-.
  exists m, x. split; [reflexivity|]. split; [exact Hx|]. split; [apply Hk; constructor|].
  rewrite (Hother "basic_eps") by discriminate.
  vm_compute in Hm'. injection Hm' as <-. reflexivity.
Defined.

(** * The fallback extractor *)

Section Fallback.

Implicit Types (response outcome metrics ed rest : dict).

Lemma set_metric_head metrics rest (metric v : string) :
  set_metric (("metrics", PDict metrics) :: rest) metric v =
  Ok (("metrics", PDict (PyDict.set metrics metric (PStr v))) :: rest).
Proof. reflexivity. Qed.

Lemma set_str_values metrics (k v : string) :
  str_values (PDict metrics) = true ->
  str_values (PDict (PyDict.set metrics k (PStr v))) = true.
Proof.
  simpl. induction metrics as [|[k' v'] metrics IH]; simpl; [reflexivity|].
  intros Hm. apply andb_prop in Hm as [Hv Hm].
  destruct (String.eqb k k'); simpl.
  - exact Hm.
  - rewrite Hv. apply IH, Hm.
Qed.

(** One pattern keeps the shape of the working dictionary and stores
    strings only. *)
Lemma apply_pattern_shape (ft : pyval) (mp : string * Re.regex) metrics rest ed :
  str_values (PDict metrics) = true ->
  apply_pattern ft mp (("metrics", PDict metrics) :: rest) = Ok ed ->
  exists metrics',
    ed = ("metrics", PDict metrics') :: rest /\ str_values (PDict metrics') = true.
Proof.
  intros Hm. destruct mp as [metric pattern]. unfold apply_pattern.
  destruct (re_search pattern ft) as [[value|]|] eqn:Hs; cbn [bind].
  - destruct (String.eqb metric "Revenue"); [|destruct (contains "Margin" metric)];
      rewrite set_metric_head; intros [= <-]; eexists; split; try reflexivity;
      apply set_str_values, Hm.
  - intros [= <-]. eauto.
  - discriminate.
Qed.

Lemma apply_patterns_shape (ft : pyval) (pats : list (string * Re.regex)) metrics rest ed :
  str_values (PDict metrics) = true ->
  for_each (apply_pattern ft) pats (("metrics", PDict metrics) :: rest) = Ok ed ->
  exists metrics',
    ed = ("metrics", PDict metrics') :: rest /\ str_values (PDict metrics') = true.
Proof.
  revert metrics. induction pats as [|mp pats IH]; intros metrics Hm; simpl.
  - intros [= <-]. eauto.
  - destruct (apply_pattern ft mp _) as [ed1|] eqn:H1; cbn [bind]; [|discriminate].
    destruct (apply_pattern_shape ft mp metrics rest ed1 Hm H1) as (m1 & -> & Hm1).
    apply IH, Hm1.
Qed.

(** On text, every pattern is applied without an exception. *)
Lemma apply_patterns_text (s : string) (pats : list (string * Re.regex)) metrics rest :
  exists ed, for_each (apply_pattern (PStr s)) pats (("metrics", PDict metrics) :: rest) = Ok ed.
Proof.
  revert metrics. induction pats as [|[metric pattern] pats IH]; intros metrics; simpl; [eauto|].
  destruct (Re.search pattern s) as [value|]; [|apply IH].
  destruct (String.eqb metric "Revenue"); [|destruct (contains "Margin" metric)];
    rewrite set_metric_head; cbn [bind]; apply IH.
Qed.

(** The result of the fallback, when it returns. *)
Lemma fallback_result response (y : pyval) :
  fallback_extraction response = Ok y ->
  exists metrics,
    str_values (PDict metrics) = true /\
    (outcome_field response "Financial Metrics" = None -> metrics = []) /\
    y = PDict [ ("metrics", PDict metrics);
                ("context", outcome_context response);
                ("competitor", outcome_text response "Competitor Analysis");
                ("contradictions", outcome_text response "Contradictory Analysis");
                ("additional_context", PyDict.get response KEY_ADDITIONAL (PStr "")) ].
Proof.
  unfold fallback_extraction, outcome_context, outcome_text, outcome_field, outcome_of.
  destruct (PyDict.get response KEY_DETAILED (PDict [])) as [| | | | |l|outcome];
    cbn [bind]; try (intros [= <-]; exists []; repeat split; reflexivity).
  unfold PyDict.get at 1 2 3 4.
  destruct (PyDict.lookup outcome "Financial Metrics") as [ft|] eqn:Hft.
  - destruct (truthy ft).
    + destruct (for_each _ _ _) as [ed|] eqn:Hed; cbn [bind]; [|discriminate].
      apply apply_patterns_shape in Hed as (metrics & -> & Hm); [|reflexivity].
      intros [= <-]. exists metrics. split; [exact Hm|]. split; [discriminate|].
      unfold PyDict.get. reflexivity.
    + cbn [bind]. intros [= <-]. exists []. split; [reflexivity|]. split; [reflexivity|].
      unfold PyDict.get. reflexivity.
  - cbn [truthy String.eqb negb bind]. intros [= <-]. exists [].
    split; [reflexivity|]. split; [reflexivity|]. unfold PyDict.get. reflexivity.
Qed.

(** The fallback returns when the financial text is usable. *)
Lemma fallback_returns response :
  financial_text_usable response = true ->
  exists y, fallback_extraction response = Ok y.
Proof.
  unfold financial_text_usable, fallback_extraction, outcome_field, outcome_of.
  destruct (PyDict.get response KEY_DETAILED (PDict [])) as [| | | | |l|outcome];
    cbn [bind]; try (intros _; eexists; reflexivity).
  unfold PyDict.get.
  destruct (PyDict.lookup outcome "Financial Metrics") as [ft|] eqn:Hft.
  - intros Hu. destruct (truthy ft) eqn:Ht.
    + destruct ft; simpl in Hu; try discriminate.
      destruct (apply_patterns_text s patterns []
                  [("context", PDict outcome); ("competitor", PStr "");
                   ("contradictions", PStr ""); ("additional_context", PStr "")]) as [ed Hed].
      change (PyDict.set _ "context" (PDict outcome))
        with [("metrics", PDict []); ("context", PDict outcome); ("competitor", PStr "");
              ("contradictions", PStr ""); ("additional_context", PStr "")].
      rewrite Hed. cbn [bind]. eexists; reflexivity.
    + cbn [bind]. eexists; reflexivity.
  - cbn [truthy String.eqb negb bind]. eexists; reflexivity.
Qed.

End Fallback.

(** * The claims about [extract_metrics] and [fallback_extraction] *)

(** The decoded reply that is formatted without an exception. *)
Lemma format_result_ok (reply y : pyval) :
  format_result reply = Ok y ->
  exists d its,
    reply = PDict d /\
    y = PDict [ ("metrics", PDict (format_metrics its []));
                ("context", PyDict.get d "context" (PDict []));
                ("competitor", PyDict.get d "competitor" (PStr ""));
                ("contradictions", PyDict.get d "contradictions" (PStr ""));
                ("additional_context", PyDict.get d "additional_context" (PStr "")) ].
Proof.
  unfold format_result. destruct reply as [| | | | | |d]; try discriminate.
  destruct (PyDict.getitem (PDict d) "metrics") as [mv|]; cbn [bind]; [|discriminate].
  destruct (PyDict.items mv) as [its|]; cbn [bind]; [|discriminate].
  intros [= <-]. eauto.
Qed.

(** The same, with the metrics of the reply that are formatted. *)
Lemma format_result_metrics (reply y : pyval) :
  format_result reply = Ok y ->
  exists d its,
    reply = PDict d /\
    PyDict.lookup d "metrics" = Some (PDict its) /\
    y = PDict [ ("metrics", PDict (format_metrics its []));
                ("context", PyDict.get d "context" (PDict []));
                ("competitor", PyDict.get d "competitor" (PStr ""));
                ("contradictions", PyDict.get d "contradictions" (PStr ""));
                ("additional_context", PyDict.get d "additional_context" (PStr "")) ].
Proof.
  unfold format_result. destruct reply as [| | | | | |d]; try discriminate.
  cbn [PyDict.getitem].
  destruct (PyDict.lookup d "metrics") as [mv|] eqn:Hm; cbn [bind]; [|discriminate].
  destruct mv as [| | | | | |its]; try discriminate.
  cbn [PyDict.items bind]. intros [= <-]. exists d, its. auto.
Qed.

(** Whenever the [try] block of [extract_metrics] fails, be it in the
    call of the model, in decoding its reply or in formatting the
    decoded reply, [extract_metrics] does what [fallback_extraction]
    does on the same record: it returns what the fallback returns and
    raises what the fallback raises.  The exception of the [try] block
    itself does not reach the caller. *)
Lemma extract_metrics_falls_back
    (py_str : pyval -> string) (system_prompt : string)
    (format_user_prompt : string -> result string)
    (completion : string -> list (string * string) -> result pyval)
    (json_loads : string -> result pyval)
    (response : dict) (model : string) :
  let input_text := prepare_input_text py_str response in
  let call := call_model system_prompt format_user_prompt completion model input_text in
  (exists e, call = Raise e) \/
  (exists content e, call = Ok content /\ decode json_loads content = Raise e) \/
  (exists content reply e,
     call = Ok content /\ decode json_loads content = Ok reply /\
     format_result reply = Raise e) ->
  extract_metrics py_str system_prompt format_user_prompt completion json_loads
    response model = fallback_extraction response.
Proof.
  intros input_text call Hfail.
  unfold extract_metrics, structured_extraction.
  fold input_text. fold call.
  destruct Hfail as [[e He]|[(content & e & Hc & He)|(content & reply & e & Hc & Hd & He)]].
  - rewrite He. reflexivity.
  - rewrite Hc. cbn [bind]. rewrite He. reflexivity.
  - rewrite Hc. cbn [bind]. rewrite Hd. cbn [bind]. rewrite He. reflexivity.
Qed.

Lemma extract_metrics_falls_back_witness :
  extract_metrics (fun _ => "") "system" (fun text => Ok text)
    (fun _ _ => Raise (ExternalError "transport error")) (fun _ => Raise ValueError)
    [ (KEY_DETAILED, PDict [("Financial Metrics", PStr "Revenue of $1098.7 million")]) ]
    "gpt-4o-mini"
  = fallback_extraction
      [ (KEY_DETAILED, PDict [("Financial Metrics", PStr "Revenue of $1098.7 million")]) ].
Proof.
  apply (extract_metrics_falls_back (fun _ => "") "system" (fun text => Ok text)
           (fun _ _ => Raise (ExternalError "transport error")) (fun _ => Raise ValueError)).
  left. exists (ExternalError "transport error"). reflexivity.
Defined.

(** C4: the handler of [extract_metrics] calls [fallback_extraction]
    outside any [try], so that an exception of the fallback reaches
    the caller.  With a model call that fails and a record whose
    "Financial Metrics" subsection is a mapping, the search of the
    fallback raises [TypeError], and [extract_metrics] returns no
    result: it raises that [TypeError]. *)
Lemma extract_metrics_surfaces_type_error :
  extract_metrics (fun _ => "") "system" (fun text => Ok text)
    (fun _ _ => Raise (ExternalError "transport error")) (fun _ => Raise ValueError)
    [ (KEY_DETAILED,
        PDict [("Financial Metrics", PDict [("Revenue", PStr "$1098.7 million")])]) ]
    "gpt-4o-mini"
  = Raise TypeError.
Proof. vm_compute. reflexivity. Qed.

(** C5, as stated, fails: the fallback passes the subsections of the
    record through as they are, and the success path the fields of the
    reply; a record whose "Competitor Analysis" is a list gives a
    result whose [competitor] is that list, not a string, and a reply
    whose [competitor] is null gives a result whose [competitor] is
    [None]. *)
Lemma result_shape_counterexample :
  bind (fallback_extraction
          [ (KEY_DETAILED,
              PDict [("Competitor Analysis", PList [PStr "Acme"; PStr "Globex"])]) ])
       (fun y => Ok (field y "competitor", claimed_shape y))
    = Ok (PList [PStr "Acme"; PStr "Globex"], false) /\
  bind (format_result (PDict [("metrics", PDict []); ("competitor", PNone)]))
       (fun y => Ok (field y "competitor", claimed_shape y))
    = Ok (PNone, false).
Proof. split; vm_compute; reflexivity. Qed.

(** C5, amended: the result of the success path and the result of the
    fallback are both mappings with exactly the five keys [metrics],
    [context], [competitor], [contradictions], [additional_context], in
    this order; [metrics] is a mapping in both (of strings in the
    fallback) and [context] is a mapping in the fallback.  The other
    fields are passed through unchanged, on the success path from the
    reply that the model call returned and [json.loads] decoded, and in
    the fallback from the record, with the empty mapping or the empty
    string when absent; they are strings when their sources are. *)
Theorem result_shape
    (system_prompt : string)
    (format_user_prompt : string -> result string)
    (completion : string -> list (string * string) -> result pyval)
    (json_loads : string -> result pyval)
    (response : dict) (model input_text : string) (y1 y2 : pyval) :
  structured_extraction system_prompt format_user_prompt completion json_loads
    model input_text = Ok y1 ->
  fallback_extraction response = Ok y2 ->
  (has_result_keys y1 = true /\ has_result_keys y2 = true) /\
  (is_dict (field y1 "metrics") = true /\ is_dict (field y2 "metrics") = true /\
   str_values (field y2 "metrics") = true /\ is_dict (field y2 "context") = true) /\
  (exists content reply,
     call_model system_prompt format_user_prompt completion model input_text = Ok content /\
     decode json_loads content = Ok reply /\
     (exists metrics,
        reply_field reply "metrics" PNone = PDict metrics /\
        field y1 "metrics" = PDict (format_metrics metrics [])) /\
     field y1 "context" = reply_field reply "context" (PDict []) /\
     field y1 "competitor" = reply_field reply "competitor" (PStr "") /\
     field y1 "contradictions" = reply_field reply "contradictions" (PStr "") /\
     field y1 "additional_context" = reply_field reply "additional_context" (PStr "")) /\
  (field y2 "context" = outcome_context response /\
   field y2 "competitor" = outcome_text response "Competitor Analysis" /\
   field y2 "contradictions" = outcome_text response "Contradictory Analysis" /\
   field y2 "additional_context" = PyDict.get response KEY_ADDITIONAL (PStr "")).
Proof.
  unfold structured_extraction. intros H1 H2.
  destruct (call_model _ _ _ _ _) as [content|] eqn:Hc; cbn [bind] in H1; [|discriminate].
  destruct (decode json_loads content) as [reply|] eqn:Hd; cbn [bind] in H1; [|discriminate].
  apply format_result_metrics in H1 as (d & its & -> & Hits & ->).
  apply fallback_result in H2 as (metrics & Hm & _ & ->).
  split; [split; reflexivity|].
  split; [repeat split; try reflexivity; try exact Hm|].
  - unfold outcome_context. destruct (outcome_of response); reflexivity.
  - split; [|repeat split; reflexivity].
    exists content, (PDict d). split; [reflexivity|]. split; [exact Hd|].
    split; [|repeat split; reflexivity].
    exists its. cbn [reply_field]. unfold PyDict.get. rewrite Hits.
    split; reflexivity.
Qed.

Lemma result_shape_witness :
  exists y1 y2,
    format_result (PDict [("metrics", PDict [("gross_profit_margin", PStr "30.04%");
                                             ("current_ratio", PNone)])]) = Ok y1 /\
    fallback_extraction [ (KEY_ADDITIONAL, PStr "none") ] = Ok y2 /\
    has_result_keys y1 = true /\ has_result_keys y2 = true /\
    field y1 "metrics" = PDict [("Gross Profit Margin", PStr "30.04%")].
Proof.
  eexists. eexists. split; [reflexivity|]. split; [reflexivity|].
  pose proof (result_shape "system" (fun text => Ok text)
                (fun _ _ => Ok (PStr "reply"))
                (fun _ => Ok (PDict [("metrics", PDict [("gross_profit_margin", PStr "30.04%");
                                                         ("current_ratio", PNone)])]))
                [ (KEY_ADDITIONAL, PStr "none") ] "gpt-4o-mini" "text" _ _
                eq_refl eq_refl) as [[H1 H2] _].
  split; [exact H1|]. split; [exact H2|]. reflexivity.
Defined.

(** C6: [fallback_extraction] checks that the detailed outcome is a
    mapping, but not that its "Financial Metrics" subsection is text:
    when the subsection is a nested mapping, a list or a number, the
    regular-expression search raises [TypeError] and so does
    [fallback_extraction], which was to return a result for every
    record. *)
Lemma fallback_raises_type_error :
  fallback_extraction
    [ (KEY_DETAILED,
        PDict [("Financial Metrics", PDict [("Revenue", PStr "$1098.7 million")])]) ]
    = Raise TypeError /\
  fallback_extraction
    [ (KEY_DETAILED, PDict [("Financial Metrics", PList [PStr "Revenue: $5 million"])]) ]
    = Raise TypeError /\
  fallback_extraction [ (KEY_DETAILED, PDict [("Financial Metrics", PInt 5)]) ]
    = Raise TypeError.
Proof. repeat split; vm_compute; reflexivity. Qed.

(** On every record whose "Financial Metrics" subsection is text,
    empty or absent, [fallback_extraction] returns without an
    exception (it takes nothing but the record: no external call).
    When the detailed-outcome section is absent, [metrics] and
    [context] are the empty mapping and [competitor] and
    [contradictions] the empty string; when "Financial Metrics" is
    absent, [metrics] is the empty mapping; when "Competitor Analysis"
    or "Contradictory Analysis" is absent, the field is the empty
    string; when the additional-context section is absent,
    [additional_context] is the empty string. *)
Lemma fallback_never_raises_on_text (response : dict) :
  financial_text_usable response = true ->
  exists y,
    fallback_extraction response = Ok y /\
    has_result_keys y = true /\
    (PyDict.lookup response KEY_DETAILED = None ->
     field y "metrics" = PDict [] /\ field y "context" = PDict [] /\
     field y "competitor" = PStr "" /\ field y "contradictions" = PStr "") /\
    (outcome_field response "Financial Metrics" = None -> field y "metrics" = PDict []) /\
    (outcome_field response "Competitor Analysis" = None -> field y "competitor" = PStr "") /\
    (outcome_field response "Contradictory Analysis" = None ->
     field y "contradictions" = PStr "") /\
    (PyDict.lookup response KEY_ADDITIONAL = None -> field y "additional_context" = PStr "").
Proof.
  intros Hu. destruct (fallback_returns response Hu) as [y Hy].
  exists y. split; [exact Hy|].
  apply fallback_result in Hy as (metrics & Hm & Hnone & ->).
  split; [reflexivity|].
  assert (Hfm : outcome_field response "Financial Metrics" = None ->
                field (PDict [ ("metrics", PDict metrics);
                               ("context", outcome_context response);
                               ("competitor", outcome_text response "Competitor Analysis");
                               ("contradictions", outcome_text response "Contradictory Analysis");
                               ("additional_context",
                                 PyDict.get response KEY_ADDITIONAL (PStr "")) ]) "metrics"
                = PDict []).
  { intros H. rewrite (Hnone H). reflexivity. }
  split; [|split; [exact Hfm|]].
  - intros Hd.
    assert (Ho : outcome_of response = Some []).
    { unfold outcome_of, PyDict.get. rewrite Hd. reflexivity. }
    assert (Hf : forall k, outcome_field response k = None).
    { intros k. unfold outcome_field. rewrite Ho. reflexivity. }
    split; [apply Hfm, Hf|].
    cbn. unfold outcome_context, outcome_text. rewrite Ho, !Hf. repeat split; reflexivity.
  - cbn. unfold outcome_text.
    split; [intros ->; reflexivity|]. split; [intros ->; reflexivity|].
    unfold PyDict.get. intros ->. reflexivity.
Qed.

Lemma fallback_never_raises_on_text_witness :
  exists y,
    fallback_extraction
      [ (KEY_DETAILED, PDict [("Financial Metrics", PStr "Revenue of $1098.7 million")]) ]
      = Ok y /\
    field y "metrics" = PDict [("Revenue", PStr "$1098.7 million")] /\
    field y "competitor" = PStr "".
Proof.
  destruct (fallback_never_raises_on_text
              [ (KEY_DETAILED, PDict [("Financial Metrics", PStr "Revenue of $1098.7 million")]) ]
              eq_refl) as (y & Hy & _ & _ & _ & Hc & _).
  exists y. split; [exact Hy|]. split; [|apply Hc; reflexivity].
  vm_compute in Hy. injection Hy as <-. reflexivity.
Defined.

(** * The round trip through [str] *)

Section Exact.

Lemma digits2_size (p : positive) : digits2_pos p = Pos.size p.
Proof. induction p; simpl; congruence. Qed.

Lemma Zdigits2_log2 (p : positive) : Zdigits2 (Zpos p) = Z.log2 (Zpos p) + 1.
Proof.
  simpl. rewrite digits2_size. destruct p; simpl; try reflexivity; lia.
Qed.

Lemma Zdigits2_mul_pow2 (p : positive) (n : Z) :
  0 <= n -> Zdigits2 (Zpos p * 2 ^ n) = Zdigits2 (Zpos p) + n.
Proof.
  intros Hn.
  assert (Hpos : 0 < Zpos p * 2 ^ n) by (apply Z.mul_pos_pos; [lia|apply Z.pow_pos_nonneg; lia]).
  destruct (Zpos p * 2 ^ n) as [|q|q] eqn:Hq; try lia.
  rewrite !Zdigits2_log2, <- Hq, Z.log2_mul_pow2 by lia. lia.
Qed.

Lemma iter_pos_nat {A : Type} (f : A -> A) (p : positive) (x : A) :
  SpecFloat.iter_pos f p x = Nat.iter (Pos.to_nat p) f x.
Proof.
  revert x. induction p as [p IH|p IH|]; intros x; cbn [SpecFloat.iter_pos].
  - rewrite !IH, Pos2Nat.inj_xI.
    replace (S (2 * Pos.to_nat p)) with (Pos.to_nat p + S (Pos.to_nat p))%nat by lia.
    rewrite Nat.iter_add, Nat.iter_succ_r. reflexivity.
  - rewrite !IH, Pos2Nat.inj_xO.
    replace (2 * Pos.to_nat p)%nat with (Pos.to_nat p + Pos.to_nat p)%nat by lia.
    rewrite Nat.iter_add. reflexivity.
  - reflexivity.
Qed.

(** Shifting out zeros loses nothing. *)
Lemma shr_exact_nat (n : nat) (q : positive) :
  Nat.iter n shr_1 {| shr_m := Zpos q * 2 ^ Z.of_nat n; shr_r := false; shr_s := false |} =
  {| shr_m := Zpos q; shr_r := false; shr_s := false |}.
Proof.
  revert q. induction n as [|n IH]; intros q.
  - simpl. rewrite Z.mul_1_r. reflexivity.
  - rewrite Nat.iter_succ.
    replace (Zpos q * 2 ^ Z.of_nat (S n)) with (Zpos q~0 * 2 ^ Z.of_nat n).
    + rewrite IH. reflexivity.
    + rewrite Nat2Z.inj_succ, Z.pow_succ_r by lia. lia.
Qed.

Lemma shr_exact (p q : positive) :
  SpecFloat.iter_pos shr_1 p {| shr_m := Zpos q * 2 ^ Zpos p; shr_r := false; shr_s := false |} =
  {| shr_m := Zpos q; shr_r := false; shr_s := false |}.
Proof.
  rewrite iter_pos_nat, <- (positive_nat_Z p). apply shr_exact_nat.
Qed.

Lemma fexp_mono (a b : Z) : a <= b -> fexp prec emax a <= fexp prec emax b.
Proof. unfold fexp. lia. Qed.

(** A value that is a float already is rounded to itself. *)
Lemma round_aux_exact (neg : bool) (m : positive) (e q e' : Z) :
  bounded prec emax m e = true ->
  e' <= e ->
  q = Zpos m * 2 ^ (e - e') ->
  binary_round_aux prec emax neg q e' loc_Exact = S754_finite neg m e.
Proof.
  intros Hb He Hq. unfold bounded, canonical_mantissa in Hb.
  apply andb_prop in Hb as [Hc Hmax].
  apply Z.eqb_eq in Hc. apply Z.leb_le in Hmax.
  assert (Hdq : Zdigits2 q = Zdigits2 (Zpos m) + (e - e')).
  { subst q. apply Zdigits2_mul_pow2. lia. }
  unfold binary_round_aux, shr_fexp. rewrite Hdq.
  replace (Zdigits2 (Zpos m) + (e - e') + e') with (Zpos (digits2_pos m) + e) by (simpl; lia).
  rewrite Hc. simpl shr_record_of_loc.
  assert (Hshr : shr {| shr_m := q; shr_r := false; shr_s := false |} e' (e - e') =
                 ({| shr_m := Zpos m; shr_r := false; shr_s := false |}, e)).
  { unfold shr. subst q. destruct (e - e') as [|p|p] eqn:Hd; try lia.
    - rewrite Z.pow_0_r, Z.mul_1_r. f_equal. lia.
    - rewrite shr_exact. f_equal. lia. }
  rewrite Hshr. simpl shr_m. simpl loc_of_shr_record. simpl round_nearest_even.
  change (Zdigits2 (Zpos m)) with (Zpos (digits2_pos m)).
  rewrite Hc, Z.sub_diag. simpl.
  apply Z.leb_le in Hmax. rewrite Hmax. reflexivity.
Qed.

Lemma bounded_canonical (m : positive) (e : Z) :
  bounded prec emax m e = true ->
  fexp prec emax (Zdigits2 (Zpos m) + e) = e /\ e <= 971.
Proof.
  unfold bounded, canonical_mantissa. intros Hb.
  apply andb_prop in Hb as [Hc Hmax].
  apply Z.eqb_eq in Hc. apply Z.leb_le in Hmax. split; [exact Hc|exact Hmax].
Qed.

(** An integer that is a float converts to itself. *)
Lemma of_decimal_exact_int (neg : bool) (m : positive) (e : Z) :
  bounded prec emax m e = true ->
  0 <= e ->
  of_decimal neg (Zpos m * 2 ^ e) 0 = S754_finite neg m e.
Proof.
  intros Hb He. destruct (bounded_canonical m e Hb) as [Hc _].
  assert (Hpos : 0 < Zpos m * 2 ^ e) by (apply Z.mul_pos_pos; [lia|apply Z.pow_pos_nonneg; lia]).
  pose proof (Zdigits2_mul_pow2 m e He) as Hd.
  destruct (Zpos m * 2 ^ e) as [|P|P] eqn:HP; try lia.
  unfold of_decimal. change (0 <=? 0) with true. cbv iota.
  change (Z.to_pos (10 ^ 0)) with 1%positive. rewrite Pos.mul_1_r.
  unfold binary_round, shl_align.
  change (Zpos (digits2_pos P)) with (Zdigits2 (Zpos P)).
  rewrite Hd, Z.add_0_r.
  replace (Zdigits2 (Zpos m)) with (Zdigits2 (Zpos m) + e - e) by lia.
  replace (Zdigits2 (Zpos m) + e - e + e) with (Zdigits2 (Zpos m) + e) by lia.
  rewrite Hc, Z.sub_0_r.
  assert (Hmatch : match e with Zneg d => (Pos.iter xO P d, e) | _ => (P, 0) end = (P, 0)).
  { destruct e; try reflexivity; lia. }
  rewrite Hmatch.
  apply round_aux_exact; [exact Hb|exact He|]. rewrite Z.sub_0_r. congruence.
Qed.

Lemma div_eucl_exact (a b : Z) : 0 < b -> Z.div_eucl (a * b) b = (a, 0).
Proof.
  intros Hb.
  pose proof (Z.div_eucl_eq (a * b) b ltac:(lia)) as Heq.
  pose proof (Z.mod_pos_bound (a * b) b Hb) as Hr.
  unfold Z.modulo in Hr.
  destruct (Z.div_eucl (a * b) b) as [q r]. 
  assert (r = 0 /\ q = a) as [-> ->]; [|reflexivity].
  assert (Hdiv : (a - q) * b = r) by lia.
  assert (a - q = 0) by nia. split; nia.
Qed.

(** A dyadic fraction that is a float converts to itself from its
    exact decimal. *)
Lemma of_decimal_exact_frac (neg : bool) (m : positive) (e : Z) :
  bounded prec emax m e = true ->
  e < 0 ->
  of_decimal neg (Zpos m * 5 ^ (- e)) e = S754_finite neg m e.
Proof.
  intros Hb He. destruct (bounded_canonical m e Hb) as [Hc _].
  set (k := - e). assert (Hk : 0 < k) by (unfold k; lia).
  assert (H5 : 0 < 5 ^ k) by (apply Z.pow_pos_nonneg; lia).
  assert (H2 : 0 < 2 ^ k) by (apply Z.pow_pos_nonneg; lia).
  assert (H10 : 10 ^ k = 5 ^ k * 2 ^ k) by (rewrite <- Z.pow_mul_l; reflexivity).
  assert (Hpos : 0 < Zpos m * 5 ^ k) by (apply Z.mul_pos_pos; lia).
  destruct (Zpos m * 5 ^ k) as [|P|P] eqn:HP; try lia.
  unfold of_decimal.
  replace (0 <=? e) with false by (symmetry; apply Z.leb_gt; exact He).
  fold k. unfold SFdiv_core_binary.
  rewrite !Z.add_0_r, Z.sub_diag. 
  set (d1 := Zdigits2 (Zpos P)). set (d2 := Zdigits2 (10 ^ k)).
  assert (Hle : fexp prec emax (d1 - d2) <= e).
  { apply Z.le_trans with (fexp prec emax (Zdigits2 (Zpos m) + e)); [|lia].
    apply fexp_mono.
    assert (Hd1 : d1 <= Zdigits2 (Zpos m) + Z.log2 (5 ^ k) + 1).
    { unfold d1. rewrite !Zdigits2_log2, <- HP.
      pose proof (Z.log2_mul_above (Zpos m) (5 ^ k) ltac:(lia) ltac:(lia)). lia. }
    assert (Hd2 : d2 = Z.log2 (5 ^ k) + k + 1).
    { unfold d2. rewrite H10.
      assert (H5k : 0 < 5 ^ k * 2 ^ k) by lia.
      destruct (5 ^ k * 2 ^ k) as [|Q|Q] eqn:HQ; try lia.
      rewrite Zdigits2_log2, <- HQ, Z.log2_mul_pow2 by lia. lia. }
    unfold k in *. lia. }
  set (e' := Z.min (fexp prec emax (d1 - d2)) 0).
  assert (He' : e' <= e) by (unfold e'; lia).
  replace (0 - e') with (- e') by lia.
  destruct (- e') as [|s|s] eqn:Hs; try lia.
  rewrite Z.shiftl_mul_pow2 by lia.
  replace (Zpos P * 2 ^ Zpos s) with (Zpos m * 2 ^ (e - e') * 10 ^ k).
  - rewrite div_eucl_exact by lia.
    replace (new_location (10 ^ k) 0) with loc_Exact.
    + apply round_aux_exact; [exact Hb|exact He'|reflexivity].
    + unfold new_location, new_location_even, new_location_odd.
      destruct (Z.even (10 ^ k)); reflexivity.
  - rewrite <- HP, <- Hs, H10.
    replace (- e') with ((e - e') + k) by (unfold k; lia).
    rewrite Z.pow_add_r by lia. ring.
Qed.

End Exact.

Section Lexical.

Lemma plain_app (a b : string) : plain (a +:+ b) = plain a && plain b.
Proof.
  induction a as [|c a IH]; simpl; [reflexivity|].
  rewrite IH. apply andb_assoc.
Qed.

Lemma digit_char_spec (d : Z) :
  0 <= d < 10 ->
  is_digit (digit_char d) = true /\ code (digit_char d) - 48 = d /\
  plain_char (digit_char d) = true.
Proof.
  intros Hd.
  assert (d = 0 \/ d = 1 \/ d = 2 \/ d = 3 \/ d = 4 \/ d = 5 \/ d = 6 \/ d = 7 \/
          d = 8 \/ d = 9) as Hcases by lia.
  repeat (destruct Hcases as [->|Hcases]; [repeat split; reflexivity|]).
  subst d. repeat split; reflexivity.
Qed.

Lemma plain_decimal_fuel (fuel : nat) (z : Z) (acc : string) :
  plain acc = true -> plain (decimal_fuel fuel z acc) = true.
Proof.
  revert z acc. induction fuel as [|fuel IH]; intros z acc Hacc; simpl; [exact Hacc|].
  assert (Hp : plain (String (digit_char (z mod 10)) acc) = true).
  { simpl. rewrite Hacc.
    destruct (digit_char_spec (z mod 10)) as (_ & _ & ->); [|reflexivity].
    apply Z.mod_pos_bound. lia. }
  destruct (z <? 10); [exact Hp|apply IH, Hp].
Qed.

Lemma plain_decimal (z : Z) : plain (decimal z) = true.
Proof. apply plain_decimal_fuel. reflexivity. Qed.

Lemma plain_zeros (n : nat) : plain (zeros n) = true.
Proof. induction n; simpl; [reflexivity|exact IHn]. Qed.

Lemma plain_substring (s : string) (i n : nat) :
  plain s = true -> plain (String.substring i n s) = true.
Proof.
  revert i n. induction s as [|c s IH]; intros i n Hs.
  - destruct i, n; reflexivity.
  - simpl in Hs. apply andb_prop in Hs as [Hc Hs].
    destruct i as [|i]; simpl.
    + destruct n as [|n]; [reflexivity|]. simpl. rewrite Hc. apply IH, Hs.
    + apply IH, Hs.
Qed.

Lemma plain_format_short (ds : string) (decpt : Z) :
  plain ds = true -> plain (format_short ds decpt) = true.
Proof.
  intros Hds. unfold format_short.
  destruct ((-4 <? decpt) && (decpt <=? 16)).
  - destruct (decpt <=? 0); [|destruct (_ <=? decpt)];
      rewrite !plain_app, ?plain_zeros, ?Hds, ?plain_substring by exact Hds; reflexivity.
  - rewrite !plain_app, plain_decimal.
    assert (Hm : plain match ds with
                       | String c EmptyString => ds
                       | String c r => String c ("." +:+ r)
                       | EmptyString => ds
                       end = true).
    { destruct ds as [|c [|c' r]]; exact Hds. }
    rewrite Hm. destruct (decpt - 1 <? 0); destruct (Z.abs (decpt - 1) <? 10); reflexivity.
Qed.

Lemma plain_format_candidate (c : Z * Z) : plain (format_candidate c) = true.
Proof.
  unfold format_candidate. destruct (strip_zeros 20 (fst c) (snd c)) as [d k].
  apply plain_format_short, plain_decimal.
Qed.

Lemma plain_candidates (fuel : nat) (num den decpt n : Z) :
  Forall (fun s => plain s = true) (candidates fuel num den decpt n).
Proof.
  revert n. induction fuel as [|fuel IH]; intros n; simpl; [constructor|].
  apply Forall_app. split; [|apply IH].
  apply Forall_forall. intros s Hs. apply list_elem_of_In, in_map_iff in Hs as (c & <- & _).
  apply plain_format_candidate.
Qed.

Lemma plain_exact_text (m : positive) (e : Z) : plain (exact_text m e) = true.
Proof.
  unfold exact_text. destruct (0 <=? e); rewrite !plain_app, !plain_decimal; reflexivity.
Qed.

Lemma plain_char_props (c : ascii) :
  plain_char c = true ->
  Ascii.eqb c "&" = false /\ Ascii.eqb "," c = false /\ Ascii.eqb "_" c = false /\
  Ascii.eqb c "_" = false /\ is_space c = false.
Proof.
  destruct c as [[] [] [] [] [] [] [] []]; intros H; try discriminate H;
    repeat split; reflexivity.
Qed.

Lemma plain_no_ampersand (s : string) :
  plain s = true -> Spec.after_first "&" s = None.
Proof.
  induction s as [|c s IH]; [reflexivity|].
  cbn [plain Spec.after_first]. intros Hs. apply andb_prop in Hs as [Hc Hs].
  destruct (plain_char_props c Hc) as (-> & _). apply IH, Hs.
Qed.

Lemma plain_replace (s : string) :
  plain s = true -> replace "," "" s = s /\ replace "_" "" s = s.
Proof.
  induction s as [|c s IH]; [split; reflexivity|].
  cbn [plain replace]. intros Hs. apply andb_prop in Hs as [Hc Hs].
  destruct (plain_char_props c Hc) as (_ & -> & -> & _).
  destruct (IH Hs) as [-> ->]. split; reflexivity.
Qed.

Lemma plain_underscores_ok (s : string) (prev : option ascii) :
  plain s = true ->
  match prev with Some p => Ascii.eqb p "_" = false | None => True end ->
  underscores_ok prev s = true.
Proof.
  revert prev. induction s as [|c s IH]; intros prev Hs Hprev; cbn [underscores_ok].
  - destruct prev as [p|]; [rewrite Hprev|]; reflexivity.
  - cbn [plain] in Hs. apply andb_prop in Hs as [Hc Hs].
    destruct (plain_char_props c Hc) as (_ & _ & _ & Hu & _). rewrite Hu.
    assert (Hnp : match prev with Some p => Ascii.eqb p "_" | None => false end = false).
    { destruct prev; [exact Hprev|reflexivity]. }
    rewrite Hnp. simpl. apply IH; [exact Hs|exact Hu].
Qed.

Lemma plain_strip (s : string) : plain s = true -> strip s = s.
Proof.
  intros Hs. unfold strip.
  assert (Hl : lstrip s = s).
  { destruct s as [|c s]; [reflexivity|]. cbn [plain lstrip] in *.
    apply andb_prop in Hs as [Hc _].
    destruct (plain_char_props c Hc) as (_ & _ & _ & _ & ->). reflexivity. }
  rewrite Hl. clear Hl. induction s as [|c s IH]; [reflexivity|].
  cbn [plain rstrip] in *. apply andb_prop in Hs as [Hc Hs]. rewrite (IH Hs).
  destruct (plain_char_props c Hc) as (_ & _ & _ & _ & ->).
  destruct s; reflexivity.
Qed.

(** On plain text [float] is the parser alone. *)
Lemma float_of_str_plain (s : string) :
  plain s = true ->
  float_of_str s = match parse s with Some f => Ok f | None => Raise ValueError end.
Proof.
  intros Hs. unfold float_of_str.
  rewrite (plain_underscores_ok s None Hs I). simpl negb. cbv iota.
  destruct (plain_replace s Hs) as [_ ->]. rewrite (plain_strip s Hs). reflexivity.
Qed.

(** On plain text [safe_float] is [float]. *)
Lemma safe_float_plain (s : string) :
  plain s = true -> DataUtils.safe_float s = Ok (Spec.to_option (float_of_str s)).
Proof.
  intros Hs. rewrite safe_float_spec. unfold Spec.normalize, Spec.numeric_candidate.
  rewrite (plain_no_ampersand s Hs). destruct (plain_replace s Hs) as [-> _]. reflexivity.
Qed.

(** Reading the decimal digits of a number gives the number. *)
Lemma append_cons (c : ascii) (a b : string) : String c a +:+ b = String c (a +:+ b).
Proof. reflexivity. Qed.

Lemma append_empty_r (s : string) : s +:+ "" = s.
Proof.
  induction s as [|c s IH]; [reflexivity|]. rewrite append_cons, IH. reflexivity.
Qed.

Lemma read_digits_cons (acc n : Z) (c : ascii) (r : string) :
  read_digits acc n (String c r) =
  if is_digit c then read_digits (10 * acc + (code c - 48)) (n + 1) r
  else (acc, n, String c r).
Proof. reflexivity. Qed.

Lemma read_decimal_fuel (fuel : nat) (z : Z) (acc : string) (n : Z) :
  0 <= z < 10 ^ Z.of_nat (S fuel) ->
  exists n', n < n' /\
    forall rest, read_digits 0 n (decimal_fuel (S fuel) z acc +:+ rest) =
                 read_digits z n' (acc +:+ rest).
Proof.
  revert z acc n. induction fuel as [|fuel IH]; intros z acc n Hz;
    cbn [decimal_fuel];
    assert (Hd : 0 <= z mod 10 < 10) by (apply Z.mod_pos_bound; lia);
    destruct (digit_char_spec (z mod 10) Hd) as (Hdig & Hcode & _);
    destruct (z <? 10) eqn:Hlt.
  - apply Z.ltb_lt in Hlt. exists (n + 1). split; [lia|]. intros rest.
    rewrite append_cons, read_digits_cons, Hdig, Hcode.
    rewrite Z.mod_small by lia. reflexivity.
  - apply Z.ltb_ge in Hlt. change (10 ^ Z.of_nat 1) with 10 in Hz. lia.
  - apply Z.ltb_lt in Hlt. exists (n + 1). split; [lia|]. intros rest.
    rewrite append_cons, read_digits_cons, Hdig, Hcode.
    rewrite Z.mod_small by lia. reflexivity.
  - apply Z.ltb_ge in Hlt.
    assert (Hq : 0 <= z / 10 < 10 ^ Z.of_nat (S fuel)).
    { rewrite (Nat2Z.inj_succ (S fuel)), Z.pow_succ_r in Hz by lia.
      split; [apply Z.div_pos; lia|apply Z.div_lt_upper_bound; lia]. }
    destruct (IH (z / 10) (String (digit_char (z mod 10)) acc) n Hq) as (n' & Hn' & Hread).
    exists (n' + 1). split; [lia|]. intros rest.
    rewrite Hread.
    rewrite append_cons, read_digits_cons, Hdig, Hcode.
    replace (10 * (z / 10) + z mod 10) with z
      by (pose proof (Z.div_mod z 10 ltac:(lia)); lia).
    reflexivity.
Qed.

Lemma read_decimal (z : Z) (rest : string) :
  0 <= z ->
  match rest with String c _ => is_digit c = false | EmptyString => True end ->
  exists n, 0 < n /\ read_digits 0 0 (decimal z +:+ rest) = (z, n, rest).
Proof.
  intros Hz Hrest. unfold decimal.
  destruct (read_decimal_fuel (Z.to_nat (Z.log2 z)) z "" 0) as (n & Hn & Hread).
  - split; [exact Hz|].
    rewrite Nat2Z.inj_succ, Z2Nat.id by apply Z.log2_nonneg.
    destruct (Z.eq_dec z 0) as [->|Hne]; [reflexivity|].
    destruct (Z.log2_spec z ltac:(lia)) as [_ Hlog].
    apply Z.lt_le_trans with (1 := Hlog).
    apply Z.pow_le_mono_l. lia.
  - exists n. split; [exact Hn|]. rewrite Hread. simpl String.append.
    destruct rest as [|c r]; [reflexivity|]. simpl. rewrite Hrest. reflexivity.
Qed.

Lemma read_sign_digit (c : ascii) (r : string) :
  is_digit c = true -> read_sign (String c r) = (false, String c r).
Proof.
  destruct c as [[] [] [] [] [] [] [] []]; intros H; try discriminate H; reflexivity.
Qed.

Lemma decimal_starts_with_digit (z : Z) (rest : string) :
  0 <= z ->
  match rest with String c _ => is_digit c = false | EmptyString => True end ->
  exists c r, decimal z +:+ rest = String c r /\ is_digit c = true.
Proof.
  intros Hz Hrest. destruct (read_decimal z rest Hz Hrest) as (n & Hn & Hread).
  destruct (decimal z +:+ rest) as [|c r].
  - simpl in Hread. injection Hread as _ Hn0 _. lia.
  - rewrite read_digits_cons in Hread. destruct (is_digit c) eqn:Hc; [eauto|].
    injection Hread as _ Hn0 _. lia.
Qed.

(** The number part and the exponent part of the exact text. *)
Lemma read_number_exact (neg : bool) (d k : Z) (tail : string) :
  0 <= d ->
  read_exponent (String "e" tail) = (k, "") ->
  read_number neg (decimal d +:+ String "e" tail) = Some (of_decimal neg d k).
Proof.
  intros Hd Hexp. unfold read_number.
  destruct (read_decimal d (String "e" tail) Hd eq_refl) as (n & Hn & ->).
  cbv beta iota zeta.
  replace (n + 0 =? 0) with false by (symmetry; apply Z.eqb_neq; lia).
  rewrite Hexp, Z.sub_0_r. reflexivity.
Qed.

Lemma read_exponent_zero : read_exponent "e0" = (0, "").
Proof. reflexivity. Qed.

Lemma read_exponent_minus (k : Z) :
  0 <= k -> read_exponent (String "e" (String "-" (decimal k))) = (- k, "").
Proof.
  intros Hk. unfold read_exponent.
  change (Ascii.eqb (lower_char "e") "e") with true. cbv iota.
  change (read_sign (String "-" (decimal k))) with (true, decimal k).
  cbv beta iota zeta.
  destruct (read_decimal k "" Hk I) as (n & Hn & Hread).
  rewrite append_empty_r in Hread. rewrite Hread.
  replace (n =? 0) with false by (symmetry; apply Z.eqb_neq; lia).
  reflexivity.
Qed.

Lemma parse_unsigned (neg : bool) (d k : Z) (tail : string) :
  0 <= d ->
  read_exponent (String "e" tail) = (k, "") ->
  parse ((if neg then "-" else "") +:+ decimal d +:+ String "e" tail) =
  Some (of_decimal neg d k).
Proof.
  intros Hd Hexp. unfold parse. destruct neg.
  - change ("-" +:+ decimal d +:+ String "e" tail)
      with (String "-" (decimal d +:+ String "e" tail)).
    change (read_sign (String "-" (decimal d +:+ String "e" tail)))
      with (true, decimal d +:+ String "e" tail).
    cbv beta iota zeta. rewrite (read_number_exact true d k tail Hd Hexp). reflexivity.
  - change ("" +:+ decimal d +:+ String "e" tail) with (decimal d +:+ String "e" tail).
    destruct (decimal_starts_with_digit d (String "e" tail) Hd eq_refl) as (c & r & Heq & Hc).
    pose proof (read_number_exact false d k tail Hd Hexp) as Hnum.
    rewrite Heq in *. rewrite (read_sign_digit c r Hc).
    cbv beta iota zeta. rewrite Hnum. reflexivity.
Qed.

(** The exact text of a float is read back as the float. *)
Lemma float_of_exact_text (neg : bool) (m : positive) (e : Z) :
  bounded prec emax m e = true ->
  float_of_str ((if neg then "-" else "") +:+ exact_text m e) = Ok (S754_finite neg m e).
Proof.
  intros Hb. rewrite float_of_str_plain.
  - unfold exact_text. destruct (0 <=? e) eqn:He.
    + apply Z.leb_le in He.
      change (decimal (Zpos m * 2 ^ e) +:+ "e0")
        with (decimal (Zpos m * 2 ^ e) +:+ String "e" "0").
      rewrite (parse_unsigned neg _ 0 "0"); [|apply Z.mul_nonneg_nonneg; [lia|apply Z.pow_nonneg; lia]|reflexivity].
      rewrite of_decimal_exact_int by assumption. reflexivity.
    + apply Z.leb_gt in He.
      change (decimal (Zpos m * 5 ^ (- e)) +:+ "e-" +:+ decimal (- e))
        with (decimal (Zpos m * 5 ^ (- e)) +:+ String "e" (String "-" (decimal (- e)))).
      rewrite (parse_unsigned neg _ (- - e) (String "-" (decimal (- e))));
        [|apply Z.mul_nonneg_nonneg; [lia|apply Z.pow_nonneg; lia]
         |apply read_exponent_minus; lia].
      rewrite Z.opp_involutive, of_decimal_exact_frac by assumption. reflexivity.
  - rewrite plain_app, plain_exact_text. destruct neg; reflexivity.
Qed.

End Lexical.

Section RoundTrip.

Lemma same_float_eq (x y : float) : same_float x y = true -> x = y.
Proof.
  destruct x as [s|s| |s m e], y as [s'|s'| |s' m' e']; simpl; try discriminate.
  - intros H. apply Bool.eqb_prop in H. congruence.
  - intros H. apply Bool.eqb_prop in H. congruence.
  - reflexivity.
  - intros H. apply andb_prop in H as [H He]. apply andb_prop in H as [Hs Hm].
    apply Bool.eqb_prop in Hs. apply Pos.eqb_eq in Hm. apply Z.eqb_eq in He. congruence.
Qed.

Lemma reads_back_ok (x : float) (s : string) :
  reads_back x s = true -> float_of_str s = Ok x.
Proof.
  unfold reads_back. destruct (float_of_str s) as [y|]; [|discriminate].
  intros H. apply same_float_eq in H. congruence.
Qed.

(** The text of a finite float is plain and is read back as it. *)
Lemma shortest_text_ok (neg : bool) (m : positive) (e : Z) :
  bounded prec emax m e = true ->
  plain (shortest_text neg m e) = true /\
  float_of_str (shortest_text neg m e) = Ok (S754_finite neg m e).
Proof.
  intros Hb. unfold shortest_text. cbv zeta.
  destruct (find _ _) as [s|] eqn:Hfind.
  - apply find_some in Hfind as [Hin Hrb]. split; [|apply reads_back_ok, Hrb].
    apply in_map_iff in Hin as (c & <- & Hc).
    rewrite plain_app.
    match type of Hc with
    | In c (candidates ?f ?a ?b ?d ?n) =>
        pose proof (plain_candidates f a b d n) as Hall
    end.
    rewrite Forall_forall in Hall. rewrite (Hall c) by (apply list_elem_of_In, Hc).
    destruct neg; reflexivity.
  - split; [|apply float_of_exact_text, Hb].
    rewrite plain_app, plain_exact_text. destruct neg; reflexivity.
Qed.

(** [float(repr(x))] is [x]. *)
Lemma float_repr_reads_back (x : float) :
  valid_binary prec emax x = true -> float_of_str (float_repr x) = Ok x.
Proof.
  destruct x as [s|s| |s m e]; simpl valid_binary; intros Hv.
  - destruct s; vm_compute; reflexivity.
  - destruct s; vm_compute; reflexivity.
  - vm_compute; reflexivity.
  - apply shortest_text_ok, Hv.
Qed.

Lemma safe_float_repr (x : float) :
  valid_binary prec emax x = true -> DataUtils.safe_float (float_repr x) = Ok (Some x).
Proof.
  destruct x as [s|s| |s m e]; simpl valid_binary; intros Hv.
  - destruct s; vm_compute; reflexivity.
  - destruct s; vm_compute; reflexivity.
  - vm_compute; reflexivity.
  - destruct (shortest_text_ok s m e Hv) as [Hp Hf].
    unfold float_repr. rewrite (safe_float_plain _ Hp), Hf. reflexivity.
Qed.

End RoundTrip.

Section Validity.

Lemma Zdigits2_pos_log2 (z : Z) : 0 < z -> Zdigits2 z = Z.log2 z + 1.
Proof. destruct z as [|p|p]; try lia. intros _. apply Zdigits2_log2. Qed.

Lemma Zdigits2_nonneg (z : Z) : 0 <= Zdigits2 z.
Proof. destruct z; simpl; lia. Qed.

Lemma Zdigits2_bounds (z : Z) : 0 < z -> 2 ^ (Zdigits2 z - 1) <= z < 2 ^ Zdigits2 z.
Proof.
  intros Hz. rewrite Zdigits2_pos_log2 by exact Hz.
  replace (Z.log2 z + 1 - 1) with (Z.log2 z) by lia.
  replace (Z.log2 z + 1) with (Z.succ (Z.log2 z)) by lia.
  apply Z.log2_spec, Hz.
Qed.

(** The digits of a number between two powers of two. *)
Lemma Zdigits2_unique (z d : Z) : 0 < d -> 2 ^ (d - 1) <= z < 2 ^ d -> Zdigits2 z = d.
Proof.
  intros Hd Hz.
  assert (0 < z) by (pose proof (Z.pow_pos_nonneg 2 (d - 1)); lia).
  rewrite Zdigits2_pos_log2 by assumption.
  rewrite (Z.log2_unique z (d - 1)); [lia|lia|].
  replace (Z.succ (d - 1)) with d by lia. exact Hz.
Qed.

Lemma Zdigits2_le (a b : Z) : 0 <= a <= b -> Zdigits2 a <= Zdigits2 b.
Proof.
  intros [Ha Hab]. destruct (Z.eq_dec a 0) as [->|Hne]; [apply Zdigits2_nonneg|].
  rewrite !Zdigits2_pos_log2 by lia.
  pose proof (Z.log2_le_mono a b Hab). lia.
Qed.

Lemma Zdigits2_div_pow2 (z n : Z) :
  0 <= z -> 0 <= n -> Zdigits2 (z / 2 ^ n) = Z.max (Zdigits2 z - n) 0.
Proof.
  intros Hz Hn.
  assert (H2n : 0 < 2 ^ n) by (apply Z.pow_pos_nonneg; lia).
  destruct (Z.eq_dec z 0) as [->|Hne].
  - rewrite Z.div_0_l by lia. simpl. lia.
  - destruct (Zdigits2_bounds z ltac:(lia)) as [Hlo Hhi].
    pose proof (Zdigits2_nonneg z) as Hd.
    destruct (Z_lt_le_dec n (Zdigits2 z)) as [Hlt|Hge].
    + rewrite Z.max_l by lia. apply Zdigits2_unique; [lia|]. split.
      * apply Z.div_le_lower_bound; [lia|].
        rewrite <- Z.pow_add_r by lia.
        replace (n + (Zdigits2 z - n - 1)) with (Zdigits2 z - 1) by lia. exact Hlo.
      * apply Z.div_lt_upper_bound; [lia|].
        rewrite <- Z.pow_add_r by lia.
        replace (n + (Zdigits2 z - n)) with (Zdigits2 z) by lia. exact Hhi.
    + rewrite Z.max_r by lia.
      rewrite Z.div_small; [reflexivity|]. split; [lia|].
      apply Z.lt_le_trans with (1 := Hhi). apply Z.pow_le_mono_r; lia.
Qed.

Lemma shr_1_m (mrs : shr_record) : 0 <= shr_m mrs -> shr_m (shr_1 mrs) = shr_m mrs / 2.
Proof.
  destruct mrs as [m r s]. simpl. intros Hm.
  destruct m as [|[p|p|]|p]; simpl; try lia; try reflexivity.
  - rewrite Pos2Z.inj_xI. apply Z.div_unique with 1; lia.
  - rewrite Pos2Z.inj_xO. apply Z.div_unique with 0; lia.
Qed.

Lemma shr_iter_m (n : nat) (mrs : shr_record) :
  0 <= shr_m mrs ->
  shr_m (Nat.iter n shr_1 mrs) = shr_m mrs / 2 ^ Z.of_nat n.
Proof.
  intros Hm. induction n as [|n IH].
  - simpl. rewrite Z.div_1_r. reflexivity.
  - rewrite Nat.iter_succ, shr_1_m.
    + rewrite IH, Nat2Z.inj_succ, Z.pow_succ_r, Z.div_div by (try apply Z.pow_pos_nonneg; lia).
      f_equal. lia.
    + rewrite IH. apply Z.div_pos; [lia|apply Z.pow_pos_nonneg; lia].
Qed.

(** A right shift by [n >= 0] divides the mantissa and raises the
    exponent. *)
Lemma shr_spec (mrs : shr_record) (e n : Z) :
  0 <= shr_m mrs -> 0 <= n ->
  shr_m (fst (shr mrs e n)) = shr_m mrs / 2 ^ n /\ snd (shr mrs e n) = e + n.
Proof.
  intros Hm Hn. unfold shr. destruct n as [|p|p]; try lia.
  - simpl. rewrite Z.div_1_r. split; [reflexivity|lia].
  - cbn [fst snd]. rewrite iter_pos_nat, shr_iter_m, positive_nat_Z by exact Hm.
    split; reflexivity.
Qed.

Lemma shr_record_of_loc_m (m : Z) (l : location) : shr_m (shr_record_of_loc m l) = m.
Proof. destruct l as [|[]]; reflexivity. Qed.

Lemma fexp64_eq (z : Z) : fexp64 z = Z.max (z - 53) (-1074).
Proof. reflexivity. Qed.

(** The first shift leaves a mantissa that sits at its exponent. *)
Lemma shr_fexp_canonical (mx ex : Z) (lx : location) :
  0 <= mx ->
  ex <= fexp64 (Zdigits2 mx + ex) ->
  let '(mrs, e) := shr_fexp prec emax mx ex lx in
  0 <= shr_m mrs /\ fexp64 (Zdigits2 (shr_m mrs) + e) = e.
Proof.
  intros Hm Hex. unfold shr_fexp.
  set (n := fexp prec emax (Zdigits2 mx + ex) - ex).
  assert (Hn : 0 <= n) by (unfold n, fexp64 in *; lia).
  pose proof (shr_spec (shr_record_of_loc mx lx) ex n) as Hs.
  rewrite shr_record_of_loc_m in Hs. destruct (Hs Hm Hn) as [H1 H2].
  destruct (shr (shr_record_of_loc mx lx) ex n) as [mrs e]. cbn [fst snd] in H1, H2.
  rewrite H1, H2.
  assert (H2n : 0 < 2 ^ n) by (apply Z.pow_pos_nonneg; lia).
  split; [apply Z.div_pos; lia|].
  rewrite Zdigits2_div_pow2 by lia.
  pose proof (Zdigits2_nonneg mx).
  unfold n in *. change (fexp prec emax) with fexp64 in *.
  rewrite fexp64_eq in Hex, Hn. rewrite !fexp64_eq. lia.
Qed.

(** Rounding and the second shift keep the mantissa at its exponent. *)
Lemma round_shr_canonical (m e : Z) (l : location) :
  0 <= m ->
  fexp64 (Zdigits2 m + e) = e ->
  let '(mrs, e') := shr_fexp prec emax (round_nearest_even m l) e loc_Exact in
  0 <= shr_m mrs /\ fexp64 (Zdigits2 (shr_m mrs) + e') = e'.
Proof.
  intros Hm Hc.
  assert (Hr : round_nearest_even m l = m \/ round_nearest_even m l = m + 1).
  { destruct l as [|[]]; simpl; auto. destruct (Z.even m); auto. }
  assert (Hle : e <= fexp64 (Zdigits2 (round_nearest_even m l) + e)).
  { destruct Hr as [->| ->]; [lia|].
    pose proof (Zdigits2_le m (m + 1) ltac:(lia)).
    rewrite <- Hc at 1. unfold fexp64. apply fexp_mono. lia. }
  apply shr_fexp_canonical; [destruct Hr as [->| ->]; lia|exact Hle].
Qed.

(** Rounding gives a float of the format. *)
Lemma binary_round_aux_valid (sx : bool) (mx ex : Z) (lx : location) :
  0 <= mx ->
  ex <= fexp64 (Zdigits2 mx + ex) ->
  valid_binary prec emax (binary_round_aux prec emax sx mx ex lx) = true.
Proof.
  intros Hm Hex. unfold binary_round_aux.
  pose proof (shr_fexp_canonical mx ex lx Hm Hex) as H1.
  destruct (shr_fexp prec emax mx ex lx) as [mrs' e']. destruct H1 as [Hm1 Hc1].
  pose proof (round_shr_canonical (shr_m mrs') e' (loc_of_shr_record mrs') Hm1 Hc1) as H2.
  destruct (shr_fexp prec emax _ e' loc_Exact) as [mrs'' e'']. destruct H2 as [Hm2 Hc2].
  destruct (shr_m mrs'') as [|m|m] eqn:Hmm; try reflexivity.
  destruct (e'' <=? emax - prec) eqn:Hmax; [|reflexivity].
  simpl. unfold bounded, canonical_mantissa. rewrite Hmax.
  change (Zpos (digits2_pos m)) with (Zdigits2 (Zpos m)).
  change (fexp prec emax) with fexp64. rewrite Hc2, Z.eqb_refl. reflexivity.
Qed.

Lemma digits2_pos_iter_xO (p d : positive) :
  Zpos (digits2_pos (Pos.iter xO p d)) = Zpos (digits2_pos p) + Zpos d.
Proof.
  induction d as [|d IH] using Pos.peano_ind.
  - simpl. lia.
  - rewrite Pos.iter_succ. cbn [digits2_pos]. rewrite Pos2Z.inj_succ, IH. lia.
Qed.

Lemma binary_round_valid (sx : bool) (mx : positive) (ex : Z) :
  valid_binary prec emax (binary_round prec emax sx mx ex) = true.
Proof.
  unfold binary_round, shl_align.
  set (ex' := fexp prec emax (Zpos (digits2_pos mx) + ex)).
  destruct (ex' - ex) as [|d|d] eqn:Hd.
  - apply binary_round_aux_valid; [lia|].
    change (Zdigits2 (Zpos mx)) with (Zpos (digits2_pos mx)). fold ex'. unfold fexp64. fold ex'. lia.
  - apply binary_round_aux_valid; [lia|].
    change (Zdigits2 (Zpos mx)) with (Zpos (digits2_pos mx)). unfold fexp64. fold ex'. lia.
  - apply binary_round_aux_valid; [lia|].
    change (Zdigits2 (Zpos (Pos.iter xO mx d))) with (Zpos (digits2_pos (Pos.iter xO mx d))).
    rewrite digits2_pos_iter_xO.
    replace (Zpos (digits2_pos mx) + Zpos d + ex') with (Zpos (digits2_pos mx) + ex) by lia.
    unfold fexp64. fold ex'. lia.
Qed.

Lemma div_core_valid (sx : bool) (m1 m2 : positive) :
  let '(q, e', l) := SFdiv_core_binary prec emax (Zpos m1) 0 (Zpos m2) 0 in
  valid_binary prec emax (binary_round_aux prec emax sx q e' l) = true.
Proof.
  unfold SFdiv_core_binary. rewrite !Z.add_0_r, Z.sub_diag.
  set (d1 := Zdigits2 (Zpos m1)). set (d2 := Zdigits2 (Zpos m2)).
  set (e' := Z.min (fexp prec emax (d1 - d2)) 0).
  assert (He' : e' <= 0) by (unfold e'; lia).
  set (s := 0 - e').
  set (m' := match s with Zpos _ => Z.shiftl (Zpos m1) s | 0 => Zpos m1 | Zneg _ => 0 end).
  assert (Hm' : m' = Zpos m1 * 2 ^ s).
  { unfold m'. destruct s as [|p|p] eqn:Hs; [lia|apply Z.shiftl_mul_pow2; lia|lia]. }
  assert (H2s : 0 < 2 ^ s) by (apply Z.pow_pos_nonneg; unfold s; lia).
  pose proof (Z.div_eucl_eq m' (Zpos m2) ltac:(lia)) as Heq.
  pose proof (Z.mod_pos_bound m' (Zpos m2) ltac:(lia)) as Hr.
  assert (Hq : Z.div_eucl m' (Zpos m2) = (m' / Zpos m2, m' mod Zpos m2)).
  { unfold Z.div, Z.modulo. destruct (Z.div_eucl m' (Zpos m2)); reflexivity. }
  rewrite Hq.
  assert (Hqpos : 0 <= m' / Zpos m2) by (apply Z.div_pos; lia).
  apply binary_round_aux_valid; [exact Hqpos|].
  apply Z.le_trans with (fexp64 (d1 - d2)); [unfold e', fexp64; lia|].
  unfold fexp64. apply fexp_mono.
  (* the quotient has at least d1 + s - d2 digits *)
  destruct (Zdigits2_bounds (Zpos m1) ltac:(lia)) as [Hlo1 _].
  destruct (Zdigits2_bounds (Zpos m2) ltac:(lia)) as [_ Hhi2].
  fold d1 in Hlo1. fold d2 in Hhi2.
  assert (Hd1 : 0 < d1) by (unfold d1; simpl; lia).
  assert (Hd2 : 0 < d2) by (unfold d2; simpl; lia).
  pose proof (Zdigits2_nonneg (m' / Zpos m2)) as Hdq.
  destruct (Z_lt_le_dec (d1 + s - d2) 1) as [Hsmall|Hbig]; [unfold s in *; lia|].
  assert (Hqlo : 2 ^ (d1 + s - d2 - 1) <= m' / Zpos m2).
  { apply Z.div_le_lower_bound; [lia|].
    apply Z.le_trans with (2 ^ d2 * 2 ^ (d1 + s - d2 - 1)).
    - apply Z.mul_le_mono_nonneg_r; [apply Z.pow_nonneg; lia|lia].
    - rewrite <- Z.pow_add_r by (unfold s in *; lia).
      replace (d2 + (d1 + s - d2 - 1)) with ((d1 - 1) + s) by lia.
      rewrite Z.pow_add_r by (unfold s in *; lia). rewrite Hm'.
      apply Z.mul_le_mono_nonneg_r; lia. }
  assert (Hqd : d1 + s - d2 <= Zdigits2 (m' / Zpos m2)).
  { assert (0 < m' / Zpos m2).
    { apply Z.lt_le_trans with (2 := Hqlo). apply Z.pow_pos_nonneg; lia. }
    rewrite Zdigits2_pos_log2 by assumption.
    pose proof (proj1 (Z.log2_le_pow2 (m' / Zpos m2) (d1 + s - d2 - 1) H) Hqlo). lia. }
  unfold s in *. lia.
Qed.

(** Every float read from a decimal is a float of the format. *)
Lemma of_decimal_valid (neg : bool) (m e10 : Z) :
  valid_binary prec emax (of_decimal neg m e10) = true.
Proof.
  unfold of_decimal. destruct m as [|p|p]; try reflexivity.
  destruct (0 <=? e10) eqn:He; [apply binary_round_valid|].
  apply Z.leb_gt in He.
  assert (H10 : 0 < 10 ^ (- e10)) by (apply Z.pow_pos_nonneg; lia).
  destruct (10 ^ (- e10)) as [|m2|m2] eqn:Hm2; try lia.
  pose proof (div_core_valid neg p m2) as Hv.
  destruct (SFdiv_core_binary prec emax (Zpos p) 0 (Zpos m2) 0) as [[q e'] l].
  exact Hv.
Qed.

Lemma float_of_str_valid (s : string) (x : float) :
  float_of_str s = Ok x -> valid_binary prec emax x = true.
Proof.
  unfold float_of_str. destruct (negb _); [discriminate|].
  destruct (parse _) as [y|] eqn:Hp; [|discriminate]. intros [= <-].
  unfold parse in Hp. destruct (read_sign _) as [neg r].
  destruct (read_number neg r) as [z|] eqn:Hn.
  - injection Hp as <-. unfold read_number in Hn.
    destruct (read_digits 0 0 r) as [[ip ni] r1].
    destruct (match r1 with
              | String "." r0 => let '(v, n, r') := read_digits ip 0 r0 in (v, n, r')
              | _ => (ip, 0, r1)
              end) as [[m nf] r2].
    destruct (ni + nf =? 0); [discriminate|].
    destruct (read_exponent r2) as [e r3]. destruct r3; [|discriminate].
    injection Hn as <-. apply of_decimal_valid.
  - unfold read_special in Hp.
    destruct (_ || _); [injection Hp as <-; reflexivity|].
    destruct (String.eqb _ "nan"); [injection Hp as <-; reflexivity|discriminate].
Qed.

End Validity.

(** * The round trip of the stored floats *)

Section Stored.

Import DataUtils Spec.

Lemma last_value_parsed (rules : list (string * string)) (rows : table)
    (k : string) (x : float) :
  last_value rules rows k = Some (Some x) -> exists s, float_of_str s = Ok x.
Proof.
  induction rows as [|r rows IH]; simpl; [discriminate|].
  destruct (last_value rules rows k) as [v|]; [intros [= ->]; apply IH; reflexivity|].
  case_bool_decide; [|discriminate]. intros [= Hv].
  unfold row_value in Hv. destruct (r !! 2%nat) as [value|]; [|discriminate].
  unfold normalize in Hv.
  destruct (float_of_str _) as [y|] eqn:Hf; [|discriminate].
  injection Hv as <-. eauto.
Qed.

(** Every float of the result was read by [float]. *)
Lemma stored_parsed (data : list record) (m : gmap string (option float))
    (k : string) (x : float) :
  extract_important_metrics data = Ok m ->
  m !! k = Some (Some x) ->
  exists s, float_of_str s = Ok x.
Proof.
  destruct data as [|d rest]; [discriminate|].
  rewrite extract_spec. intros Hex Hk.
  destruct (scan Liquidity d ∅) as [m1|] eqn:H1; cbn [bind] in Hex; [|discriminate].
  destruct (scan BalanceSheet d m1) as [m2|] eqn:H2; cbn [bind] in Hex; [|discriminate].
  destruct (scan IncomeStatement d m2) as [m3|] eqn:H3; cbn [bind] in Hex; [|discriminate].
  rewrite (scan_table_lookup _ _ _ _ Hex k), (scan_table_lookup _ _ _ _ H3 k),
    (scan_table_lookup _ _ _ _ H2 k), (scan_table_lookup _ _ _ _ H1 k), lookup_empty in Hk.
  assert (Htv : forall t, table_value t d k = Some (Some x) -> exists s, float_of_str s = Ok x).
  { intros t. unfold table_value. destruct (table_at d t); [|discriminate].
    apply last_value_parsed. }
  destruct (table_value CashFlow d k) as [v|] eqn:E4; [injection Hk as ->; eauto|].
  destruct (table_value IncomeStatement d k) as [v|] eqn:E3; [injection Hk as ->; eauto|].
  destruct (table_value BalanceSheet d k) as [v|] eqn:E2; [injection Hk as ->; eauto|].
  destruct (table_value Liquidity d k) as [v|] eqn:E1; [injection Hk as ->; eauto|].
  discriminate.
Qed.

Lemma SFeqb_refl (x : float) : x <> S754_nan -> SFeqb x x = true.
Proof.
  intros Hx. unfold SFeqb. destruct x as [s|s| |s m e]; try reflexivity.
  - destruct s; reflexivity.
  - congruence.
  - simpl. rewrite Z.compare_refl, Pos.compare_cont_refl. destruct s; reflexivity.
Qed.

End Stored.

(** C9, as stated, fails: the cell [nan] is stored as a NaN, whose
    text is [nan]; [safe_float] reads that text as a NaN, and a NaN is
    not equal to the stored one under [==], as no float is. *)
Lemma stored_nan_counterexample :
  exists m x y,
    DataUtils.extract_important_metrics
      [ {[ "after_mda_tables" := [ [ ["Total Assets"; ""; "nan"] ]; []; [] ] ]} ] = Ok m /\
    m !! "total_assets" = Some (Some x) /\
    float_repr x = "nan" /\
    DataUtils.safe_float (float_repr x) = Ok (Some y) /\
    SFeqb y x = false.
Proof.
  destruct (DataUtils.extract_important_metrics
              [ {[ "after_mda_tables" := [ [ ["Total Assets"; ""; "nan"] ]; []; [] ] ]} ])
    as [m|e] eqn:Hex; [|vm_compute in Hex; discriminate].
  exists m, S754_nan, S754_nan. split; [reflexivity|].
  split; [|repeat split; vm_compute; reflexivity].
  rewrite (extract_lookup _ [] m BalanceSheet "total_assets" Hex) by (cbv; auto 30).
  vm_compute. reflexivity.
Qed.

(** C9, amended: for every float other than NaN stored in a result of
    [extract_important_metrics], [safe_float] applied to the text that
    [str] gives for the float returns that float again: the same
    value, equal to the stored one under [==]. *)
Theorem stored_float_round_trip (data : list DataUtils.record)
    (m : gmap string (option float)) (k : string) (x : float) :
  DataUtils.extract_important_metrics data = Ok m ->
  m !! k = Some (Some x) ->
  x <> S754_nan ->
  exists y,
    DataUtils.safe_float (float_repr x) = Ok (Some y) /\ y = x /\ SFeqb y x = true.
Proof.
  intros Hex Hk Hx.
  destruct (stored_parsed data m k x Hex Hk) as [s Hs].
  pose proof (safe_float_repr x (float_of_str_valid s x Hs)) as Hrt.
  exists x. split; [exact Hrt|]. split; [reflexivity|apply SFeqb_refl, Hx].
Qed.

Lemma stored_float_round_trip_witness :
  exists m x,
    DataUtils.extract_important_metrics
      [ {[ "after_mda_tables" := [ [ ["Total Assets"; ""; "1,234.5"] ]; []; [] ] ]} ] = Ok m /\
    m !! "total_assets" = Some (Some x) /\
    float_repr x = "1234.5" /\
    exists y, DataUtils.safe_float (float_repr x) = Ok (Some y) /\ y = x /\ SFeqb y x = true.
Proof.
  destruct (DataUtils.extract_important_metrics
              [ {[ "after_mda_tables" := [ [ ["Total Assets"; ""; "1,234.5"] ]; []; [] ] ]} ])
    as [m|e] eqn:Hex; [|vm_compute in Hex; discriminate].
  exists m, (S754_finite false 5429388417957888 (-42)).
  assert (Hk : m !! "total_assets" = Some (Some (S754_finite false 5429388417957888 (-42)))).
  { vm_compute in Hex. injection Hex as <-. vm_compute. reflexivity. }
  split; [reflexivity|]. split; [exact Hk|]. split; [vm_compute; reflexivity|].
  apply (stored_float_round_trip
           [ {[ "after_mda_tables" := [ [ ["Total Assets"; ""; "1,234.5"] ]; []; [] ] ]} ]
           m "total_assets" _ Hex Hk).
  discriminate.
Defined.

(** * Further properties of the code *)

Import MetricsExport PyText UtilsText Models SpecX.

(** * Further properties of [extract_important_metrics] *)

Section Extraction.

Implicit Types (m : gmap string (option float)) (item : row) (rows : table).

Lemma row_by_rules_raise rules item m e :
  row_by_rules rules item m = Raise e -> e = IndexError.
Proof.
  unfold row_by_rules. destruct item as [|label rest]; [congruence|].
  destruct (first_match rules label); [|discriminate].
  destruct (_ !! 2%nat); [discriminate|congruence].
Qed.

Lemma scan_rows_raise rules rows m e :
  for_each (row_by_rules rules) rows m = Raise e -> e = IndexError.
Proof.
  revert m. induction rows as [|r rows IH]; intros m; simpl; [discriminate|].
  destruct (row_by_rules rules r m) as [m1|e1] eqn:Hr; simpl.
  - apply IH.
  - intros [= <-]. eapply row_by_rules_raise, Hr.
Qed.

Lemma scan_raise (t : table_id) (d : record) m e :
  scan t d m = Raise e -> e = IndexError.
Proof.
  unfold scan. destruct (d !! source_key t) as [tables|]; [|discriminate].
  destruct (tables !! position t); [apply scan_rows_raise|congruence].
Qed.

Lemma row_by_rules_accepted rules item m :
  (exists m', row_by_rules rules item m = Ok m') <-> row_accepted rules item = true.
Proof.
  unfold row_by_rules, row_accepted. destruct item as [|label rest].
  - split; [intros [? ?]; discriminate|discriminate].
  - destruct (first_match rules label) as [key|]; [|split; eauto].
    destruct ((label :: rest) !! 2%nat) as [v|] eqn:Hv.
    + split; [intros _|eauto]. apply bool_decide_eq_true.
      apply lookup_lt_Some in Hv. lia.
    + split; [intros [? ?]; discriminate|]. intros Hl. apply bool_decide_eq_true in Hl.
      apply lookup_ge_None in Hv. lia.
Qed.

Lemma scan_rows_accepted rules rows m :
  (exists m', for_each (row_by_rules rules) rows m = Ok m') <->
  forallb (row_accepted rules) rows = true.
Proof.
  revert m. induction rows as [|r rows IH]; intros m; simpl.
  - split; eauto.
  - rewrite andb_true_iff, <- (row_by_rules_accepted rules r m). split.
    + intros [m' Hm'].
      destruct (row_by_rules rules r m) as [m1|] eqn:Hr; simpl in Hm'; [|discriminate].
      split; [eauto|]. apply (IH m1). eauto.
    + intros [[m1 Hr] Hrows]. rewrite Hr. simpl. apply IH, Hrows.
Qed.

Lemma scan_accepted (t : table_id) (d : record) m :
  (exists m', scan t d m = Ok m') <-> table_accepted d t = true.
Proof.
  unfold scan, table_accepted. destruct (d !! source_key t) as [tables|]; [|split; eauto].
  destruct (tables !! position t) as [rows|]; [apply scan_rows_accepted|].
  split; [intros [? ?]; discriminate|discriminate].
Qed.

End Extraction.

(** X1: only the first record of [data] is read: the result for a
    list of records is the result for its first record alone, and with
    no record at all the extractor raises [IndexError]. *)
Theorem only_first_record_read (d : record) (rest : list record) :
  extract_important_metrics (d :: rest) = extract_important_metrics [d] /\
  extract_important_metrics [] = Raise IndexError.
Proof. split; [rewrite !extract_spec|]; reflexivity. Qed.

Lemma extract_raise (data : list record) (e : exn) :
  extract_important_metrics data = Raise e -> e = IndexError.
Proof.
  destruct data as [|d rest]; [intros [= <-]; reflexivity|].
  rewrite extract_spec.
  destruct (scan Liquidity d ∅) as [m1|e1] eqn:H1; cbn [bind];
    [|intros [= <-]; eapply scan_raise, H1].
  destruct (scan BalanceSheet d m1) as [m2|e2] eqn:H2; cbn [bind];
    [|intros [= <-]; eapply scan_raise, H2].
  destruct (scan IncomeStatement d m2) as [m3|e3] eqn:H3; cbn [bind];
    [|intros [= <-]; eapply scan_raise, H3].
  apply scan_raise.
Qed.

(** X2: [IndexError] is the only exception [extract_important_metrics]
    raises: a missing key is skipped, and a cell that does not convert
    is stored as [None]. *)
Theorem only_index_error (data : list record) (e : exn) :
  extract_important_metrics data = Raise e -> e = IndexError.
Proof. apply extract_raise. Qed.

Lemma only_index_error_witness :
  exists e,
    extract_important_metrics
      [ {[ "after_mda_tables" := [ [ ["Total Assets"; "$"] ]; []; [] ] ]} ] = Raise e /\
    e = IndexError.
Proof.
  destruct (extract_important_metrics
              [ {[ "after_mda_tables" := [ [ ["Total Assets"; "$"] ]; []; [] ] ]} ])
    as [m|e] eqn:Hex; [vm_compute in Hex; discriminate|].
  exists e. split; [reflexivity|].
  apply (only_index_error
           [ {[ "after_mda_tables" := [ [ ["Total Assets"; "$"] ]; []; [] ] ]} ] e Hex).
Defined.

Lemma extract_accepted (d : record) (rest : list record) :
  (exists m, extract_important_metrics (d :: rest) = Ok m) <-> record_accepted d = true.
Proof.
  rewrite extract_spec. unfold record_accepted.
  rewrite !andb_true_iff, <- (scan_accepted Liquidity d ∅). split.
  - intros [m Hm].
    destruct (scan Liquidity d ∅) as [m1|] eqn:H1; cbn [bind] in Hm; [|discriminate].
    destruct (scan BalanceSheet d m1) as [m2|] eqn:H2; cbn [bind] in Hm; [|discriminate].
    destruct (scan IncomeStatement d m2) as [m3|] eqn:H3; cbn [bind] in Hm; [|discriminate].
    repeat split; [eauto| | |].
    + apply (scan_accepted BalanceSheet d m1). eauto.
    + apply (scan_accepted IncomeStatement d m2). eauto.
    + apply (scan_accepted CashFlow d m3). eauto.
  - intros [[[[m1 H1] H2] H3] H4]. rewrite H1. cbn [bind].
    apply (scan_accepted BalanceSheet d m1) in H2 as [m2 H2]. rewrite H2. cbn [bind].
    apply (scan_accepted IncomeStatement d m2) in H3 as [m3 H3]. rewrite H3. cbn [bind].
    apply (scan_accepted CashFlow d m3), H4.
Qed.

(** X3: [extract_important_metrics] returns exactly when, for every
    key that is present, the table read from it is there and each of
    its rows has a label cell and, if the label matches a rule, a
    third cell; a row matching no rule may be as short as one cell. *)
Theorem returns_iff_accepted (d : record) (rest : list record) :
  (exists m, extract_important_metrics (d :: rest) = Ok m) <-> record_accepted d = true.
Proof. apply extract_accepted. Qed.

Section Bindings.

Implicit Types (m : gmap string (option float)) (item : row) (rows : table).

Lemma last_value_none_inv rules rows k :
  last_value rules rows k = None ->
  Forall (fun r => row_key rules r <> Some k) rows.
Proof.
  induction rows as [|r rows IH]; simpl; [constructor|].
  destruct (last_value rules rows k); [discriminate|].
  case_bool_decide as Hk; [discriminate|]. intros _. constructor; [exact Hk|apply IH; reflexivity].
Qed.

Lemma last_value_some rules rows k v :
  last_value rules rows k = Some v ->
  exists pre r post,
    rows = pre ++ r :: post /\ row_key rules r = Some k /\
    Forall (fun r' => row_key rules r' <> Some k) post /\ v = row_value r.
Proof.
  induction rows as [|r0 rows IH]; simpl; [discriminate|].
  destruct (last_value rules rows k) as [v'|] eqn:Hl.
  - intros [= ->]. destruct (IH eq_refl) as (pre & r & post & -> & Hr & Hpost & Hv).
    exists (r0 :: pre), r, post. repeat split; assumption.
  - case_bool_decide as Hk; [|discriminate]. intros [= <-].
    exists [], r0, rows. repeat split; [exact Hk|apply last_value_none_inv, Hl].
Qed.

End Bindings.

(** X4: in a returned map a key is bound to [v] exactly when, in one of
    the four tables, some row is stored under the key, no later row of
    that table is, and [v] is that row's value cell as [safe_float]
    normalizes it; every other key is unbound. *)
Theorem binding_iff (d : record) (rest : list record) (m : gmap string (option float))
    (k : string) (v : option float) :
  extract_important_metrics (d :: rest) = Ok m ->
  (m !! k = Some v <->
   exists t pre r post,
     table_at d t = Some (pre ++ r :: post) /\
     row_key (rules_of t) r = Some k /\
     Forall (fun r' => row_key (rules_of t) r' <> Some k) post /\
     v = row_value r).
Proof.
  intros Hex. split.
  - intros Hk. pose proof Hex as Hsc. rewrite extract_spec in Hsc.
    destruct (scan Liquidity d ∅) as [m1|] eqn:H1; cbn [bind] in Hsc; [|discriminate].
    destruct (scan BalanceSheet d m1) as [m2|] eqn:H2; cbn [bind] in Hsc; [|discriminate].
    destruct (scan IncomeStatement d m2) as [m3|] eqn:H3; cbn [bind] in Hsc; [|discriminate].
    rewrite (scan_table_lookup _ _ _ _ Hsc k), (scan_table_lookup _ _ _ _ H3 k),
      (scan_table_lookup _ _ _ _ H2 k), (scan_table_lookup _ _ _ _ H1 k), lookup_empty in Hk.
    assert (Htv : forall t, table_value t d k = Some v ->
              exists t pre r post,
                table_at d t = Some (pre ++ r :: post) /\
                row_key (rules_of t) r = Some k /\
                Forall (fun r' => row_key (rules_of t) r' <> Some k) post /\
                v = row_value r).
    { intros t. unfold table_value. destruct (table_at d t) as [rows|] eqn:Ht; [|discriminate].
      intros Hl. apply last_value_some in Hl as (pre & r & post & -> & Hr & Hpost & Hv).
      exists t, pre, r, post. repeat split; assumption. }
    destruct (table_value CashFlow d k) as [v4|] eqn:E4; [apply (Htv CashFlow); congruence|].
    destruct (table_value IncomeStatement d k) as [v3|] eqn:E3;
      [apply (Htv IncomeStatement); congruence|].
    destruct (table_value BalanceSheet d k) as [v2|] eqn:E2;
      [apply (Htv BalanceSheet); congruence|].
    destruct (table_value Liquidity d k) as [v1|] eqn:E1;
      [apply (Htv Liquidity); congruence|discriminate].
  - intros (t & pre & r & post & Ht & Hr & Hpost & ->).
    assert (Hk : In k (keys_of t)).
    { destruct r as [|label tl]; [discriminate|]. eapply first_match_key, Hr. }
    rewrite (extract_lookup d rest m t k Hex Hk). unfold table_value. rewrite Ht.
    apply last_value_last; assumption.
Qed.

Lemma binding_iff_witness :
  exists m,
    extract_important_metrics
      [ {[ "after_mda_tables" := [ [ ["Goodwill"; ""; "7"]; ["Footnote 3"] ]; []; [] ] ]} ]
      = Ok m /\
    m !! "goodwill" = Some (Some (of_Z 7)).
Proof.
  destruct (extract_important_metrics
              [ {[ "after_mda_tables" := [ [ ["Goodwill"; ""; "7"]; ["Footnote 3"] ]; []; [] ] ]} ])
    as [m|e] eqn:Hex; [|vm_compute in Hex; discriminate].
  exists m. split; [reflexivity|].
  apply (proj2 (binding_iff _ [] m "goodwill" (Some (of_Z 7)) Hex)).
  exists BalanceSheet, [], ["Goodwill"; ""; "7"], [ ["Footnote 3"] ].
  split; [reflexivity|]. split; [vm_compute; reflexivity|].
  split; [repeat constructor; vm_compute; discriminate|vm_compute; reflexivity].
Defined.

(** * Substrings *)

Section Substrings.

Lemma app_cons (c : ascii) (a b : string) : String c a +:+ b = String c (a +:+ b).
Proof. reflexivity. Qed.

Lemma app_empty_l (a : string) : "" +:+ a = a.
Proof. reflexivity. Qed.

Lemma app_assoc_str (a b c : string) : (a +:+ b) +:+ c = a +:+ b +:+ c.
Proof.
  induction a as [|x a IH]; [reflexivity|]. rewrite !app_cons, IH. reflexivity.
Qed.

Lemma prefix_spec (n h : string) :
  String.prefix n h = true <-> exists post, h = n +:+ post.
Proof.
  revert h. induction n as [|c n IH]; intros h.
  - split; [intros _; exists h; reflexivity|]. intros _. destruct h; reflexivity.
  - destruct h as [|d h].
    + split; [discriminate|]. intros [post Hp]. discriminate.
    + simpl. destruct (ascii_dec c d) as [->|Hne].
      * rewrite IH. split; intros [post Hp]; exists post.
        -- rewrite app_cons. congruence.
        -- rewrite app_cons in Hp. congruence.
      * split; [discriminate|]. intros [post Hp]. rewrite app_cons in Hp. congruence.
Qed.

(** [needle in hay] holds exactly when [hay] is some text, [needle],
    some text. *)
Lemma contains_spec (n h : string) :
  contains n h = true <-> exists pre post, h = pre +:+ n +:+ post.
Proof.
  induction h as [|d h IH].
  - cbn [contains]. destruct (String.prefix n "") eqn:Hp.
    + split; [intros _|reflexivity]. apply prefix_spec in Hp as [post Hp].
      exists "", post. exact Hp.
    + split; [discriminate|]. intros (pre & post & Heq).
      destruct pre as [|c pre]; [|discriminate].
      assert (String.prefix n "" = true) by (apply prefix_spec; exists post; exact Heq).
      congruence.
  - cbn [contains]. destruct (String.prefix n (String d h)) eqn:Hp.
    + split; [intros _|reflexivity]. apply prefix_spec in Hp as [post Hp].
      exists "", post. exact Hp.
    + rewrite IH. split.
      * intros (pre & post & ->). exists (String d pre), post. reflexivity.
      * intros (pre & post & Heq). destruct pre as [|c pre].
        -- assert (String.prefix n (String d h) = true)
             by (apply prefix_spec; exists post; exact Heq).
           congruence.
        -- rewrite app_cons in Heq. injection Heq as _ ->. eauto.
Qed.

Lemma contains_trans (a b c : string) :
  contains a b = true -> contains b c = true -> contains a c = true.
Proof.
  rewrite !contains_spec. intros (p1 & q1 & ->) (p2 & q2 & ->).
  exists (p2 +:+ p1), (q1 +:+ q2). rewrite !app_assoc_str. reflexivity.
Qed.

Lemma lower_app (a b : string) : lower (a +:+ b) = lower a +:+ lower b.
Proof.
  unfold lower. induction a as [|c a IH]; [reflexivity|].
  rewrite app_cons. cbn [map_chars]. rewrite IH. reflexivity.
Qed.

End Substrings.

Section DeadRules.

(** A label holding "net earnings" is taken by the rule of that name,
    or by the "sales" rule before it. *)
Lemma income_first_match (label : string) :
  contains "net earnings" (lower label) = true ->
  first_match income_statement_rules label = Some "sales" \/
  first_match income_statement_rules label = Some "net_earnings".
Proof.
  intros Hne. cbv [first_match income_statement_rules].
  destruct (contains "sales" (lower label)); [left; reflexivity|].
  rewrite Hne. right. reflexivity.
Qed.

Lemma income_never_eps (label k : string) :
  k = "basic_eps" \/ k = "diluted_eps" ->
  first_match income_statement_rules label <> Some k.
Proof.
  intros Hk Hf.
  destruct (contains "net earnings" (lower label)) eqn:Hne.
  - destruct (income_first_match label Hne) as [H|H]; rewrite H in Hf;
      destruct Hk as [-> | ->]; discriminate.
  - assert (Hb : contains "basic net earnings per common share" (lower label) = false).
    { destruct (contains "basic net earnings per common share" (lower label)) eqn:Hb;
        [|reflexivity].
      assert (contains "net earnings" (lower label) = true)
        by (eapply contains_trans; [|exact Hb]; reflexivity).
      congruence. }
    assert (Hd : contains "diluted net earnings per common share" (lower label) = false).
    { destruct (contains "diluted net earnings per common share" (lower label)) eqn:Hd;
        [|reflexivity].
      assert (contains "net earnings" (lower label) = true)
        by (eapply contains_trans; [|exact Hd]; reflexivity).
      congruence. }
    revert Hf. cbv [first_match income_statement_rules]. rewrite Hne, Hb, Hd.
    repeat (match goal with
            | |- context [contains ?s (lower label)] => destruct (contains s (lower label))
            end; [destruct Hk as [-> | ->]; discriminate|]).
    discriminate.
Qed.

End DeadRules.

(** X5: the keys [basic_eps] and [diluted_eps] are never bound: a
    label that holds "basic net earnings per common share" or "diluted
    net earnings per common share" holds "net earnings" too, and that
    rule (or the "sales" rule) comes first in the income-statement
    chain. *)
Theorem eps_rules_unreachable (data : list record) (m : gmap string (option float)) :
  extract_important_metrics data = Ok m ->
  m !! "basic_eps" = None /\ m !! "diluted_eps" = None.
Proof.
  destruct data as [|d rest]; [discriminate|]. intros Hex.
  assert (Hnone : forall k, k = "basic_eps" \/ k = "diluted_eps" -> m !! k = None).
  { intros k Hk. destruct (m !! k) as [v|] eqn:Hm; [|reflexivity]. exfalso.
    assert (Hin : In k (keys_of IncomeStatement)) by (destruct Hk as [-> | ->]; cbv; tauto).
    rewrite (extract_lookup d rest m IncomeStatement k Hex Hin) in Hm.
    unfold table_value in Hm. destruct (table_at d IncomeStatement) as [rows|]; [|discriminate].
    apply last_value_some in Hm as (pre & r & post & _ & Hr & _).
    destruct r as [|label tl]; [discriminate|]. simpl in Hr.
    exact (income_never_eps label k Hk Hr). }
  split; apply Hnone; auto.
Qed.

Lemma eps_rules_unreachable_witness :
  exists m,
    extract_important_metrics
      [ {[ "after_mda_tables" :=
             [ []; [ ["Basic net earnings per common share"; ""; "1.25"] ]; [] ] ]} ] = Ok m /\
    m !! "basic_eps" = None /\ m !! "diluted_eps" = None.
Proof.
  destruct (extract_important_metrics
              [ {[ "after_mda_tables" :=
                     [ []; [ ["Basic net earnings per common share"; ""; "1.25"] ]; [] ] ]} ])
    as [m|e] eqn:Hex; [|vm_compute in Hex; discriminate].
  exists m. split; [reflexivity|].
  apply (eps_rules_unreachable _ m Hex).
Defined.

Section Matching.

Lemma contains_inside (n pre post : string) : contains n (pre +:+ n +:+ post) = true.
Proof. apply contains_spec. eauto. Qed.

Lemma first_match_app (rules1 rules2 : list (string * string)) (label : string) :
  Forall (fun r => contains (fst r) (lower label) = false) rules1 ->
  first_match (rules1 ++ rules2) label = first_match rules2 label.
Proof.
  induction 1 as [|[sub key] rules1 Hr _ IH]; [reflexivity|].
  simpl in *. rewrite Hr. exact IH.
Qed.

Lemma row_function_rules (t : table_id) (item : row) (m : gmap string (option float)) :
  row_function t item m = row_by_rules (rules_of t) item m.
Proof.
  destruct t; simpl.
  - apply liquidity_row_spec.
  - apply balance_sheet_row_spec.
  - apply income_statement_row_spec.
  - apply cash_flow_row_spec.
Qed.

End Matching.

(** X6: a rule matches its substring anywhere in the label and in any
    letter case: when the label is some text, a text whose lower case
    is the substring of a rule, some text, and no earlier rule of the
    table matches the label, the row's value cell is stored under the
    key of that rule. *)
Theorem rule_matches_anywhere (t : table_id)
    (rules1 rules2 : list (string * string)) (sub key : string)
    (pre mid post c1 value : string) (tl : row) (m : gmap string (option float)) :
  rules_of t = rules1 ++ (sub, key) :: rules2 ->
  lower mid = sub ->
  Forall (fun r => contains (fst r) (lower (pre +:+ mid +:+ post)) = false) rules1 ->
  row_function t ((pre +:+ mid +:+ post) :: c1 :: value :: tl) m =
  (x <- safe_float value ;; Ok (<[key := x]> m)).
Proof.
  intros Hrules Hmid Hfirst.
  rewrite row_function_rules, Hrules. unfold row_by_rules.
  rewrite (first_match_app _ _ _ Hfirst). cbn [first_match].
  rewrite !lower_app, Hmid, contains_inside.
  simpl. rewrite safe_float_spec. reflexivity.
Qed.

Lemma rule_matches_anywhere_witness :
  row_function BalanceSheet
    (("Restated " +:+ "TOTAL Assets" +:+ " (note 4)") :: "" :: "1,000" :: []) ∅ =
  (x <- safe_float "1,000" ;; Ok (<["total_assets" := x]> ∅)).
Proof.
  apply (rule_matches_anywhere BalanceSheet
           [("total current assets", "current_assets")]
           (skipn 2 balance_sheet_rules) "total assets" "total_assets"
           "Restated " "TOTAL Assets" " (note 4)" "" "1,000" [] ∅).
  - reflexivity.
  - reflexivity.
  - repeat constructor.
Defined.

Section Commas.

Lemma strip_commas_idem (s : string) : replace "," "" (replace "," "" s) = replace "," "" s.
Proof.
  induction s as [|c s IH]; [reflexivity|].
  cbn [replace]. destruct (Ascii.eqb "," c) eqn:Hc.
  - rewrite !app_empty_l. exact IH.
  - cbn [replace]. rewrite Hc, IH. reflexivity.
Qed.

Lemma after_first_strip_commas (s : string) :
  after_first "&" (replace "," "" s) = replace "," "" <$> after_first "&" s.
Proof.
  induction s as [|c s IH]; [reflexivity|].
  cbn [replace after_first]. destruct (Ascii.eqb "," c) eqn:Hc.
  - apply Ascii.eqb_eq in Hc. subst c. rewrite app_empty_l.
    change (Ascii.eqb "," "&") with false. cbv iota. exact IH.
  - cbn [after_first]. destruct (Ascii.eqb c "&"); [reflexivity|exact IH].
Qed.

Lemma until_strip_commas (s : string) :
  replace "," "" (until "&" (replace "," "" s)) = replace "," "" (until "&" s).
Proof.
  induction s as [|c s IH]; [reflexivity|].
  cbn [replace until]. destruct (Ascii.eqb "," c) eqn:Hc.
  - apply Ascii.eqb_eq in Hc. subst c. rewrite app_empty_l.
    change (Ascii.eqb "," "&") with false. cbv iota.
    cbn [replace]. change (Ascii.eqb "," ",") with true. cbv iota.
    rewrite app_empty_l. exact IH.
  - cbn [until]. destruct (Ascii.eqb c "&"); [reflexivity|].
    cbn [replace]. rewrite Hc, IH. reflexivity.
Qed.

Lemma safe_float_strip_commas (s : string) :
  safe_float (replace "," "" s) = safe_float s.
Proof.
  rewrite !safe_float_spec. unfold normalize, numeric_candidate.
  rewrite after_first_strip_commas.
  destruct (after_first "&" s) as [rest|]; simpl.
  - rewrite until_strip_commas. reflexivity.
  - rewrite strip_commas_idem. reflexivity.
Qed.

End Commas.

(** X7: [safe_float] drops every comma, wherever it stands: two texts
    that differ only in their commas get the same result. *)
Theorem commas_ignored (s1 s2 : string) :
  replace "," "" s1 = replace "," "" s2 -> safe_float s1 = safe_float s2.
Proof.
  intros H. rewrite <- (safe_float_strip_commas s1), <- (safe_float_strip_commas s2), H.
  reflexivity.
Qed.

Lemma commas_ignored_witness :
  safe_float "Level 2 & 1,2,34.5," = safe_float "Level 2 & ,,1234.5" /\
  safe_float "Level 2 & 1,2,34.5," = Ok (Some (of_decimal false 12345 (-1))).
Proof.
  split; [|vm_compute; reflexivity].
  apply (commas_ignored "Level 2 & 1,2,34.5," "Level 2 & ,,1234.5"). reflexivity.
Defined.

Section MetricsList.

Lemma comprehension_ok {A B : Type} (f : A -> result B) (l : list A) (ys : list B) :
  comprehension f l = Ok ys <-> Forall2 (fun x y => f x = Ok y) l ys.
Proof.
  revert ys. induction l as [|x l IH]; intros ys; simpl.
  - split; [intros [= <-]; constructor|]. intros H. inversion H. reflexivity.
  - destruct (f x) as [y|e] eqn:Hx; simpl.
    + destruct (comprehension f l) as [ys'|e'] eqn:Hl; simpl.
      * split.
        -- intros [= <-]. constructor; [exact Hx|]. apply IH. reflexivity.
        -- intros H. inversion H as [|? y0 ? ys0 Hy Hys]; subst.
           apply IH in Hys. congruence.
      * split; [discriminate|]. intros H. inversion H as [|? y0 ? ys0 Hy Hys]; subst.
        apply IH in Hys. discriminate.
    + split; [discriminate|]. intros H. inversion H; subst. congruence.
Qed.

End MetricsList.

(** X8: the list of metrics built by [save_metrics_to_csv] holds, in
    order, the result of [extract_important_metrics] on each record
    taken alone; it is built exactly when every record is accepted, so
    one malformed record makes the whole export fail, and then with
    [IndexError]. *)
Theorem metrics_list_all_or_nothing (text_data : list record) :
  (forall l, metrics_list text_data = Ok l <->
             Forall2 (fun d m => extract_important_metrics [d] = Ok m) text_data l) /\
  ((exists l, metrics_list text_data = Ok l) <->
   forallb record_accepted text_data = true) /\
  (forall e, metrics_list text_data = Raise e -> e = IndexError).
Proof.
  split; [intros l; apply comprehension_ok|]. split.
  - unfold metrics_list. induction text_data as [|d td IH]; simpl.
    + split; eauto.
    + rewrite andb_true_iff, <- IH, <- (extract_accepted d []). split.
      * intros [l Hl].
        destruct (extract_important_metrics [d]) as [m|]; simpl in Hl; [|discriminate].
        destruct (comprehension _ td) as [ms|]; simpl in Hl; [|discriminate].
        split; eauto.
      * intros [[m Hm] [ms Hms]]. rewrite Hm. simpl. rewrite Hms. simpl. eauto.
  - unfold metrics_list. induction text_data as [|d td IH]; simpl; [discriminate|].
    intros e. destruct (extract_important_metrics [d]) as [m|e1] eqn:Hd; simpl.
    + destruct (comprehension _ td) as [ms|e2]; simpl; [discriminate|].
      intros [= <-]. apply IH. reflexivity.
    + intros [= <-]. eapply extract_raise, Hd.
Qed.

(** * The capture group of a match *)

Section Regex.

Lemma run_plus (cs : Re.cset) (r : Re.regex) (s : string) (mk : Re.marks) :
  Re.run (Re.Atom cs Re.Plus :: r) s mk =
    match s with
    | String c t => if Re.mem cs c then Re.run (Re.Atom cs Re.Star :: r) t mk else None
    | EmptyString => None
    end.
Proof. destruct s; reflexivity. Qed.

Lemma run_star (cs : Re.cset) (r : Re.regex) (s : string) (mk : Re.marks) :
  Re.run (Re.Atom cs Re.Star :: r) s mk =
    match s with
    | String c t =>
        if Re.mem cs c then
          match Re.run (Re.Atom cs Re.Star :: r) t mk with
          | Some m => Some m
          | None => Re.run r s mk
          end
        else Re.run r s mk
    | EmptyString => Re.run r s mk
    end.
Proof. destruct s; reflexivity. Qed.

Lemma run_lazy (cs : Re.cset) (r : Re.regex) (s : string) (mk : Re.marks) :
  Re.run (Re.Atom cs Re.StarLazy :: r) s mk =
    match Re.run r s mk with
    | Some m => Some m
    | None =>
        match s with
        | String c t => if Re.mem cs c then Re.run (Re.Atom cs Re.StarLazy :: r) t mk else None
        | EmptyString => None
        end
    end.
Proof. destruct s; reflexivity. Qed.

Lemma run_one (cs : Re.cset) (r : Re.regex) (s : string) (mk : Re.marks) :
  Re.run (Re.Atom cs Re.One :: r) s mk =
    match s with
    | String c t => if Re.mem cs c then Re.run r t mk else None
    | EmptyString => None
    end.
Proof. destruct s; reflexivity. Qed.

Lemma run_opt (cs : Re.cset) (r : Re.regex) (s : string) (mk : Re.marks) :
  Re.run (Re.Atom cs Re.Opt :: r) s mk =
    match s with
    | String c t =>
        if Re.mem cs c then
          match Re.run r t mk with
          | Some m => Some m
          | None => Re.run r s mk
          end
        else Re.run r s mk
    | EmptyString => Re.run r s mk
    end.
Proof. destruct s; reflexivity. Qed.

(** One quantified set followed by the rest of a pattern reads some
    characters, then the rest matches. *)
Lemma run_atom (cs : Re.cset) (q : Re.quant) (r : Re.regex) (s : string) (mk mk' : Re.marks) :
  Re.run (Re.Atom cs q :: r) s mk = Some mk' ->
  exists a s', s = a +:+ s' /\ all_in cs a = true /\
               (q = Re.Plus -> a <> "") /\ Re.run r s' mk = Some mk'.
Proof.
  assert (Hstar : forall s, Re.run (Re.Atom cs Re.Star :: r) s mk = Some mk' ->
            exists a s', s = a +:+ s' /\ all_in cs a = true /\ Re.run r s' mk = Some mk').
  { clear s. induction s as [|c t IH]; rewrite run_star.
    - intros H. exists "", "". auto.
    - destruct (Re.mem cs c) eqn:Hc.
      + destruct (Re.run (Re.Atom cs Re.Star :: r) t mk) as [m|] eqn:Ht.
        * intros [= ->]. destruct (IH eq_refl) as (a & s' & -> & Ha & Hr).
          exists (String c a), s'. split; [reflexivity|]. split; [|exact Hr].
          unfold all_in in *. simpl. rewrite Hc. exact Ha.
        * intros H. exists "", (String c t). auto.
      + intros H. exists "", (String c t). auto. }
  destruct q.
  - rewrite run_one. destruct s as [|c t]; [discriminate|].
    destruct (Re.mem cs c) eqn:Hc; [|discriminate]. intros H.
    exists (String c ""), t. split; [reflexivity|]. split; [|split; [discriminate|exact H]].
    unfold all_in. simpl. rewrite Hc. reflexivity.
  - rewrite run_opt. destruct s as [|c t]; [intros H; exists "", ""; auto|].
    destruct (Re.mem cs c) eqn:Hc; [|intros H; exists "", (String c t); auto].
    destruct (Re.run r t mk) as [m|] eqn:Ht.
    + intros [= ->]. exists (String c ""), t. split; [reflexivity|].
      split; [|split; [discriminate|exact Ht]].
      unfold all_in. simpl. rewrite Hc. reflexivity.
    + intros H. exists "", (String c t). auto.
  - rewrite run_plus. destruct s as [|c t]; [discriminate|].
    destruct (Re.mem cs c) eqn:Hc; [|discriminate]. intros H.
    destruct (Hstar t H) as (a & s' & -> & Ha & Hr).
    exists (String c a), s'. split; [reflexivity|].
    split; [|split; [discriminate|exact Hr]].
    unfold all_in in *. simpl. rewrite Hc. exact Ha.
  - intros H. destruct (Hstar s H) as (a & s' & -> & Ha & Hr).
    exists a, s'. split; [reflexivity|]. split; [exact Ha|]. split; [discriminate|exact Hr].
  - revert s. induction s as [|c t IH]; rewrite run_lazy.
    + destruct (Re.run r "" mk) as [m|] eqn:Hr; [|discriminate].
      intros [= ->]. exists "", "". split; [reflexivity|]. split; [reflexivity|].
      split; [discriminate|exact Hr].
    + destruct (Re.run r (String c t) mk) as [m|] eqn:Hr.
      * intros [= ->]. exists "", (String c t). split; [reflexivity|]. split; [reflexivity|].
        split; [discriminate|exact Hr].
      * destruct (Re.mem cs c) eqn:Hc; [|discriminate]. intros H.
        destruct (IH H) as (a & s' & -> & Ha & _ & Hr').
        exists (String c a), s'. split; [reflexivity|].
        split; [|split; [discriminate|exact Hr']].
        unfold all_in in *. simpl. rewrite Hc. exact Ha.
Qed.

(** A piece without a group leaves the marks as they are. *)
Lemma run_no_group (p : Re.regex) (s : string) (mk mk' : Re.marks) :
  no_group p = true -> Re.run p s mk = Some mk' -> mk' = mk.
Proof.
  revert s. induction p as [|n p IH]; intros s Hp.
  - intros [= <-]. reflexivity.
  - destruct n as [cs q| |]; try discriminate. simpl in Hp.
    intros H. apply run_atom in H as (a & s' & _ & _ & _ & Hr).
    exact (IH s' Hp Hr).
Qed.

(** A piece without a group before the rest of a pattern. *)
Lemma run_skip (pre rest : Re.regex) (s : string) (mk mk' : Re.marks) :
  no_group pre = true ->
  Re.run (pre ++ rest) s mk = Some mk' ->
  exists a s', s = a +:+ s' /\ Re.run rest s' mk = Some mk'.
Proof.
  revert s. induction pre as [|n pre IH]; intros s Hp.
  - intros H. exists "", s. auto.
  - destruct n as [cs q| |]; try discriminate. simpl in Hp.
    rewrite <- app_comm_cons.
    intros H. apply run_atom in H as (a & s' & -> & _ & _ & Hr).
    destruct (IH s' Hp Hr) as (a' & s'' & -> & Hr').
    exists (a +:+ a'), s''. split; [|exact Hr']. symmetry. apply app_assoc_str.
Qed.

Lemma length_app_str (a b : string) :
  String.length (a +:+ b) = (String.length a + String.length b)%nat.
Proof. induction a as [|c a IH]; [reflexivity|]. rewrite app_cons. simpl. rewrite IH. reflexivity. Qed.

Lemma substring_app (a b : string) : String.substring 0 (String.length a) (a +:+ b) = a.
Proof.
  induction a as [|c a IH]; [destruct b; reflexivity|].
  rewrite app_cons. simpl. rewrite IH. reflexivity.
Qed.

Lemma group_text_app (g b : string) : Re.group_text (g +:+ b, b) = g.
Proof.
  unfold Re.group_text. cbn [fst snd]. rewrite length_app_str.
  replace (String.length g + String.length b - String.length b)%nat with (String.length g) by lia.
  apply substring_app.
Qed.

(** The group of a match of a pattern [pre (cs+) post]: a non-empty
    run of characters of [cs], read from the text. *)
Lemma run_group (pre post : Re.regex) (cs : Re.cset) (s : string) (mk mk' : Re.marks) :
  no_group pre = true -> no_group post = true ->
  Re.run (pre ++ Re.GroupOpen :: Re.Atom cs Re.Plus :: Re.GroupClose :: post) s mk = Some mk' ->
  exists a g b, s = a +:+ g +:+ b /\ g <> "" /\ all_in cs g = true /\ Re.group_text mk' = g.
Proof.
  intros Hpre Hpost H.
  apply run_skip in H as (a & s' & -> & H); [|exact Hpre].
  cbn [Re.run] in H.
  change (Re.run (Re.Atom cs Re.Plus :: Re.GroupClose :: post) s' (s', snd mk) = Some mk') in H.
  apply run_atom in H as (g & b & -> & Hg & Hne & H).
  cbn [Re.run fst] in H. apply run_no_group in H; [|exact Hpost]. subst mk'.
  exists a, g, b. split; [reflexivity|]. split; [apply Hne; reflexivity|].
  split; [exact Hg|]. apply group_text_app.
Qed.

Lemma search_group (pre post : Re.regex) (cs : Re.cset) (s v : string) :
  no_group pre = true -> no_group post = true ->
  Re.search (pre ++ Re.GroupOpen :: Re.Atom cs Re.Plus :: Re.GroupClose :: post) s = Some v ->
  v <> "" /\ all_in cs v = true /\ contains v s = true.
Proof.
  intros Hpre Hpost. induction s as [|c t IH]; cbn [Re.search].
  - destruct (Re.run _ "" ("", "")) as [mk|] eqn:Hr; [|discriminate].
    intros [= <-]. apply run_group in Hr as (a & g & b & Hs & Hne & Hg & ->); try assumption.
    split; [exact Hne|]. split; [exact Hg|]. apply contains_spec. eauto.
  - destruct (Re.run _ (String c t) (String c t, String c t)) as [mk|] eqn:Hr.
    + intros [= <-]. apply run_group in Hr as (a & g & b & Hs & Hne & Hg & ->); try assumption.
      split; [exact Hne|]. split; [exact Hg|]. apply contains_spec. eauto.
    + intros H. destruct (IH H) as (Hne & Hg & Hc).
      split; [exact Hne|]. split; [exact Hg|].
      apply contains_spec in Hc as (a & b & ->). apply contains_spec.
      exists (String c a), b. reflexivity.
Qed.

End Regex.

(** * The metrics of the fallback *)

Section FallbackMetrics.

Implicit Types (response outcome metrics ed rest : dict).

Lemma lookup_In (d : dict) (k : string) (v : pyval) :
  PyDict.lookup d k = Some v -> In (k, v) d.
Proof.
  induction d as [|[k' v'] d IH]; simpl; [discriminate|].
  destruct (String.eqb k k') eqn:E.
  - apply String.eqb_eq in E as ->. intros [= ->]. left. reflexivity.
  - intros H. right. apply IH, H.
Qed.

Lemma set_fresh (d : dict) (k : string) (v : pyval) :
  ~ In k (PyDict.keys d) -> PyDict.set d k v = d ++ [(k, v)].
Proof.
  induction d as [|[k' v'] d IH]; simpl; [reflexivity|].
  intros Hn. destruct (String.eqb k k') eqn:E.
  - apply String.eqb_eq in E as ->. exfalso. apply Hn. left. reflexivity.
  - rewrite IH; [reflexivity|]. intros H. apply Hn. right. exact H.
Qed.

(** One pattern on a text: the metrics are left as they are, or the
    pattern's key is set to an entry read from the text. *)
Lemma apply_pattern_entry (text : string) (mp : string * Re.regex) metrics rest ed :
  In mp patterns ->
  apply_pattern (PStr text) mp (("metrics", PDict metrics) :: rest) = Ok ed ->
  ed = ("metrics", PDict metrics) :: rest \/
  exists v, fallback_entry text (fst mp) v /\
            ed = ("metrics", PDict (PyDict.set metrics (fst mp) v)) :: rest.
Proof.
  intros Hin. unfold apply_pattern. destruct mp as [metric pattern].
  cbn [re_search bind fst].
  destruct (Re.search pattern text) as [g|] eqn:Hs; [|intros [= <-]; left; reflexivity].
  intros Hed. right.
  simpl in Hin.
  destruct Hin as [[= <- <-]|[[= <- <-]|[[= <- <-]|[[= <- <-]|[[= <- <-]|[]]]]]];
    cbn in Hed; injection Hed as <-;
    eexists; (split; [|reflexivity]); exists g.
  - apply (search_group [Re.Atom (Re.CLit "$") Re.Opt]
             (Re.Atom Re.CSpace Re.Star :: Re.lits "million") revenue_chars)
      in Hs as (Hne & Hg & Hc); [|reflexivity|reflexivity].
    split; [exact Hne|]. split; [exact Hc|]. left. auto.
  - apply (search_group (Re.lits "Gross Profit Margin" ++ [Re.Atom Re.CDot Re.StarLazy])
             [Re.Atom (Re.CLit "%") Re.One] number_dots)
      in Hs as (Hne & Hg & Hc); [|reflexivity|reflexivity].
    split; [exact Hne|]. split; [exact Hc|]. right. left. auto.
  - apply (search_group (Re.lits "Net Profit Margin" ++ [Re.Atom Re.CDot Re.StarLazy])
             [Re.Atom (Re.CLit "%") Re.One] number_dots)
      in Hs as (Hne & Hg & Hc); [|reflexivity|reflexivity].
    split; [exact Hne|]. split; [exact Hc|]. right. left. auto.
  - apply (search_group (Re.lits "Debt to Equity Ratio" ++ [Re.Atom Re.CDot Re.StarLazy])
             [] number_dots)
      in Hs as (Hne & Hg & Hc); [|reflexivity|reflexivity].
    split; [exact Hne|]. split; [exact Hc|]. right. right. auto.
  - apply (search_group (Re.lits "Total Debt Ratio" ++ [Re.Atom Re.CDot Re.StarLazy])
             [] number_dots)
      in Hs as (Hne & Hg & Hc); [|reflexivity|reflexivity].
    split; [exact Hne|]. split; [exact Hc|]. right. right. auto.
Qed.

(** The loop over some of the patterns, none of whose keys is set
    yet: the entries it adds come in the order of the patterns. *)
Lemma apply_patterns_entries (text : string) (pats : list (string * Re.regex))
    metrics rest ed :
  incl pats patterns -> NoDup (map fst pats) ->
  (forall k, In k (PyDict.keys metrics) -> ~ In k (map fst pats)) ->
  for_each (apply_pattern (PStr text)) pats (("metrics", PDict metrics) :: rest) = Ok ed ->
  exists added,
    ed = ("metrics", PDict (metrics ++ added)) :: rest /\
    sublist (PyDict.keys added) (map fst pats) /\
    Forall (fun kv => fallback_entry text (fst kv) (snd kv)) added.
Proof.
  revert metrics. induction pats as [|mp pats IH]; intros metrics Hin Hnd Hfresh; simpl.
  - intros [= <-]. exists []. rewrite app_nil_r. split; [reflexivity|].
    split; [constructor|constructor].
  - destruct (apply_pattern (PStr text) mp _) as [ed1|] eqn:H1; cbn [bind]; [|discriminate].
    intros Hed. inversion Hnd as [|? ? Hnot Hnd']; subst.
    assert (Hin' : incl pats patterns) by (intros x Hx; apply Hin; right; exact Hx).
    apply apply_pattern_entry in H1 as [->|(v & Hv & ->)]; [| |apply Hin; left; reflexivity].
    + destruct (IH metrics Hin' Hnd') with (2 := Hed) as (added & -> & Hsub & Hall).
      { intros k Hk Hk'. apply (Hfresh k Hk). right. exact Hk'. }
      exists added. split; [reflexivity|]. split; [|exact Hall].
      apply sublist_cons, Hsub.
    + rewrite set_fresh in Hed.
      2:{ intros Hk. apply (Hfresh _ Hk). left. reflexivity. }
      destruct (IH (metrics ++ [(fst mp, v)]) Hin' Hnd') with (2 := Hed)
        as (added & -> & Hsub & Hall).
      { intros k Hk Hk'. unfold PyDict.keys in Hk. rewrite map_app in Hk.
        apply in_app_or in Hk as [Hk|[<-|[]]].
        - apply (Hfresh k Hk). right. exact Hk'.
        - apply Hnot, list_elem_of_In, Hk'. }
      exists ((fst mp, v) :: added). rewrite <- app_assoc. split; [reflexivity|].
      split; [apply sublist_skip, Hsub|]. constructor; [exact Hv|exact Hall].
Qed.

(** The metrics of the fallback. *)
Lemma fallback_metrics response (y : pyval) :
  fallback_extraction response = Ok y ->
  exists metrics,
    field y "metrics" = PDict metrics /\
    sublist (PyDict.keys metrics) (map fst patterns) /\
    (metrics = [] \/
     exists text,
       outcome_field response "Financial Metrics" = Some (PStr text) /\
       Forall (fun kv => fallback_entry text (fst kv) (snd kv)) metrics).
Proof.
  intros Hy. destruct (fallback_result response y Hy) as (metrics & _ & _ & Hshape).
  exists metrics. split; [rewrite Hshape; reflexivity|].
  revert Hy. rewrite Hshape. clear Hshape.
  unfold fallback_extraction, outcome_field, outcome_of.
  destruct (PyDict.get response KEY_DETAILED (PDict [])) as [| | | | |l|outcome];
    cbn [bind]; try (intros [= <-]; split; [apply sublist_nil_l|left; reflexivity]).
  unfold PyDict.get at 1 2 3 4.
  destruct (PyDict.lookup outcome "Financial Metrics") as [ft|] eqn:Hft.
  - destruct (truthy ft) eqn:Htr.
    + destruct ft as [| | | |text| |];
        try (cbn; discriminate).
      destruct (for_each _ _ _) as [ed|] eqn:Hed; cbn [bind]; [|discriminate].
      change (PyDict.set _ "context" (PDict outcome))
        with (("metrics", PDict ([] : dict)) ::
              [("context", PDict outcome); ("competitor", PStr "");
               ("contradictions", PStr ""); ("additional_context", PStr "")]) in Hed.
      apply apply_patterns_entries in Hed as (added & -> & Hsub & Hall).
      * cbn. intros [= <-]. split; [exact Hsub|]. right. exists text. auto.
      * intros x Hx. exact Hx.
      * cbn. repeat constructor; rewrite ?list_elem_of_In; cbn; intuition discriminate.
      * intros k [].
    + cbn. intros [= <-]. split; [apply sublist_nil_l|left; reflexivity].
  - cbn. intros [= <-]. split; [apply sublist_nil_l|left; reflexivity].
Qed.

End FallbackMetrics.

(** X9: the metrics of a fallback result hold no other keys than
    the five of the patterns, in the order of the patterns; each value
    is a non-empty run of digits and dots (and commas, for the revenue)
    that occurs in the "Financial Metrics" text of the record, wrapped
    as [$... million] for the revenue, followed by a percent sign for
    the two margins and bare for the two ratios. *)
Theorem fallback_metrics_format (response : dict) (y : pyval) :
  fallback_extraction response = Ok y ->
  exists metrics,
    field y "metrics" = PDict metrics /\
    sublist (PyDict.keys metrics) (map fst patterns) /\
    forall (k : string) (v : pyval),
      PyDict.lookup metrics k = Some v ->
      exists text,
        outcome_field response "Financial Metrics" = Some (PStr text) /\
        fallback_entry text k v.
Proof.
  intros Hy. destruct (fallback_metrics response y Hy) as (metrics & Hf & Hsub & Hm).
  exists metrics. split; [exact Hf|]. split; [exact Hsub|].
  intros k v Hk. destruct Hm as [->|(text & Ht & Hall)]; [discriminate|].
  exists text. split; [exact Ht|].
  apply lookup_In, list_elem_of_In in Hk. rewrite Forall_forall in Hall. exact (Hall (k, v) Hk).
Qed.

Lemma fallback_metrics_format_witness :
  exists metrics,
    field (PDict [ ("metrics", PDict [("Revenue", PStr "$1,098.7 million");
                                     ("Net Profit Margin", PStr "4.5%")]);
                   ("context",
                     PDict [("Financial Metrics",
                              PStr "Revenue was $1,098.7 million; net profit margin of 4.5%")]);
                   ("competitor", PStr ""); ("contradictions", PStr "");
                   ("additional_context", PStr "") ]) "metrics" = PDict metrics /\
    sublist (PyDict.keys metrics) (map fst patterns).
Proof.
  destruct (fallback_metrics_format
              [ (KEY_DETAILED,
                  PDict [("Financial Metrics",
                           PStr "Revenue was $1,098.7 million; net profit margin of 4.5%")]) ]
              _ eq_refl) as (metrics & Hf & Hsub & _).
  exists metrics. split; [exact Hf|exact Hsub].
Defined.

(** X10: every key of the fallback's metrics is a key the success
    path produces for a field of [FinancialMetrics]: there is a field
    of the schema such that a reply holding this field alone, with any
    value but [None], is formatted by [extract_metrics] into metrics
    with this key alone, bound to that value. *)
Theorem fallback_keys_in_schema (response : dict) (y : pyval) :
  fallback_extraction response = Ok y ->
  exists metrics,
    field y "metrics" = PDict metrics /\
    forall k, In k (PyDict.keys metrics) ->
      exists f, In f FinancialMetrics_fields /\
        forall v, v <> PNone ->
          format_metrics [(f, v)] [] = [(k, v)] /\
          exists y1,
            format_result (PDict [("metrics", PDict [(f, v)])]) = Ok y1 /\
            field y1 "metrics" = PDict [(k, v)].
Proof.
  intros Hy. destruct (fallback_metrics response y Hy) as (metrics & Hf & Hsub & _).
  exists metrics. split; [exact Hf|].
  intros k Hk. apply list_elem_of_In in Hk.
  pose proof (elem_of_sublist _ _ _ Hk Hsub) as Hp. apply list_elem_of_In in Hp.
  simpl in Hp.
  assert (Hfmt : forall f v, v <> PNone ->
            format_metrics [(f, v)] [] = [(title (replace "_" " " f), v)]).
  { intros f v Hv. destruct v; try congruence; reflexivity. }
  assert (Hres : forall f v label,
            format_metrics [(f, v)] [] = [(label, v)] ->
            format_metrics [(f, v)] [] = [(label, v)] /\
            exists y1,
              format_result (PDict [("metrics", PDict [(f, v)])]) = Ok y1 /\
              field y1 "metrics" = PDict [(label, v)]).
  { intros f v label Hm. split; [exact Hm|].
    exists (PDict [ ("metrics", PDict (format_metrics [(f, v)] []));
                    ("context", PDict []); ("competitor", PStr "");
                    ("contradictions", PStr ""); ("additional_context", PStr "") ]).
    split; [reflexivity|].
    transitivity (PDict (format_metrics [(f, v)] [])); [reflexivity|].
    rewrite Hm. reflexivity. }
  destruct Hp as [<-|[<-|[<-|[<-|[<-|[]]]]]].
  - exists "revenue". split; [simpl; tauto|].
    intros v Hv. apply Hres. exact (Hfmt "revenue" v Hv).
  - exists "gross_profit_margin". split; [simpl; tauto|].
    intros v Hv. apply Hres. exact (Hfmt "gross_profit_margin" v Hv).
  - exists "net_profit_margin". split; [simpl; tauto|].
    intros v Hv. apply Hres. exact (Hfmt "net_profit_margin" v Hv).
  - exists "debt_to_equity_ratio". split; [simpl; tauto|].
    intros v Hv. apply Hres. exact (Hfmt "debt_to_equity_ratio" v Hv).
  - exists "total_debt_ratio". split; [simpl; tauto|].
    intros v Hv. apply Hres. exact (Hfmt "total_debt_ratio" v Hv).
Qed.

Lemma fallback_keys_in_schema_witness :
  exists metrics,
    field (PDict [ ("metrics", PDict [("Total Debt Ratio", PStr "0.62")]);
                   ("context", PDict [("Financial Metrics", PStr "Total debt ratio: 0.62")]);
                   ("competitor", PStr ""); ("contradictions", PStr "");
                   ("additional_context", PStr "") ]) "metrics" = PDict metrics /\
    forall k, In k (PyDict.keys metrics) ->
      exists f, In f FinancialMetrics_fields /\
        forall v, v <> PNone ->
          format_metrics [(f, v)] [] = [(k, v)] /\
          exists y1,
            format_result (PDict [("metrics", PDict [(f, v)])]) = Ok y1 /\
            field y1 "metrics" = PDict [(k, v)].
Proof.
  exact (fallback_keys_in_schema
           [ (KEY_DETAILED, PDict [("Financial Metrics", PStr "Total debt ratio: 0.62")]) ]
           _ eq_refl).
Defined.

(** * The success path of [extract_metrics] *)

Section Formatting.

Lemma lookup_set (d : dict) (k k' : string) (v : pyval) :
  PyDict.lookup (PyDict.set d k v) k' =
    if String.eqb k' k then Some v else PyDict.lookup d k'.
Proof.
  induction d as [|[k0 v0] d IH]; simpl.
  - reflexivity.
  - destruct (String.eqb k k0) eqn:E; simpl.
    + apply String.eqb_eq in E as ->. destruct (String.eqb k' k0); reflexivity.
    + rewrite IH. destruct (String.eqb k' k0) eqn:E'; [|reflexivity].
      apply String.eqb_eq in E' as ->. rewrite String.eqb_sym, E. reflexivity.
Qed.

Lemma keys_set (d : dict) (k : string) (v : pyval) :
  NoDup (PyDict.keys d) -> NoDup (PyDict.keys (PyDict.set d k v)).
Proof.
  intros Hd.
  destruct (in_dec string_dec k (PyDict.keys d)) as [Hin|Hn].
  - assert (Hk : PyDict.keys (PyDict.set d k v) = PyDict.keys d); [|rewrite Hk; exact Hd].
    clear Hd. induction d as [|[k0 v0] d IH]; [destruct Hin|]. simpl.
    destruct (String.eqb k k0) eqn:E; [reflexivity|]. simpl. f_equal. apply IH.
    destruct Hin as [Hin|Hin]; [|exact Hin]. simpl in Hin. subst k0.
    rewrite String.eqb_refl in E. discriminate.
  - rewrite set_fresh by exact Hn. unfold PyDict.keys. rewrite map_app. simpl.
    apply NoDup_app. split; [exact Hd|]. split; [|apply NoDup_singleton].
    intros x Hx Hx'. apply list_elem_of_In in Hx. apply list_elem_of_In in Hx'.
    destruct Hx' as [<-|[]]. exact (Hn Hx).
Qed.

Lemma format_metrics_lookup (its : list (string * pyval)) (acc : dict) (label : string) :
  PyDict.lookup (format_metrics its acc) label =
    match shown label its with
    | Some v => Some v
    | None => PyDict.lookup acc label
    end.
Proof.
  revert acc. induction its as [|[k v] its IH]; intros acc; [reflexivity|].
  assert (Hset : PyDict.lookup (format_metrics its (PyDict.set acc (title (replace "_" " " k)) v))
                   label =
                 match shown label its with
                 | Some x => Some x
                 | None => if String.eqb (display_label k) label then Some v
                           else PyDict.lookup acc label
                 end).
  { rewrite IH, lookup_set. unfold display_label. rewrite (String.eqb_sym label). reflexivity. }
  cbn [shown].
  destruct v; cbn [format_metrics is_none negb andb]; rewrite ?Hset;
    try (destruct (shown label its); [reflexivity|];
         destruct (String.eqb (display_label k) label); reflexivity).
  rewrite IH. destruct (shown label its); reflexivity.
Qed.

Lemma format_metrics_keys (its : list (string * pyval)) (acc : dict) :
  NoDup (PyDict.keys acc) -> NoDup (PyDict.keys (format_metrics its acc)).
Proof.
  revert acc. induction its as [|[k v] its IH]; intros acc Hacc; [exact Hacc|].
  destruct v; cbn [format_metrics]; try (apply IH, keys_set, Hacc). apply IH, Hacc.
Qed.

Lemma shown_not_none (label : string) (its : list (string * pyval)) (v : pyval) :
  shown label its = Some v -> v <> PNone.
Proof.
  induction its as [|[k x] its IH]; [discriminate|]. cbn [shown].
  destruct (shown label its) as [y|]; [exact IH|].
  destruct x; cbn [is_none negb andb]; try discriminate;
    destruct (String.eqb _ _); try discriminate; intros [= <-]; discriminate.
Qed.

End Formatting.

(** X11: in the metrics of the success path no label is repeated;
    the value under a label is that of the last item of the reply's
    metrics with this label that is not [None], so that of two fields
    with the same label the later wins; no value is [None]. *)
Theorem later_label_wins (its : list (string * pyval)) (label : string) :
  NoDup (PyDict.keys (format_metrics its [])) /\
  PyDict.lookup (format_metrics its []) label = shown label its /\
  PyDict.lookup (format_metrics its []) label <> Some PNone.
Proof.
  assert (Hl : PyDict.lookup (format_metrics its []) label = shown label its).
  { rewrite format_metrics_lookup. destruct (shown label its); reflexivity. }
  split; [apply format_metrics_keys; constructor|]. split; [exact Hl|].
  rewrite Hl. intros H. exact (shown_not_none label its PNone H eq_refl).
Qed.

(** X12: the decoded reply is formatted without an exception exactly
    when it is a mapping whose [metrics] entry is a mapping; the
    exception is a [TypeError] when the reply is no mapping, a
    [KeyError] when it has no [metrics] and an [AttributeError] when
    its [metrics] is no mapping. *)
Theorem reply_formatted_iff (reply : pyval) :
  ((exists y, format_result reply = Ok y) <->
   (exists d m, reply = PDict d /\ PyDict.lookup d "metrics" = Some (PDict m))) /\
  (is_dict reply = false -> format_result reply = Raise TypeError) /\
  (forall d, reply = PDict d -> PyDict.lookup d "metrics" = None ->
             format_result reply = Raise KeyError) /\
  (forall d v, reply = PDict d -> PyDict.lookup d "metrics" = Some v -> is_dict v = false ->
               format_result reply = Raise AttributeError).
Proof.
  split; [split|].
  - intros [y Hy]. unfold format_result in Hy.
    destruct reply as [| | | | | |d]; try discriminate. cbn [PyDict.getitem] in Hy.
    destruct (PyDict.lookup d "metrics") as [v|] eqn:Hv; cbn [bind] in Hy; [|discriminate].
    destruct v as [| | | | | |m]; try discriminate. exists d, m. split; [reflexivity|exact Hv].
  - intros (d & m & -> & Hm). unfold format_result. cbn [PyDict.getitem].
    rewrite Hm. cbn. eexists; reflexivity.
  - split; [|split].
    + destruct reply; try discriminate; reflexivity.
    + intros d -> Hd. unfold format_result. cbn [PyDict.getitem]. rewrite Hd. reflexivity.
    + intros d v -> Hd Hv. unfold format_result. cbn [PyDict.getitem]. rewrite Hd.
      destruct v; try discriminate; reflexivity.
Qed.

(** * The prompt text *)

Section Prompt.

Lemma join_head (sep : string) (c : ascii) (p : string) (r : list string) :
  join sep (String c p :: r) <> "".
Proof. destruct r; cbn [join]; [discriminate|]. rewrite app_cons. discriminate. Qed.

Lemma fold_left_head {A : Type} (g : A -> string) (l : list A) (h : string) (t : list string) :
  fold_left (fun parts kv => parts ++ [g kv]) l (h :: t) =
  h :: fold_left (fun parts kv => parts ++ [g kv]) l t.
Proof. revert t. induction l as [|x l IH]; intros t; [reflexivity|]. simpl. apply IH. Qed.

End Prompt.

(** X13: the text prepared for the model is empty exactly when none
    of the three sections of the record is there with a value that
    counts as true; a section that is absent, empty, [None], zero or
    an empty mapping adds nothing, not even its heading. *)
Theorem prompt_text_empty_iff (py_str : pyval -> string) (response : dict) :
  prepare_input_text py_str response = "" <->
  truthy (PyDict.get response KEY_SHORT (PStr "")) = false /\
  truthy (PyDict.get response KEY_DETAILED (PDict [])) = false /\
  truthy (PyDict.get response KEY_ADDITIONAL (PStr "")) = false.
Proof.
  unfold prepare_input_text.
  set (line := fun kv : string * pyval => fst kv +:+ ": " +:+ py_str (snd kv)).
  assert (Hjoin : forall (b : bool) (h : string) (t1 t2 : list string),
            h <> "" ->
            join (String "010" (String "010" "")) (if b then h :: t1 else h :: t2) <> "").
  { intros b h t1 t2 Hh. destruct h as [|c h]; [congruence|].
    destruct b; apply join_head. }
  change (fun parts kv => parts ++ [fst kv +:+ ": " +:+ py_str (snd kv)])
    with (fun parts (kv : string * pyval) => parts ++ [line kv]).
  destruct (truthy (PyDict.get response KEY_SHORT (PStr ""))) eqn:H1.
  - split; [|intros [? _]; discriminate]. intros H. exfalso. revert H.
    destruct (truthy (PyDict.get response KEY_DETAILED (PDict []))).
    + destruct (PyDict.get response KEY_DETAILED (PDict []));
        cbn [app]; rewrite ?(fold_left_head line); cbn [app];
        apply Hjoin; rewrite app_cons; discriminate.
    + cbn [app]. apply Hjoin. rewrite app_cons. discriminate.
  - destruct (truthy (PyDict.get response KEY_DETAILED (PDict []))) eqn:H2.
    + split; [|intros (_ & ? & _); discriminate]. intros H. exfalso. revert H.
      destruct (PyDict.get response KEY_DETAILED (PDict []));
        cbn [app]; rewrite ?(fold_left_head line); cbn [app];
        apply Hjoin; discriminate.
    + destruct (truthy (PyDict.get response KEY_ADDITIONAL (PStr ""))) eqn:H3.
      * split; [|intros (_ & _ & ?); discriminate]. intros H. exfalso. revert H.
        cbn [app]. rewrite app_cons. apply join_head.
      * split; [auto|reflexivity].
Qed.

(** * [format_text_content] *)

Section TextContent.

Lemma lstrip_blank (s : string) : blank s = true -> lstrip_text s = "".
Proof.
  induction s as [|c s IH]; [reflexivity|]. unfold blank. simpl.
  intros H. apply andb_prop in H as [Hc Hs]. rewrite Hc. apply IH, Hs.
Qed.

Lemma splitlines_one_line (s : string) :
  one_line s = true ->
  splitlines s = match s with EmptyString => [] | _ => [s] end.
Proof.
  induction s as [|c s IH]; [reflexivity|]. unfold one_line. simpl.
  intros H. apply andb_prop in H as [Hc Hs]. apply negb_true_iff in Hc. rewrite Hc.
  rewrite (IH Hs). destruct s; reflexivity.
Qed.

Lemma lower_char_hyphen (c : ascii) :
  Ascii.eqb (lower_char c) (lower_char "-") = Ascii.eqb c "-".
Proof. destruct c as [[] [] [] [] [] [] [] []]; vm_compute; reflexivity. Qed.

Lemma count_snoc_same (parts : list string) (x : string) :
  count_occ string_dec (parts ++ [x]) x = S (count_occ string_dec parts x).
Proof.
  rewrite count_occ_app. simpl. destruct (string_dec x x); [lia|congruence].
Qed.

Lemma count_snoc_other (parts : list string) (x y : string) :
  y <> x -> count_occ string_dec (parts ++ [y]) x = count_occ string_dec parts x.
Proof.
  intros Hne. rewrite count_occ_app. simpl. destruct (string_dec y x); [congruence|lia].
Qed.

(** A text that starts otherwise than [x] is not [x]. *)
Lemma app_neq (pre rest x : string) : String.prefix pre x = false -> pre +:+ rest <> x.
Proof.
  intros Hp <-. assert (String.prefix pre (pre +:+ rest) = true) by (apply prefix_spec; eauto).
  congruence.
Qed.

Ltac count_tags :=
  repeat first
    [ rewrite count_snoc_same
    | rewrite count_snoc_other by
        first [ apply app_neq; vm_compute; reflexivity | vm_compute; discriminate ] ].

Lemma close_lists_balanced (st : loop_state) :
  balanced st ->
  balanced (close_lists st) /\ snd (fst (close_lists st)) = false /\
  snd (close_lists st) = false.
Proof.
  destruct st as [[parts in_ul] in_ol]. unfold balanced, close_lists. intros [Hu Ho].
  destruct in_ul, in_ol; cbn [fst snd]; count_tags; repeat split; lia.
Qed.

Lemma format_line_balanced (st : loop_state) (line : string) :
  balanced st -> balanced (format_line st line).
Proof.
  intros Hst. unfold format_line.
  destruct st as [[parts in_ul] in_ol].
  destruct (String.eqb (strip_text line) ""); [apply close_lists_balanced, Hst|].
  destruct Hst as [Hu Ho]. unfold balanced.
  destruct (String.prefix "### " (strip_text line)); [count_tags; lia|].
  destruct (String.prefix "#### " (strip_text line)); [count_tags; lia|].
  destruct (re_match (Re.lits "- ") (strip_text line)).
  { destruct in_ul; cbn [negb]; count_tags; lia. }
  destruct (re_match _ (strip_text line)).
  { destruct in_ol; cbn [negb]; count_tags; lia. }
  count_tags; lia.
Qed.

Lemma loop_balanced (lines : list string) (st : loop_state) :
  balanced st -> balanced (fold_left format_line lines st).
Proof.
  revert st. induction lines as [|l lines IH]; intros st Hst; [exact Hst|].
  simpl. apply IH, format_line_balanced, Hst.
Qed.

End TextContent.

(** X14: a text that is not empty and holds white space only is
    rendered as the empty string, not as the placeholder paragraph of
    the empty text. *)
Theorem blank_text_no_placeholder (text : string) :
  text <> "" -> blank text = true ->
  format_text_content text = "" /\
  format_text_content "" = "<p>No content available.</p>".
Proof.
  intros Hne Hb. split; [|reflexivity].
  unfold format_text_content, format_text_parts, strip_text.
  destruct text as [|c text]; [congruence|]. cbn [String.eqb].
  rewrite (lstrip_blank _ Hb). reflexivity.
Qed.

Lemma blank_text_no_placeholder_witness :
  format_text_content (String "032" (String "010" (String "009" ""))) = "" /\
  format_text_content "" = "<p>No content available.</p>".
Proof.
  apply (blank_text_no_placeholder (String "032" (String "010" (String "009" "")))).
  - discriminate.
  - reflexivity.
Defined.

(** X15: among the parts [format_text_content] joins, the opening
    tags of bulleted lists are as many as the closing ones, and so for
    numbered lists: every list that is opened is closed, at a blank
    line or at the end of the text. *)
Theorem list_tags_balanced (text : string) :
  count_occ string_dec (format_text_parts text) UL_OPEN =
    count_occ string_dec (format_text_parts text) "</ul>" /\
  count_occ string_dec (format_text_parts text) OL_OPEN =
    count_occ string_dec (format_text_parts text) "</ol>".
Proof.
  unfold format_text_parts.
  pose proof (loop_balanced (splitlines (strip_text text)) ([], false, false)) as H.
  assert (H0 : balanced ([], false, false)) by (split; reflexivity).
  apply H, close_lists_balanced in H0 as (Hb & Hu & Ho).
  destruct (close_lists _) as [[parts in_ul] in_ol]. cbn [fst snd] in *. subst.
  destruct Hb as [Hb1 Hb2]. split; lia.
Qed.

(** X16: a text of one line that starts with a character which is
    not white space, a hash, a hyphen or a digit, and does not end in
    white space, is rendered as one paragraph that holds the text
    character for character: nothing in it is escaped. *)
Theorem plain_line_verbatim (c : ascii) (rest : string) :
  plain_start c = true ->
  one_line (String c rest) = true ->
  rstrip_text (String c rest) = String c rest ->
  format_text_content (String c rest) = "<p>" +:+ String c rest +:+ "</p>".
Proof.
  unfold plain_start. intros Hc Hone Hr.
  apply andb_prop in Hc as [Hc Hd]. apply andb_prop in Hc as [Hc Hy].
  apply andb_prop in Hc as [Hs Hh].
  apply negb_true_iff in Hs, Hh, Hy, Hd.
  assert (Hstrip : strip_text (String c rest) = String c rest).
  { unfold strip_text. cbn [lstrip_text]. rewrite Hs. exact Hr. }
  unfold format_text_content, format_text_parts. cbn [String.eqb].
  rewrite Hstrip, (splitlines_one_line _ Hone). cbn [fold_left].
  unfold format_line. rewrite Hstrip. cbn [String.eqb].
  assert (H3 : String.prefix "### " (String c rest) = false).
  { cbn [String.prefix]. destruct (ascii_dec "#" c) as [<-|_]; [discriminate Hh|reflexivity]. }
  assert (H4 : String.prefix "#### " (String c rest) = false).
  { cbn [String.prefix]. destruct (ascii_dec "#" c) as [<-|_]; [discriminate Hh|reflexivity]. }
  assert (Hul : re_match (Re.lits "- ") (String c rest) = false).
  { unfold re_match. cbn [Re.lits]. rewrite run_one. cbn [Re.mem].
    rewrite lower_char_hyphen, Hy. reflexivity. }
  assert (Hol : re_match [Re.Atom Re.CDigit Re.Plus; Re.Atom (Re.CLit ".") Re.One]
                  (String c rest) = false).
  { unfold re_match. rewrite run_plus. cbn [Re.mem]. rewrite Hd. reflexivity. }
  rewrite H3, H4, Hul, Hol. reflexivity.
Qed.

Lemma plain_line_verbatim_witness :
  format_text_content "<b>Revenue</b> & costs" = "<p><b>Revenue</b> & costs</p>".
Proof.
  apply (plain_line_verbatim "<" "b>Revenue</b> & costs"); reflexivity.
Defined.

(** * The exceptions of [extract_metrics] *)

Section Exceptions.

Lemma apply_patterns_not_text (ft : pyval) (ed : dict) :
  is_str ft = false ->
  for_each (apply_pattern ft) patterns ed = Raise TypeError.
Proof. destruct ft; try discriminate; reflexivity. Qed.

(** The fallback raises exactly on a "Financial Metrics" subsection
    that counts as true and is no text, and then a [TypeError]. *)
Lemma fallback_raises_iff (response : dict) (e : exn) :
  fallback_extraction response = Raise e <->
  e = TypeError /\ financial_text_usable response = false.
Proof.
  unfold financial_text_usable, fallback_extraction, outcome_field, outcome_of.
  destruct (PyDict.get response KEY_DETAILED (PDict [])) as [| | | | |l|outcome];
    cbn [bind]; try (split; [discriminate|intros [_ ?]; discriminate]).
  unfold PyDict.get at 1 2.
  destruct (PyDict.lookup outcome "Financial Metrics") as [ft|] eqn:Hft.
  - destruct (truthy ft) eqn:Ht.
    + destruct (is_str ft) eqn:Hs.
      * destruct ft; try discriminate.
        destruct (apply_patterns_text s patterns []
                    [("context", PDict outcome); ("competitor", PStr "");
                     ("contradictions", PStr ""); ("additional_context", PStr "")]) as [ed Hed].
        change (PyDict.set _ "context" (PDict outcome))
          with [("metrics", PDict []); ("context", PDict outcome); ("competitor", PStr "");
                ("contradictions", PStr ""); ("additional_context", PStr "")].
        rewrite Hed. cbn [bind]. split; [discriminate|intros [_ ?]; discriminate].
      * rewrite (apply_patterns_not_text ft _ Hs). cbn [bind orb negb].
        split; [intros [= <-]; auto|intros [-> _]; reflexivity].
    + cbn [bind]. rewrite orb_true_r. split; [discriminate|intros [_ ?]; discriminate].
  - cbn [truthy String.eqb negb bind]. split; [discriminate|intros [_ ?]; discriminate].
Qed.

End Exceptions.

(** X17: [extract_metrics] raises exactly when its [try] block
    fails and the "Financial Metrics" subsection of the record counts
    as true without being text; the exception is then the [TypeError]
    of the search in the fallback, whatever the [try] block raised. *)
Theorem extract_metrics_raises_iff
    (py_str : pyval -> string) (system_prompt : string)
    (format_user_prompt : string -> result string)
    (completion : string -> list (string * string) -> result pyval)
    (json_loads : string -> result pyval)
    (response : dict) (model : string) (e : exn) :
  extract_metrics py_str system_prompt format_user_prompt completion json_loads
    response model = Raise e <->
  (exists e',
     structured_extraction system_prompt format_user_prompt completion json_loads
       model (prepare_input_text py_str response) = Raise e') /\
  e = TypeError /\ financial_text_usable response = false.
Proof.
  unfold extract_metrics.
  destruct (structured_extraction _ _ _ _ _ _) as [y|e'] eqn:Hs; cbn [catch_exception].
  - split; [discriminate|]. intros [[e' He'] _]. discriminate.
  - rewrite fallback_raises_iff. split.
    + intros H. split; [exists e'; reflexivity|exact H].
    + intros [_ H]. exact H.
Qed.

(** * Labels *)

Section Labels.

Lemma title_char (b : bool) (c : ascii) :
  (if b then lower_char (lower_char c) else upper_char (lower_char c)) =
  (if b then lower_char c else upper_char c) /\
  is_cased (lower_char c) = is_cased c.
Proof.
  destruct b; destruct c as [[] [] [] [] [] [] [] []]; vm_compute; split; reflexivity.
Qed.

Lemma title_aux_lower (b : bool) (s : string) :
  title_aux b (lower s) = title_aux b s.
Proof.
  revert b. induction s as [|c s IH]; intros b; [reflexivity|].
  unfold lower in *. cbn [map_chars title_aux].
  destruct (title_char b c) as [H1 H2]. rewrite H1, H2, IH. reflexivity.
Qed.

(** The key under which the success path stores a field depends on
    the field's name through its lower case only. *)
Lemma format_metrics_lower (k : string) (v : pyval) (acc : dict) :
  format_metrics [(k, v)] acc =
  match v with
  | PNone => acc
  | _ => PyDict.set acc (title (lower (replace "_" " " k))) v
  end.
Proof.
  unfold title. rewrite title_aux_lower. destruct v; reflexivity.
Qed.

Lemma format_metrics_cons (kv : string * pyval) (its : list (string * pyval)) (acc : dict) :
  format_metrics (kv :: its) acc = format_metrics its (format_metrics [kv] acc).
Proof. destruct kv as [k v]. destruct v; reflexivity. Qed.

End Labels.

(** X18: for field names of ASCII text (where the model of
    [str.lower] and [str.title] is exact), the key under which the
    success path stores a field of the reply does not depend on the
    case of the letters of its name nor on whether its words are
    joined by underscores or by spaces: two names that agree up to
    these are formatted alike, and when a reply holds both, the value
    of the later, unless [None], is the one that is kept, under one
    key. *)
Theorem label_ignores_case_and_underscores (k1 k2 : string) (v1 v2 : pyval) :
  ascii_text k1 = true -> ascii_text k2 = true ->
  lower (replace "_" " " k1) = lower (replace "_" " " k2) ->
  (forall acc, format_metrics [(k1, v1)] acc = format_metrics [(k2, v1)] acc) /\
  (v2 <> PNone ->
   format_metrics [(k1, v1); (k2, v2)] [] = format_metrics [(k2, v2)] []).
Proof.
  intros _ _ Hk. split.
  - intros acc. rewrite !format_metrics_lower, Hk. reflexivity.
  - intros Hv.
    rewrite (format_metrics_cons (k1, v1)), !format_metrics_lower, Hk.
    destruct v2; try congruence; destruct v1; cbn [PyDict.set];
      rewrite ?String.eqb_refl; reflexivity.
Qed.

Lemma label_ignores_case_and_underscores_witness :
  format_metrics [("net_profit_margin", PStr "0.43%"); ("Net Profit Margin", PStr "0.5%")] []
  = [("Net Profit Margin", PStr "0.5%")].
Proof.
  apply (proj2 (label_ignores_case_and_underscores
                  "net_profit_margin" "Net Profit Margin" (PStr "0.43%") (PStr "0.5%")
                  eq_refl eq_refl eq_refl)).
  discriminate.
Defined.
